(** * France investor dashboard: the data-cleaning and charting routines

    A shallow embedding of [app.py].  The program is a Streamlit script
    built on pandas, NumPy and Matplotlib; the parts of those libraries that
    the script calls are modelled here next to the script's own functions:

    - Python text ([strip], [lower]) on strings whose characters are the
      code points below 256;
    - the numeric cells of a table as rationals extended with the two
      infinities (the values a float64 denotes), a failed coercion as the
      missing value [CNaN];
    - a [DataFrame] as a list of labelled rows, each row a finite map from
      column names to cells;
    - NumPy's default [argsort] (kind quicksort: an introsort that falls back
      to insertion sort on short ranges and to heapsort when the recursion
      gets too deep), which is what [sort_values] runs; it is the portable
      routine of [npysort] that is modelled, not the vectorised ones that
      NumPy may pick on some processors;
    - a Matplotlib figure as the record of what was drawn on its axes;
    - Streamlit output as a log of events, [st.stop] as an exception. *)

From Stdlib Require Import ZArith QArith Lia ZifyNat Ascii String DecimalString Lqa.
From stdpp Require Import base strings list sorting sets gmap.

(** ** Python text *)

Module Py.
Definition ord (c : ascii) : N := N_of_ascii c.

(** [str.isspace] on one character: the control characters 9-13 and
    28-31, the space, NEL (133) and the no-break space (160). *)
Definition isspace (c : ascii) : bool :=
  let n := ord c in
  ((9 <=? n) && (n <=? 13) || (28 <=? n) && (n <=? 32)
   || (n =? 133) || (n =? 160))%N.

Definition lower_char (c : ascii) : ascii :=
  let n := ord c in
  if ((65 <=? n) && (n <=? 90)
      || (192 <=? n) && (n <=? 222) && negb (n =? 215))%N
  then ascii_of_N (n + 32) else c.

(** [s.lower()] *)
Fixpoint lower (s : string) : string :=
  match s with
  | EmptyString => EmptyString
  | String c s' => String (lower_char c) (lower s')
  end.

Fixpoint lstrip (s : string) : string :=
  match s with
  | EmptyString => EmptyString
  | String c s' => if isspace c then lstrip s' else s
  end.

Fixpoint rstrip (s : string) : string :=
  match s with
  | EmptyString => EmptyString
  | String c s' =>
      match rstrip s' with
      | EmptyString => if isspace c then EmptyString else String c EmptyString
      | r => String c r
      end
  end.

(** [s.strip()] *)
Definition strip (s : string) : string := rstrip (lstrip s).
End Py.

(** ** Numbers *)

(** A numeric value of a column: a float64 (or int64) that is not NaN. *)
Inductive num : Type :=
  | NegInf
  | Fin (q : Q)
  | PosInf.

Definition num_leb (a b : num) : bool :=
  match a, b with
  | NegInf, _ => true
  | _, PosInf => true
  | Fin x, Fin y => Qle_bool x y
  | _, _ => false
  end.

(** The decimal literals accepted by the numeric parser of [pd.to_numeric]:
    optional blanks, a sign, digits with an optional fraction, an optional
    exponent, optional blanks. *)
Module Parse.
Definition isspace_ascii (c : ascii) : bool :=
  let n := Py.ord c in ((n =? 32) || (9 <=? n) && (n <=? 13))%N.

Definition digit (c : ascii) : option Z :=
  let n := Z.of_N (Py.ord c) in
  if ((48 <=? n) && (n <=? 57))%Z then Some (n - 48)%Z else None.

Fixpoint skip_ws (s : string) : string :=
  match s with
  | String c s' => if isspace_ascii c then skip_ws s' else s
  | EmptyString => EmptyString
  end.

Fixpoint read_digits (s : string) (acc : Z) (cnt : nat) : Z * nat * string :=
  match s with
  | String c s' =>
      match digit c with
      | Some d => read_digits s' (10 * acc + d)%Z (S cnt)
      | None => (acc, cnt, s)
      end
  | EmptyString => (acc, cnt, s)
  end.

Definition read_sign (s : string) : bool * string :=
  match s with
  | String "-" s' => (true, s')
  | String "+" s' => (false, s')
  | _ => (false, s)
  end.

(** [m * 10 ^ k] *)
Definition scale (m k : Z) : Q :=
  if (0 <=? k)%Z then inject_Z (m * 10 ^ k)
  else Qred (Qmake m (Z.to_pos (10 ^ (- k)))).

Definition xstrtod (s : string) : option Q :=
  let s := skip_ws s in
  let '(neg, s) := read_sign s in
  let '(ip, n1, s) := read_digits s 0 0 in
  let '(mant, n2, s) :=
    match s with
    | String "." s' => read_digits s' ip 0
    | _ => (ip, 0, s)
    end in
  if (n1 + n2 =? 0)%nat then None
  else
    let '(e, ok, s) :=
      match s with
      | String c s' =>
          if (Ascii.eqb c "e" || Ascii.eqb c "E")%bool then
            let '(eneg, s2) := read_sign s' in
            let '(ev, n3, s3) := read_digits s2 0 0 in
            if (n3 =? 0)%nat then (0%Z, false, s)
            else ((if eneg then - ev else ev)%Z, true, s3)
          else (0%Z, true, s)
      | EmptyString => (0%Z, true, s)
      end in
    match ok, skip_ws s with
    | true, EmptyString =>
        Some (scale (if neg then - mant else mant) (e - Z.of_nat n2))
    | _, _ => None
    end.

(** [None] is NaN: the text is no number, or it spells NaN. *)
Definition floatify (s : string) : option num :=
  match xstrtod s with
  | Some q => Some (Fin q)
  | None =>
      let l := Py.lower s in
      if decide (l ∈ ["inf"; "+inf"; "infinity"; "+infinity"]) then Some PosInf
      else if decide (l ∈ ["-inf"; "-infinity"]) then Some NegInf
      else None
  end.
End Parse.

(** What Python's [str] and [int] make of a number and of a text.  Float
    formatting and integer literals play no part in the results below and
    are left to the instance. *)
Class PyBuiltins := {
  num_repr : num → string;
  int_of_str : string → option Z
}.

(** ** Cells, rows and tables *)

Inductive cell : Type :=
  | CNum (x : num)
  | CStr (s : string)
  | CNaN.

Global Instance cell_inhabited : Inhabited cell := populate CNaN.

Definition isna (c : cell) : bool :=
  match c with CNaN => true | _ => false end.

Definition notna (c : cell) : bool := negb (isna c).

(** The order used when a column is sorted.  After coercion a column holds
    numbers only (or, for the label column, text only); numbers are put
    before text to make the order total. *)
Definition cell_leb (a b : cell) : bool :=
  match a, b with
  | CNum x, CNum y => num_leb x y
  | CNum _, _ => true
  | CStr _, CNum _ => false
  | CStr s, CStr t => String.leb s t
  | CStr _, CNaN => true
  | CNaN, CNaN => true
  | CNaN, _ => false
  end.

Definition cell_lt (a b : cell) : bool := negb (cell_leb b a).

Abbreviation Row := (gmap string cell).

(** A missing entry of a row reads as NaN. *)
Definition cell_at (c : string) (r : Row) : cell := default CNaN (r !! c).

Abbreviation Series := (list cell).

Record DataFrame : Type := mkDataFrame {
  columns : list string;
  rows : list (nat * Row)   (* index label, row *)
}.

(** ** Exceptions *)

Inductive exn : Type :=
  | KeyError (key : string)
  | IndexError
  | IntCastingNaNError
  | ValueError
  | StopException
  | IOError (what : string).

Inductive result (A : Type) : Type :=
  | Ok (a : A)
  | Raise (e : exn).
Arguments Ok {A} a.
Arguments Raise {A} e.

Global Instance result_bind : MBind result := λ A B k m,
  match m with
  | Ok a => k a
  | Raise e => Raise e
  end.

Global Instance result_ret : MRet result := λ A a, Ok a.

(** ** NumPy: argsort, kind quicksort ([npysort/quicksort.cpp] and
    [npysort/heapsort.cpp], the type-generic routines on an index array) *)

Section npysort.
Context {A : Type} (less : A → A → bool).

Definition SMALL_QUICKSORT : nat := 16.

(** [INTP_SWAP(a[i], a[j])] *)
Definition swap (i j : nat) (a : list A) : list A :=
  match a !! i, a !! j with
  | Some x, Some y => <[i:=y]> (<[j:=x]> a)
  | _, _ => a
  end.

(** [if (less(a[i], a[j])) INTP_SWAP(a[i], a[j])] *)
Definition swap_if_less (i j : nat) (a : list A) : list A :=
  match a !! i, a !! j with
  | Some x, Some y => if less x y then swap i j a else a
  | _, _ => a
  end.

(** Length of the longest prefix whose elements satisfy [p]. *)
Fixpoint run (p : A → bool) (l : list A) : nat :=
  match l with
  | x :: l' => if p x then S (run p l') else 0
  | [] => 0
  end.

(** [do { ++pi; } while (less(a[pi], vp));] *)
Definition scan_up (vp : A) (a : list A) (pi : nat) : nat :=
  S pi + run (λ x, less x vp) (drop (S pi) a).

(** [do { --pj; } while (less(vp, a[pj]));] *)
Definition scan_down (vp : A) (a : list A) (pj : nat) : nat :=
  pj - 1 - run (λ x, less vp x) (reverse (take pj a)).

Fixpoint partition_loop (fuel : nat) (vp : A) (a : list A) (pi pj : nat)
  : list A * nat :=
  match fuel with
  | 0 => (a, pi)
  | S fuel' =>
      let pi' := scan_up vp a pi in
      let pj' := scan_down vp a pj in
      if pj' <=? pi' then (a, pi')
      else partition_loop fuel' vp (swap pi' pj' a) pi' pj'
  end.

(** One partition step on the range [a] (so [pl] is 0 and [pr] its last
    position): median of three, the pivot parked at [pr - 1], the two
    scans, the pivot put in place.  Returns the range and the pivot's
    final position. *)
Definition partition (a : list A) : list A * nat :=
  let pr := length a - 1 in
  let pm := pr / 2 in
  let a := swap_if_less pm 0 a in
  let a := swap_if_less pr pm a in
  let a := swap_if_less pm 0 a in
  match a !! pm with
  | Some vp =>
      let a := swap pm (pr - 1) a in
      let '(a, pi) := partition_loop (length a) vp a 0 (pr - 1) in
      (swap pi (pr - 1) a, pi)
  | None => (a, 0)
  end.

(** The insertion sort that finishes short ranges.  [rp] is the sorted
    part so far, last element first; [x] moves left past every element
    it is [less] than. *)
Fixpoint shift_in (x : A) (rp : list A) : list A :=
  match rp with
  | [] => [x]
  | y :: rp' => if less x y then y :: shift_in x rp' else x :: rp
  end.

Definition insertion (a : list A) : list A :=
  reverse (foldl (λ rp x, shift_in x rp) [] a).

(** Heapsort; positions are 0-based here (the source shifts the array by
    one), so the children of [i] are [2 * i + 1] and [2 * i + 2]. *)
Definition larger_child (a : list A) (j n : nat) : nat :=
  match a !! j, a !! (j + 1) with
  | Some x, Some y => if (j + 1 <? n) && less x y then j + 1 else j
  | _, _ => j
  end.

Fixpoint sift (fuel : nat) (a : list A) (tmp : A) (i n : nat) : list A :=
  match fuel with
  | 0 => <[i:=tmp]> a
  | S fuel' =>
      if 2 * i + 1 <? n then
        let j := larger_child a (2 * i + 1) n in
        match a !! j with
        | Some c =>
            if less tmp c then sift fuel' (<[i:=c]> a) tmp j n
            else <[i:=tmp]> a
        | None => <[i:=tmp]> a
        end
      else <[i:=tmp]> a
  end.

Fixpoint heapify (l : nat) (n : nat) (a : list A) : list A :=
  match l with
  | 0 => a
  | S l' =>
      heapify l' n
        (match a !! l' with Some tmp => sift n a tmp l' n | None => a end)
  end.

Fixpoint extract (n : nat) (a : list A) : list A :=
  match n with
  | S n' =>
      match n' with
      | 0 => a
      | S _ =>
          match a !! n', a !! 0 with
          | Some tmp, Some top =>
              extract n' (sift n' (<[n':=top]> a) tmp 0 n')
          | _, _ => a
          end
      end
  | 0 => a
  end.

Definition aheapsort (a : list A) : list A :=
  let n := length a in extract n (heapify (n / 2) n a).

(** The body of the main loop for one range.  [popped] tells whether the
    range comes from the stack (then the depth limit is checked) or is
    the smaller part the inner loop goes on with. *)
Fixpoint quicksort_range (fuel : nat) (popped : bool) (cdepth : Z)
    (a : list A) : list A :=
  match fuel with
  | 0 => a
  | S fuel' =>
      if popped && (cdepth <? 0)%Z then aheapsort a
      else if SMALL_QUICKSORT <? length a - 1 then
        let '(a', pi) := partition a in
        let cdepth' := (cdepth - 1)%Z in
        let smaller_left := pi <? length a - 1 - pi in
        quicksort_range fuel' (negb smaller_left) cdepth' (take pi a')
        ++ take 1 (drop pi a')
        ++ quicksort_range fuel' smaller_left cdepth' (drop (S pi) a')
      else insertion a
  end.

Definition npy_get_msb (n : nat) : Z := Z.log2 (Z.of_nat n).

Definition aquicksort (a : list A) : list A :=
  quicksort_range (length a) true (npy_get_msb (length a) * 2) a.
End npysort.

(** [v.argsort(kind="quicksort")] *)
Definition argsort (v : list cell) : list nat :=
  aquicksort (λ i j, cell_lt (v !!! i) (v !!! j)) (seq 0 (length v)).

(** ** pandas *)

Section pandas.
Context `{PyBuiltins}.

Definition getitem (df : DataFrame) (c : string) : result Series :=
  if decide (c ∈ columns df) then Ok (cell_at c ∘ snd <$> rows df)
  else Raise (KeyError c).

Definition setitem (df : DataFrame) (c : string) (s : Series) : DataFrame :=
  {| columns := if decide (c ∈ columns df) then columns df
                else columns df ++ [c];
     rows := zip_with (λ r v, (r.1, <[c:=v]> r.2)) (rows df) s |}.

Definition copy (df : DataFrame) : DataFrame := df.

(** [pd.to_numeric(s, errors="coerce")] *)
Definition to_numeric1 (c : cell) : cell :=
  match c with
  | CNum x => CNum x
  | CStr s => match Parse.floatify s with Some x => CNum x | None => CNaN end
  | CNaN => CNaN
  end.

Definition to_numeric (s : Series) : Series := to_numeric1 <$> s.

(** [s.astype(str)] *)
Definition astype_str1 (c : cell) : cell :=
  match c with
  | CNum x => CStr (num_repr x)
  | CStr s => CStr s
  | CNaN => CStr "nan"
  end.

Definition astype_str (s : Series) : Series := astype_str1 <$> s.

(** [s.str.strip()], [s.str.lower()] *)
Definition str_map (f : string → string) (c : cell) : cell :=
  match c with CStr s => CStr (f s) | _ => CNaN end.

Definition str_strip (s : Series) : Series := str_map Py.strip <$> s.
Definition str_lower (s : Series) : Series := str_map Py.lower <$> s.

(** [s == text] *)
Definition eq_str (text : string) (c : cell) : bool :=
  match c with CStr s => bool_decide (s = text) | _ => false end.

(** [s.astype(int)] *)
Definition astype_int1 (c : cell) : result Z :=
  match c with
  | CNum (Fin q) => Ok (Z.quot (Qnum q) (Zpos (Qden q)))
  | CNum _ => Raise IntCastingNaNError
  | CNaN => Raise IntCastingNaNError
  | CStr s => match int_of_str s with Some z => Ok z | None => Raise ValueError end
  end.

Definition astype_int (s : Series) : result (list Z) := mapM astype_int1 s.

(** [df[mask]] *)
Definition select (df : DataFrame) (mask : list bool) : DataFrame :=
  {| columns := columns df;
     rows := fst <$> filter (λ rm, rm.2 = true) (zip (rows df) mask) |}.

(** [df.dropna(subset=cols)] *)
Definition dropna (df : DataFrame) (subset : list string) : result DataFrame :=
  match filter (λ c, c ∉ columns df) subset with
  | c :: _ => Raise (KeyError c)
  | [] =>
      Ok {| columns := columns df;
            rows := filter (λ r, forallb (λ c, notna (cell_at c r.2)) subset = true)
                      (rows df) |}
  end.

(** [nargsort] of [pandas/core/sorting.py] with [na_position="last"]:
    the missing keys are set aside, the others sorted (on the reversed
    array and reversed back when descending), the missing ones appended. *)
Definition nargsort (items : Series) (ascending : bool) : list nat :=
  let idx := seq 0 (length items) in
  let non_nan_idx := filter (λ i, notna (items !!! i) = true) idx in
  let nan_idx := filter (λ i, isna (items !!! i) = true) idx in
  let non_nan_idx := if ascending then non_nan_idx else reverse non_nan_idx in
  let non_nans := (items !!!.) <$> non_nan_idx in
  let indexer := (non_nan_idx !!!.) <$> argsort non_nans in
  let indexer := if ascending then indexer else reverse indexer in
  indexer ++ nan_idx.

(** [df.sort_values(by, ascending=...)] *)
Definition sort_values (df : DataFrame) (by_ : string) (ascending : bool)
  : result DataFrame :=
  k ← getitem df by_;
  Ok {| columns := columns df;
        rows := (rows df !!!.) <$> nargsort k ascending |}.

(** [df.empty] *)
Definition empty (df : DataFrame) : bool :=
  match columns df, rows df with
  | _ :: _, _ :: _ => false
  | _, _ => true
  end.

(** [s.iloc[0]], [s.iloc[-1]] *)
Definition iloc_first (s : Series) : result cell :=
  match s with x :: _ => Ok x | [] => Raise IndexError end.

Definition iloc_last (s : Series) : result cell :=
  match last s with Some x => Ok x | None => Raise IndexError end.
End pandas.

(** ** Matplotlib: what gets drawn *)

Record line_props : Type := mkProps {
  marker : option string;
  linewidth : option Q;
  linestyle : option string;
  label : option string;
  alpha : option Q
}.

Inductive artist : Type :=
  | HSpan (ymin ymax : Q) (props : line_props)           (* ax.axhspan *)
  | HLine (y : Q) (props : line_props)                   (* ax.axhline *)
  | Line (xs ys : Series) (props : line_props)           (* ax.plot *)
  | Bar (xs : list Z) (heights : Series).                (* ax.bar *)

Record Figure : Type := mkFigure {
  figsize : Q * Q;
  artists : list artist;
  title_ : option string;
  xlabel : option string;
  ylabel : option string;
  xticks : option (list Z);
  grid : option (bool * string * Q);
  legend : option string
}.

Definition subplots (size : Q * Q) : Figure :=
  {| figsize := size; artists := []; title_ := None; xlabel := None;
     ylabel := None; xticks := None; grid := None; legend := None |}.

Definition draw (ax : Figure) (a : artist) : Figure :=
  {| figsize := figsize ax; artists := artists ax ++ [a];
     title_ := title_ ax; xlabel := xlabel ax; ylabel := ylabel ax;
     xticks := xticks ax; grid := grid ax; legend := legend ax |}.

Definition set_title (ax : Figure) (t : string) : Figure :=
  {| figsize := figsize ax; artists := artists ax; title_ := Some t;
     xlabel := xlabel ax; ylabel := ylabel ax; xticks := xticks ax;
     grid := grid ax; legend := legend ax |}.

Definition set_xlabel (ax : Figure) (t : string) : Figure :=
  {| figsize := figsize ax; artists := artists ax; title_ := title_ ax;
     xlabel := Some t; ylabel := ylabel ax; xticks := xticks ax;
     grid := grid ax; legend := legend ax |}.

Definition set_ylabel (ax : Figure) (t : string) : Figure :=
  {| figsize := figsize ax; artists := artists ax; title_ := title_ ax;
     xlabel := xlabel ax; ylabel := Some t; xticks := xticks ax;
     grid := grid ax; legend := legend ax |}.

Definition set_xticks (ax : Figure) (t : list Z) : Figure :=
  {| figsize := figsize ax; artists := artists ax; title_ := title_ ax;
     xlabel := xlabel ax; ylabel := ylabel ax; xticks := Some t;
     grid := grid ax; legend := legend ax |}.

Definition set_grid (ax : Figure) (g : bool * string * Q) : Figure :=
  {| figsize := figsize ax; artists := artists ax; title_ := title_ ax;
     xlabel := xlabel ax; ylabel := ylabel ax; xticks := xticks ax;
     grid := Some g; legend := legend ax |}.

Definition set_legend (ax : Figure) (loc : string) : Figure :=
  {| figsize := figsize ax; artists := artists ax; title_ := title_ ax;
     xlabel := xlabel ax; ylabel := ylabel ax; xticks := xticks ax;
     grid := grid ax; legend := Some loc |}.

Definition no_props : line_props :=
  {| marker := None; linewidth := None; linestyle := None; label := None;
     alpha := None |}.

(** ** Streamlit: the page as a log of calls; [st.stop] ends the run *)

Inductive st_arg : Type :=
  | AStr (s : string)
  | AList (l : list string).

Inductive event : Type :=
  | SetPageConfig (page_title layout : string)
  | Title (s : string)
  | Caption (s : string)
  | SidebarHeader (s : string)
  | SidebarSubheader (s : string)
  | SidebarSlider (label_ : string) (min_value max_value value step : Q)
  | Tabs (names : list string)
  | Columns (n : nat)
  | Subheader (s : string)
  | Write (args : list st_arg)
  | Markdown (s : string)
  | Success (s : string)
  | Error_ (s : string)
  | Pyplot (fig : Figure)
  | Dataframe (df : DataFrame) (use_container_width : bool).

(** A computation of the script: it appends to the log and returns a value
    or raises. *)
Definition App (A : Type) : Type := list event → result A * list event.

Global Instance App_bind : MBind App := λ A B k m log,
  match m log with
  | (Ok a, log') => k a log'
  | (Raise e, log') => (Raise e, log')
  end.

Global Instance App_ret : MRet App := λ A a log, (Ok a, log).

Definition emit (e : event) : App unit := λ log, (Ok (), log ++ [e]).
Definition lift {A} (r : result A) : App A := λ log, (r, log).
Definition st_stop {A} : App A := λ log, (Raise StopException, log).

(** ** The file system, as far as the script looks at it *)

Record Env : Type := mkEnv {
  script_path : string;                     (* os.path.abspath(__file__) *)
  path_exists : string → bool;              (* os.path.exists *)
  listdir : string → list string;           (* os.listdir *)
  read_csv : string → result DataFrame      (* pd.read_csv *)
}.

Module Path.
Definition is_sep (c : ascii) : bool := Ascii.eqb c "/".

(** [(p[:i], p[i:])] for [i = p.rfind("/") + 1] *)
Fixpoint cut (p : string) : string * string :=
  match p with
  | EmptyString => (EmptyString, EmptyString)
  | String c p' =>
      let '(h, t) := cut p' in
      match h with
      | String _ _ => (String c h, t)
      | EmptyString =>
          if is_sep c then (String c EmptyString, p')
          else (EmptyString, String c p')
      end
  end.

Fixpoint all_sep (s : string) : bool :=
  match s with
  | EmptyString => true
  | String c s' => is_sep c && all_sep s'
  end.

Fixpoint rstrip_sep (s : string) : string :=
  match s with
  | EmptyString => EmptyString
  | String c s' =>
      match rstrip_sep s' with
      | EmptyString => if is_sep c then EmptyString else String c EmptyString
      | r => String c r
      end
  end.

(** [posixpath.split] *)
Definition split (p : string) : string * string :=
  let '(h, t) := cut p in
  (if all_sep h then h else rstrip_sep h, t).

Definition dirname (p : string) : string := (split p).1.
Definition basename (p : string) : string := (split p).2.

Fixpoint ends_with_sep (s : string) : bool :=
  match s with
  | EmptyString => false
  | String c EmptyString => is_sep c
  | String _ s' => ends_with_sep s'
  end.

(** [posixpath.join(a, b)] *)
Definition join (a b : string) : string :=
  match b with
  | String c _ =>
      if is_sep c then b
      else if ends_with_sep a || bool_decide (a = EmptyString) then a +:+ b
      else a +:+ "/" +:+ b
  | EmptyString =>
      if ends_with_sep a || bool_decide (a = EmptyString) then a
      else a +:+ "/"
  end.
End Path.

(** ** The script *)

Section app.
Context `{PyBuiltins}.

(** *** Helpers *)

Definition clean_macro (df : DataFrame) (year_col value_col : string)
  : result DataFrame :=
  let df := copy df in
  y ← getitem df year_col;
  let df := setitem df year_col (to_numeric y) in
  v ← getitem df value_col;
  let df := setitem df value_col (to_numeric v) in
  df ← (if decide ("Type" ∈ columns df) then
          t ← getitem df "Type";
          Ok (setitem df "Type" (str_strip (astype_str t)))
        else Ok df);
  df ← dropna df [year_col; value_col];
  sort_values df year_col true.

Definition historical_props : line_props :=
  {| marker := Some "o"; linewidth := Some 2%Q; linestyle := None;
     label := Some "Historical"; alpha := None |}.

Definition forecast_props : line_props :=
  {| marker := Some "o"; linewidth := Some 2%Q; linestyle := Some "--";
     label := Some "Forecast (to 2030)"; alpha := None |}.

Definition connector_props : line_props :=
  {| marker := None; linewidth := Some 1%Q; linestyle := Some "--";
     label := None; alpha := Some 0.6%Q |}.

Definition band_props : line_props :=
  {| marker := None; linewidth := None; linestyle := None;
     label := Some "Expected Range"; alpha := Some 0.15%Q |}.

Definition center_props : line_props :=
  {| marker := None; linewidth := Some 1%Q; linestyle := Some "--";
     label := None; alpha := None |}.

(** Lines 43-48 of [plot_hist_forecast_band]: the historical and the
    forecast rows of a cleaned table. *)
Definition split_hist_fcst (df : DataFrame) : result (DataFrame * DataFrame) :=
  if decide ("Type" ∈ columns df) then
    t ← getitem df "Type";
    let hist := select df (eq_str "historical" <$> str_lower t) in
    t ← getitem df "Type";
    let fcst := select df (eq_str "forecast" <$> str_lower t) in
    Ok (hist, fcst)
  else Ok (df, {| columns := []; rows := [] |}).

Definition plot_hist_forecast_band (df : DataFrame)
    (year_col value_col title y_label : string) (band_center band_width : Q)
  : result Figure :=
  df ← clean_macro df year_col value_col;
  ' (hist, fcst) ← split_hist_fcst df;
  let ax := subplots (8.2, 4.2)%Q in
  let lower := (band_center - band_width / 2)%Q in
  let upper := (band_center + band_width / 2)%Q in
  let ax := draw ax (HSpan lower upper band_props) in
  let ax := draw ax (HLine band_center center_props) in
  ax ← (if negb (empty hist) then
          hy ← getitem hist year_col;
          hv ← getitem hist value_col;
          Ok (draw ax (Line hy hv historical_props))
        else Ok ax);
  ax ← (if negb (empty fcst) then
          fy ← getitem fcst year_col;
          fv ← getitem fcst value_col;
          let ax := draw ax (Line fy fv forecast_props) in
          if negb (empty hist) then
            hy ← getitem hist year_col;
            x0 ← iloc_last hy;
            fy ← getitem fcst year_col;
            x1 ← iloc_first fy;
            hv ← getitem hist value_col;
            y0 ← iloc_last hv;
            fv ← getitem fcst value_col;
            y1 ← iloc_first fv;
            Ok (draw ax (Line [x0; x1] [y0; y1] connector_props))
          else Ok ax
        else Ok ax);
  let ax := set_title ax title in
  let ax := set_xlabel ax "Year" in
  let ax := set_ylabel ax y_label in
  ys ← getitem df year_col;
  years ← astype_int ys;
  let ax := set_xticks ax years in
  let ax := set_grid ax (true, "y", 0.25%Q) in
  let ax := set_legend ax "upper right" in
  Ok ax.

(** *** Sector scorecard (tab 3) *)

Definition sector (name : string) (macro policy export : Z) (overall : Q)
  : Row :=
  {[ "Sector" := CStr name;
     "Macro Resilience" := CNum (Fin (inject_Z macro));
     "Policy Support" := CNum (Fin (inject_Z policy));
     "Export/Scale" := CNum (Fin (inject_Z export));
     "Overall" := CNum (Fin overall) ]}.

Definition scorecard_literal : DataFrame :=
  {| columns := ["Sector"; "Macro Resilience"; "Policy Support";
                 "Export/Scale"; "Overall"];
     rows :=
       [ (0, sector "Healthcare & Life Sciences (Health 2030)" 9 9 7 8.5);
         (1, sector ("Aerospace & D" +:+ String "233" "fense") 8 8 9 8.5);
         (2, sector "Luxury & High-End Tourism" 6 7 9 7.5);
         (3, sector "Agri-Food Tech" 8 8 7 7.8) ] |}.

Definition scorecard : result DataFrame :=
  sort_values scorecard_literal "Overall" false.

(** *** Loading ([BASE_DIR], [load_csv]) *)

Definition BASE_DIR (env : Env) : string := Path.dirname (script_path env).

Definition load_csv (env : Env) (filename : string) : App DataFrame :=
  let path := Path.join (BASE_DIR env) filename in
  if negb (path_exists env path) then
    _ ← emit (Error_ ("Missing file: " +:+ path));
    _ ← emit (Write [AStr "✅ Running from:"; AStr (BASE_DIR env)]);
    _ ← emit (Write [AStr "✅ Files available:";
                     AList (listdir env (BASE_DIR env))]);
    st_stop
  else lift (read_csv env path).

(** *** The page *)

(** Where the user has put the six sliders of the sidebar. *)
Record Controls : Type := mkControls {
  at_gdp_center : Q; at_gdp_width : Q;
  at_inf_center : Q; at_inf_width : Q;
  at_un_center : Q; at_un_width : Q
}.

(** [st.sidebar.slider(label, min_value, max_value, value, step)] returns
    the slider's current position. *)
Definition slider (label_ : string) (min_value max_value value step : Q)
    (current : Q) : App Q :=
  _ ← emit (SidebarSlider label_ min_value max_value value step);
  mret current.

Definition as_series (zs : list Z) : Series :=
  (λ z, CNum (Fin (inject_Z z))) <$> zs.

Definition lpi_chart (lpi_clean : DataFrame) : result Figure :=
  let ax := subplots (8.2, 4.2)%Q in
  y ← getitem lpi_clean "Year";
  years ← astype_int y;
  v ← getitem lpi_clean "LPI_Score";
  let ax := draw ax (Bar years v) in
  let ax := set_title ax "France – LPI Trend" in
  let ax := set_xlabel ax "Year" in
  let ax := set_ylabel ax "LPI Score" in
  Ok (set_grid ax (true, "y", 0.25%Q)).

Definition ftth_chart (ftth_clean : DataFrame) : result Figure :=
  let ax := subplots (8.2, 4.2)%Q in
  y ← getitem ftth_clean "Year";
  years ← astype_int y;
  v ← getitem ftth_clean "FTTH_Penetration_Percent";
  let ax := draw ax (Line (as_series years) v
                       {| marker := Some "o"; linewidth := Some 2%Q;
                          linestyle := None; label := None; alpha := None |}) in
  let ax := set_title ax "France – FTTH Trend" in
  let ax := set_xlabel ax "Year" in
  let ax := set_ylabel ax "%" in
  Ok (set_grid ax (true, "y", 0.25%Q)).

Definition main (env : Env) (ctl : Controls) : App unit :=
  _ ← emit (SetPageConfig "France Investor Pitch Dashboard" "wide");
  _ ← emit (Title "France – Investor Pitch Dashboard (Investor View)");
  _ ← emit (Caption "Built for PGDM (MEEB): Macro Trends → Competitiveness → Sector Bets → Risks & Policy Mitigation");
  gdp ← load_csv env "france_gdp.csv";
  inflation ← load_csv env "france_inflation.csv";
  unemp ← load_csv env "france_unemployment.csv";
  lpi ← load_csv env "france_lpi.csv";
  ftth ← load_csv env "france_ftth.csv";
  _ ← emit (SidebarHeader "Dashboard Controls");
  _ ← emit (SidebarSubheader "Expected Range Bands (Editable for Pitch)");
  gdp_center ← slider "GDP band center (%)" (-2.0) 4.0 0.5 0.1 (at_gdp_center ctl);
  gdp_width ← slider "GDP band width (%)" 0.2 6.0 1.2 0.1 (at_gdp_width ctl);
  inf_center ← slider "Inflation band center (%)" 0.0 10.0 2.0 0.1 (at_inf_center ctl);
  inf_width ← slider "Inflation band width (%)" 0.2 10.0 2.0 0.1 (at_inf_width ctl);
  un_center ← slider "Unemployment band center (%)" 3.0 12.0 7.2 0.1 (at_un_center ctl);
  un_width ← slider "Unemployment band width (%)" 0.2 8.0 1.5 0.1 (at_un_width ctl);
  _ ← emit (Tabs ["Macro Stability"; "Competitiveness";
                  "Sector Bets (Investor Pitch)"]);
  (* tab 1 *)
  _ ← emit (Subheader "Macro Stability (Investor Comfort Layer)");
  _ ← emit (Write [AStr "Investors first ask: **Is the macro environment stable enough to deploy capital?**"]);
  _ ← emit (Columns 3);
  fig ← lift (plot_hist_forecast_band gdp "Year" "GDP_Growth_Percent"
                "GDP Growth (Historical vs Forecast to 2030)" "%"
                gdp_center gdp_width);
  _ ← emit (Pyplot fig);
  fig ← lift (plot_hist_forecast_band inflation "Year" "Inflation_HICP_Percent"
                "Inflation (HICP) (Historical vs Forecast to 2030)" "%"
                inf_center inf_width);
  _ ← emit (Pyplot fig);
  fig ← lift (plot_hist_forecast_band unemp "Year" "Unemployment_Rate_Percent"
                "Unemployment Rate (Historical vs Forecast to 2030)" "%"
                un_center un_width);
  _ ← emit (Pyplot fig);
  _ ← emit (Success "Macro takeaway: France can be positioned as stability-over-volatility (lower risk premium).");
  (* tab 2 *)
  _ ← emit (Subheader "Competitiveness (Execution Capability)");
  _ ← emit (Write [AStr "Investors ask: **Can the country execute operations reliably?**"]);
  _ ← emit (Columns 2);
  _ ← emit (Markdown "### Logistics Performance Index (World Bank)");
  lpi_clean ← lift (clean_macro lpi "Year" "LPI_Score");
  fig ← lift (lpi_chart lpi_clean);
  _ ← emit (Pyplot fig);
  _ ← emit (Markdown "### FTTH Penetration (OECD)");
  ftth_clean ← lift (clean_macro ftth "Year" "FTTH_Penetration_Percent");
  fig ← lift (ftth_chart ftth_clean);
  _ ← emit (Pyplot fig);
  (* tab 3 *)
  _ ← emit (Subheader "Sector Bets (Investor Pitch)");
  _ ← emit (Write [AStr "Macro variables influence each sector differently. This section helps you pitch where to invest in France."]);
  sc ← lift scorecard;
  _ ← emit (Markdown "### Sector Opportunity Scorecard");
  _ ← emit (Dataframe sc true);
  _ ← emit (Markdown "### Pitch Cards (Macro → Opportunity → Risk → Policy Mitigation)");
  _ ← emit (Columns 2);
  _ ← emit (Markdown "#### Healthcare & Life Sciences (Health 2030)");
  _ ← emit (Markdown "
- **Macro link:** demand is stable even in slow growth; inflation affects costs; rates affect R&D capital  
- **Opportunity:** biotech, diagnostics, med-tech, digital health, ageing-care solutions  
- **Risks:** regulation, long approval cycles  
- **Policy support:** mission-driven ecosystem funding + healthcare demand anchor
");
  _ ← emit (Markdown "#### Aerospace & Défense");
  _ ← emit (Markdown "
- **Macro link:** export driven; long contracts; supply chain sensitive to inflation  
- **Opportunity:** avionics, dual-use tech, space systems, MRO recurring revenue  
- **Risks:** tender cycles, certification delays  
- **Policy support:** strategic autonomy & procurement demand stability
");
  _ ← emit (Markdown "#### Luxury & High-End Tourism");
  _ ← emit (Markdown "
- **Macro link:** global income cycles matter; pricing power helps inflation  
- **Opportunity:** premium experiences, hospitality, sustainable tourism, luxury retail  
- **Risks:** global shocks (travel), reputational risk  
- **Policy support:** infrastructure & destination investment; brand moat
");
  _ ← emit (Markdown "#### Agri-Food Tech");
  emit (Markdown "
- **Macro link:** input-cost inflation; rate-sensitive CAPEX; productivity focus matters  
- **Opportunity:** precision farming, climate-smart tech, automation, premium processing  
- **Risks:** climate volatility, commodity cycles  
- **Policy support:** sustainability and modernization incentives
").
End app.

(** * Notions used to state the results *)

(** ** Orders *)

(** A comparison in the manner of C++ [less]: a strict weak order. *)
Class StrictWeak {A} (less : A → A → bool) := {
  less_irrefl x : less x x = false;
  less_trans x y z : less x y = true → less y z = true → less x z = true;
  nless_trans x y z : less x y = false → less y z = false → less x z = false
}.

Definition le_of {A} (less : A → A → bool) (x y : A) : Prop := less y x = false.

(** ** Heaps *)

Definition parent (c : nat) : nat := (c - 1) / 2.

(** Every node below [n] whose parent is at or after [lo] is dominated by
    its parent. *)
Definition heap_from {A} (less : A → A → bool) (lo n : nat) (a : list A) : Prop :=
  ∀ c x y, 0 < c → c < n → lo ≤ parent c →
    a !! c = Some x → a !! parent c = Some y → le_of less x y.

(** ** The order on cells *)

Definition cell_le (a b : cell) : Prop := cell_leb a b = true.

(** Same key for sorting: neither is before the other. *)
Definition cell_eqv (a b : cell) : bool := cell_leb a b && cell_leb b a.

(** The comparison [argsort] makes between two positions of [v]. *)
Definition key_less (v : list cell) (i j : nat) : bool :=
  cell_lt (v !!! i) (v !!! j).

(** ** The cleaner, row by row *)

Section rowwise.
Context `{PyBuiltins}.

(** What lines 32-35 of [clean_macro] do to one row. *)
Definition coerce_row (year_col value_col : string) (has_type : bool)
    (r : Row) : Row :=
  let r := <[year_col := to_numeric1 (cell_at year_col r)]> r in
  let r := <[value_col := to_numeric1 (cell_at value_col r)]> r in
  if has_type
  then <["Type" := str_map Py.strip (astype_str1 (cell_at "Type" r))]> r
  else r.

(** The rows that [dropna] keeps. *)
Definition complete (year_col value_col : string) (r : Row) : bool :=
  notna (cell_at year_col r) && notna (cell_at value_col r).

(** The table of [clean_macro] just before it is sorted. *)
Definition before_sort (df : DataFrame) (year_col value_col : string)
  : DataFrame :=
  {| columns := columns df;
     rows :=
       filter (λ r, complete year_col value_col r.2 = true)
         ((λ r, (r.1, coerce_row year_col value_col
                        (bool_decide ("Type" ∈ columns df)) r.2))
            <$> rows df) |}.

Definition year_keys (df : DataFrame) (year_col : string) : Series :=
  cell_at year_col ∘ snd <$> rows df.

(** Rows in ascending order of their year. *)
Definition sorted_by (year_col : string) (rs : list (nat * Row)) : Prop :=
  StronglySorted (λ r1 r2, cell_le (cell_at year_col r1.2) (cell_at year_col r2.2))
    rs.
End rowwise.

(** ** Statements about the cleaner *)

Section cleaner_props.
Context `{PyBuiltins}.

(** Every row that [clean_macro] returns stems from a row of the input
    whose year and value cells could be coerced, and carries the two
    numbers. *)
Definition drops_uncoerced (df : DataFrame) (year_col value_col : string)
  : Prop :=
  ∀ out ir, clean_macro df year_col value_col = Ok out → ir ∈ rows out →
    ∃ r0 x y, (ir.1, r0) ∈ rows df ∧
      to_numeric1 (cell_at year_col r0) = CNum x ∧
      to_numeric1 (cell_at value_col r0) = CNum y ∧
      cell_at year_col ir.2 = CNum x ∧ cell_at value_col ir.2 = CNum y.

(** The rows of one year come out in the order in which they came in. *)
Definition stable_clean (df : DataFrame) (year_col value_col : string)
  : Prop :=
  ∀ out k, clean_macro df year_col value_col = Ok out →
    filter (λ ir, cell_eqv (cell_at year_col ir.2) k = true) (rows out)
    = filter (λ ir, cell_eqv (cell_at year_col ir.2) k = true)
        (rows (before_sort df year_col value_col)).

(** No two rows have the same year. *)
Definition distinct_years (year_col : string) (rs : list (nat * Row)) : Prop :=
  ∀ i j ri rj, i < j → rs !! i = Some ri → rs !! j = Some rj →
    cell_eqv (cell_at year_col ri.2) (cell_at year_col rj.2) = false.
End cleaner_props.

(** ** Tables and an instance to run examples with *)

(** A table given by its header and its labelled lines. *)
Definition labelled (header : list string) (lines : list (nat * list cell))
  : DataFrame :=
  {| columns := header;
     rows := (λ il, (il.1, list_to_map (zip header il.2))) <$> lines |}.

(** A table as [read_csv] returns it: the lines are labelled from 0. *)
Definition frame (header : list string) (lines : list (list cell)) : DataFrame :=
  labelled header (imap pair lines).

(** Integral values print like Python floats; the examples need no other
    value, which prints as a quotient. *)
Definition sample_builtins : PyBuiltins :=
  {| num_repr := λ x,
       match x with
       | NegInf => "-inf"
       | PosInf => "inf"
       | Fin q =>
           let n := NilZero.string_of_int (Z.to_int (Qnum q)) in
           if (Qden q =? 1)%positive then n +:+ ".0"
           else n +:+ "/" +:+ NilZero.string_of_int (Z.to_int (Zpos (Qden q)))
       end;
     int_of_str := λ s, Z.of_int <$> NilZero.int_of_string (Py.strip s) |}.

Definition scenario : DataFrame :=
  frame ["Year"; "Value"; "Type"]
    [ [CNum (Fin 2021); CStr "2.3"; CStr "Historical"];
      [CNum (Fin 2022); CStr "bad"; CStr "Historical"];
      [CNum (Fin 2023); CStr "1.1"; CStr "Forecast"] ].

Definition scenario_cleaned : DataFrame :=
  labelled ["Year"; "Value"; "Type"]
    [ (0, [CNum (Fin 2021); CNum (Fin 2.3); CStr "Historical"]);
      (2, [CNum (Fin 2023); CNum (Fin 1.1); CStr "Forecast"]) ].

(** The label column passed as the year column. *)
Definition label_as_year : DataFrame :=
  frame ["Type"; "Value"] [ [CStr "Historical"; CNum (Fin 1)] ].

(** Eighteen rows of the same year. *)
Definition same_year_18 : DataFrame :=
  frame ["Year"; "Value"]
    ((λ v, [CNum (Fin 2020); CNum (Fin (inject_Z v))]) <$> seqZ 1 18).

(** Two rows of one year after a row of a later year. *)
Definition tie_3 : DataFrame :=
  frame ["Year"; "Value"]
    [ [CNum (Fin 2021); CStr "3.0"];
      [CNum (Fin 2020); CStr "1.0"];
      [CNum (Fin 2020); CStr "2.0"] ].

(** ** Statements about the chart *)

Global Instance Q_eq_dec : EqDecision Q.
Proof. solve_decision. Defined.

Global Instance line_props_eq_dec : EqDecision line_props.
Proof. solve_decision. Defined.

Section chart_props.
Context `{PyBuiltins}.

(** A cleaned row whose label reads [text] when put in lower case. *)
Definition labelled_as (text : string) (ir : nat * Row) : bool :=
  eq_str text (str_map Py.lower (cell_at "Type" ir.2)).

Definition historical_rows (cleaned : DataFrame) : list (nat * Row) :=
  if decide ("Type" ∈ columns cleaned)
  then filter (λ ir, labelled_as "historical" ir = true) (rows cleaned)
  else rows cleaned.

Definition forecast_rows (cleaned : DataFrame) : list (nat * Row) :=
  if decide ("Type" ∈ columns cleaned)
  then filter (λ ir, labelled_as "forecast" ir = true) (rows cleaned)
  else [].

Definition column_of (c : string) (rs : list (nat * Row)) : Series :=
  cell_at c ∘ snd <$> rs.

(** The dashed segment from the last historical to the first forecast
    point. *)
Definition connector (year_col value_col : string) (h f : nat * Row)
  : artist :=
  Line [cell_at year_col h.2; cell_at year_col f.2]
       [cell_at value_col h.2; cell_at value_col f.2] connector_props.

(** What the chart of a cleaned table shows, in drawing order. *)
Definition drawn (cleaned : DataFrame) (year_col value_col : string)
    (band_center band_width : Q) : list artist :=
  let hist := historical_rows cleaned in
  let fcst := forecast_rows cleaned in
  [ HSpan (band_center - band_width / 2) (band_center + band_width / 2)
      band_props;
    HLine band_center center_props ]
  ++ match hist with
     | [] => []
     | _ :: _ =>
         [Line (column_of year_col hist) (column_of value_col hist)
            historical_props]
     end
  ++ match fcst with
     | [] => []
     | f :: _ =>
         Line (column_of year_col fcst) (column_of value_col fcst)
           forecast_props
         :: match last hist with
            | Some h => [connector year_col value_col h f]
            | None => []
            end
     end.

(** The figure that [plot_hist_forecast_band] builds from the cleaned
    table and the integer years. *)
Definition figure_of (cleaned : DataFrame)
    (year_col value_col title y_label : string) (band_center band_width : Q)
    (years : list Z) : Figure :=
  {| figsize := (8.2, 4.2)%Q;
     artists := drawn cleaned year_col value_col band_center band_width;
     title_ := Some title;
     xlabel := Some "Year";
     ylabel := Some y_label;
     xticks := Some years;
     grid := Some (true, "y", 0.25%Q);
     legend := Some "upper right" |}.

Definition is_connector (a : artist) : bool :=
  match a with
  | Line _ _ p => bool_decide (p = connector_props)
  | _ => false
  end.
End chart_props.

(** ** More tables for examples *)

(** Labels in mixed case and with blanks around them. *)
Definition spaced_labels : DataFrame :=
  frame ["Year"; "Value"; "Type"]
    [ [CNum (Fin 2021); CStr "2.3"; CStr "Historical"];
      [CNum (Fin 2023); CStr "1.1"; CStr " Forecast "];
      [CNum (Fin 2024); CStr "1.4"; CStr "estimate"] ].

(** A row without a label. *)
Definition missing_label : DataFrame :=
  frame ["Year"; "Value"; "Type"]
    [ [CNum (Fin 2021); CStr "2.3"; CStr "Historical"];
      [CNum (Fin 2022); CStr "1.9"; CNaN] ].

(** No row has a number in the value column. *)
Definition nothing_usable : DataFrame :=
  frame ["Year"; "Value"; "Type"]
    [ [CNum (Fin 2021); CStr "n/a"; CStr "Historical"];
      [CNum (Fin 2022); CStr "bad"; CStr "Forecast"] ].

(** A directory that holds the script and one data file. *)
Definition sample_env : Env :=
  {| script_path := "/srv/app/app.py";
     path_exists := λ p,
       bool_decide (p ∈ ["/srv/app/app.py"; "/srv/app/france_gdp.csv"; "/srv/app"; "/srv"; "/"]);
     listdir := λ d,
       if bool_decide (d = "/srv/app") then ["app.py"; "france_gdp.csv"] else [];
     read_csv := λ p,
       if bool_decide (p = "/srv/app/france_gdp.csv") then Ok scenario
       else Raise (IOError p) |}.

(** The second line of [spaced_labels]. *)
Definition spaced_labels_row : Row :=
  list_to_map (zip ["Year"; "Value"; "Type"]
                 [CNum (Fin 2023); CStr "1.1"; CStr " Forecast "]).

(** The second line of [missing_label]. *)
Definition missing_label_row : Row :=
  list_to_map (zip ["Year"; "Value"; "Type"]
                 [CNum (Fin 2022); CStr "1.9"; CNaN]).

(** The two rows of [scenario_cleaned]. *)
Definition scenario_historical : nat * Row :=
  (0, list_to_map (zip ["Year"; "Value"; "Type"]
                     [CNum (Fin 2021); CNum (Fin 2.3); CStr "Historical"])).

Definition scenario_forecast : nat * Row :=
  (2, list_to_map (zip ["Year"; "Value"; "Type"]
                     [CNum (Fin 2023); CNum (Fin 1.1); CStr "Forecast"])).

(** * Notions used to state further results *)

(** ** Cells *)

(** A number that is neither infinite nor missing. *)
Definition finite_cell (c : cell) : bool :=
  match c with CNum (Fin _) => true | _ => false end.

(** The integer that [astype(int)] makes of a finite number: the fraction
    is cut off. *)
Definition year_of (c : cell) : Z :=
  match c with
  | CNum (Fin q) => Z.quot (Qnum q) (Zpos (Qden q))
  | _ => 0
  end.

(** A row whose year and value can both be coerced. *)
Definition usable `{PyBuiltins} (year_col value_col : string) (r : Row) : bool :=
  notna (to_numeric1 (cell_at year_col r))
  && notna (to_numeric1 (cell_at value_col r)).

(** Text without white space at either end. *)
Definition trimmed (t : string) : Prop := Py.lstrip t = t ∧ Py.rstrip t = t.

(** ** File names *)

(** A name without directory part. *)
Fixpoint slash_free (s : string) : bool :=
  match s with
  | EmptyString => true
  | String c s' => negb (Path.is_sep c) && slash_free s'
  end.

(** The five data files, in the order in which the script loads them. *)
Definition data_files : list string :=
  [ "france_gdp.csv"; "france_inflation.csv"; "france_unemployment.csv";
    "france_lpi.csv"; "france_ftth.csv" ].

(** What [load_csv] reports when [path] is missing. *)
Definition missing_report (env : Env) (path : string) : list event :=
  [ Error_ ("Missing file: " +:+ path);
    Write [AStr "✅ Running from:"; AStr (BASE_DIR env)];
    Write [AStr "✅ Files available:"; AList (listdir env (BASE_DIR env))] ].

(** The three calls that open the page. *)
Definition page_head : list event :=
  [ SetPageConfig "France Investor Pitch Dashboard" "wide";
    Title "France – Investor Pitch Dashboard (Investor View)";
    Caption "Built for PGDM (MEEB): Macro Trends → Competitiveness → Sector Bets → Risks & Policy Mitigation" ].

(** ** The log of a run *)

Definition is_error (e : event) : bool :=
  match e with Error_ _ => true | _ => false end.

Definition figure_shown (e : event) : option Figure :=
  match e with Pyplot fig => Some fig | _ => None end.

(** The figures that were passed to [st.pyplot], in order. *)
Definition figures (log : list event) : list Figure := omap figure_shown log.

Definition slider_shown (e : event) : option string :=
  match e with SidebarSlider l _ _ _ _ => Some l | _ => None end.

(** No call of [st.error] in the log. *)
Definition no_error_shown (log : list event) : Prop :=
  Forall (λ e, is_error e = false) log.

(** A computation that adds no call of [st.error]. *)
Definition quiet {A} (m : App A) : Prop :=
  ∀ log, no_error_shown log → no_error_shown (m log).2.

(** All five data files are in the folder of the script. *)
Definition all_present (env : Env) : Prop :=
  Forall (λ f, path_exists env (Path.join (BASE_DIR env) f) = true) data_files.

(** ** A directory with all five data files *)

Definition gdp_table : DataFrame :=
  frame ["Year"; "GDP_Growth_Percent"; "Type"]
    [ [CNum (Fin 2023); CNum (Fin 0.9); CStr "Historical"];
      [CNum (Fin 2024); CNum (Fin 1.1); CStr "Historical"];
      [CNum (Fin 2025); CNum (Fin 1.3); CStr "Forecast"] ].

Definition inflation_table : DataFrame :=
  frame ["Year"; "Inflation_HICP_Percent"; "Type"]
    [ [CNum (Fin 2023); CNum (Fin 5.7); CStr "Historical"];
      [CNum (Fin 2025); CNum (Fin 2.0); CStr "Forecast"] ].

Definition unemployment_table : DataFrame :=
  frame ["Year"; "Unemployment_Rate_Percent"; "Type"]
    [ [CNum (Fin 2023); CNum (Fin 7.3); CStr "Historical"];
      [CNum (Fin 2025); CNum (Fin 7.4); CStr "Forecast"] ].

Definition lpi_table : DataFrame :=
  frame ["Year"; "LPI_Score"]
    [ [CNum (Fin 2023); CNum (Fin 3.9)];
      [CNum (Fin 2018); CNum (Fin 3.84)];
      [CStr "n/a"; CNum (Fin 3.7)] ].

Definition ftth_table : DataFrame :=
  frame ["Year"; "FTTH_Penetration_Percent"]
    [ [CNum (Fin 2020); CNum (Fin 25)];
      [CNum (Fin 2023); CStr "48.7"] ].

Definition page_env : Env :=
  {| script_path := "/srv/app/app.py";
     path_exists := λ p,
       bool_decide (p ∈ "/srv/app/app.py" :: ((λ f, "/srv/app/" +:+ f) <$> data_files));
     listdir := λ d,
       if bool_decide (d = "/srv/app") then "app.py" :: data_files else [];
     read_csv := λ p,
       if bool_decide (p = "/srv/app/france_gdp.csv") then Ok gdp_table
       else if bool_decide (p = "/srv/app/france_inflation.csv") then Ok inflation_table
       else if bool_decide (p = "/srv/app/france_unemployment.csv") then Ok unemployment_table
       else if bool_decide (p = "/srv/app/france_lpi.csv") then Ok lpi_table
       else if bool_decide (p = "/srv/app/france_ftth.csv") then Ok ftth_table
       else Raise (IOError p) |}.

(** The sliders left where the script puts them at first. *)
Definition default_controls : Controls :=
  {| at_gdp_center := 0.5; at_gdp_width := 1.2;
     at_inf_center := 2.0; at_inf_width := 2.0;
     at_un_center := 7.2; at_un_width := 1.5 |}.

(** A table without the value column that is asked for. *)
Definition no_value_column : DataFrame :=
  frame ["Year"; "Type"] [ [CNum (Fin 2021); CStr "Historical"] ].

(** A year that is written "inf". *)
Definition endless_year : DataFrame :=
  frame ["Year"; "Value"; "Type"]
    [ [CNum (Fin 2021); CNum (Fin 2.3); CStr "Historical"];
      [CStr "inf"; CNum (Fin 1.1); CStr "Forecast"] ].

(** A table without label column, the years out of order. *)
Definition unlabelled : DataFrame :=
  frame ["Year"; "Value"; "Note"]
    [ [CNum (Fin 2023); CStr "1.1"; CStr " kept as is "];
      [CNum (Fin 2021); CStr "2.3"; CNaN];
      [CStr "?"; CStr "0.4"; CStr "dropped"] ].

(** * Sorting

    [aquicksort] returns a sorted permutation of its input whatever the
    strict weak order; on at most 17 elements it is the insertion sort, which
    keeps equal elements in their order. *)

(** ** Strict weak orders and swaps *)

Section order.
Context {A : Type} (less : A → A → bool) `{!StrictWeak less}.

Lemma less_asym x y : less x y = true → less y x = false.
Proof.
  intros Hxy. destruct (less y x) eqn:Hyx; [|done].
  by rewrite <-(less_irrefl x), <-(less_trans x y x Hxy Hyx).
Qed.

Global Instance le_of_trans : Transitive (le_of less).
Proof. intros x y z Hxy Hyz. unfold le_of in *. by eapply nless_trans. Qed.

Global Instance le_of_refl : Reflexive (le_of less).
Proof. intros x. apply less_irrefl. Qed.

Global Instance le_of_total : Total (le_of less).
Proof.
  intros x y. unfold le_of. destruct (less y x) eqn:Hyx; [|by left].
  right. by apply less_asym.
Qed.

Lemma less_le x y : less x y = true → le_of less x y.
Proof. apply less_asym. Qed.
End order.

Section perm.
Context {A : Type}.
Implicit Types a : list A.

Lemma insert_cons_perm a j x y :
  a !! j = Some y → y :: <[j:=x]> a ≡ₚ x :: a.
Proof.
  intros Hj. rewrite insert_take_drop by eauto using lookup_lt_Some.
  rewrite <-(take_drop_middle a j y Hj) at 3.
  rewrite <-!Permutation_middle. apply perm_swap.
Qed.

Lemma insert_insert_perm a i j x y :
  a !! i = Some x → a !! j = Some y → <[i:=y]> (<[j:=x]> a) ≡ₚ a.
Proof.
  intros Hi Hj. destruct (decide (i = j)) as [->|Hne].
  - rewrite list_insert_insert_eq. rewrite list_insert_id; [done|congruence].
  - apply (Permutation_cons_inv (a:=x)).
    rewrite insert_cons_perm by (by rewrite list_lookup_insert_ne).
    by apply insert_cons_perm.
Qed.

Lemma swap_perm i j a : swap i j a ≡ₚ a.
Proof.
  unfold swap. destruct (a !! i) eqn:Hi, (a !! j) eqn:Hj; try done.
  by apply insert_insert_perm.
Qed.

Lemma swap_length i j a : length (swap i j a) = length a.
Proof.
  unfold swap. destruct (a !! i), (a !! j); try done.
  by rewrite !length_insert.
Qed.

Lemma swap_lookup i j a k :
  i < length a → j < length a →
  swap i j a !! k =
    if decide (k = i) then a !! j else if decide (k = j) then a !! i else a !! k.
Proof.
  intros Hi Hj. unfold swap.
  destruct (lookup_lt_is_Some_2 a i Hi) as [x Hx].
  destruct (lookup_lt_is_Some_2 a j Hj) as [y Hy]. rewrite Hx, Hy.
  repeat case_decide; subst.
  - by rewrite list_lookup_insert_eq by (by rewrite length_insert).
  - rewrite list_lookup_insert_ne by done.
    by rewrite list_lookup_insert_eq.
  - by rewrite !list_lookup_insert_ne.
Qed.

Lemma swap_lookup_other i j a k : k ≠ i → k ≠ j → swap i j a !! k = a !! k.
Proof.
  intros. unfold swap. destruct (a !! i), (a !! j); try done.
  by rewrite !list_lookup_insert_ne.
Qed.
End perm.

(** ** Insertion sort *)

Section insertion.
Context {A : Type} (less : A → A → bool).
Implicit Types a rp : list A.

Lemma shift_in_perm x rp : shift_in less x rp ≡ₚ x :: rp.
Proof.
  induction rp as [|y rp IH]; simpl; [done|].
  destruct (less x y); [|done]. rewrite IH. apply perm_swap.
Qed.

Lemma foldl_shift_in_perm a rp :
  foldl (λ rp x, shift_in less x rp) rp a ≡ₚ a ++ rp.
Proof.
  revert rp. induction a as [|x a IH]; intros rp; simpl; [done|].
  rewrite IH, shift_in_perm. by rewrite Permutation_middle.
Qed.

Lemma insertion_perm a : insertion less a ≡ₚ a.
Proof.
  unfold insertion. rewrite reverse_Permutation, foldl_shift_in_perm.
  by rewrite app_nil_r.
Qed.

Lemma shift_in_filter (P : A → bool) x rp :
  (∀ y z, P y = true → P z = true → less y z = false) →
  filter P (shift_in less x rp) = filter P (x :: rp).
Proof.
  intros HP. induction rp as [|y rp IH]; simpl; [done|].
  destruct (less x y) eqn:Hxy; [|done].
  rewrite filter_cons, IH, !filter_cons.
  destruct (decide (P y)) as [Hy|Hy], (decide (P x)) as [Hx|Hx]; try done.
  apply Is_true_true in Hx, Hy. by rewrite (HP x y Hx Hy) in Hxy.
Qed.

Lemma foldl_shift_in_filter (P : A → bool) a rp :
  (∀ y z, P y = true → P z = true → less y z = false) →
  filter P (foldl (λ rp x, shift_in less x rp) rp a)
  = reverse (filter P a) ++ filter P rp.
Proof.
  intros HP. revert rp. induction a as [|x a IH]; intros rp; simpl; [done|].
  rewrite IH, shift_in_filter by done. rewrite !filter_cons.
  destruct (decide (P x)); [|done].
  by rewrite reverse_cons, <-app_assoc.
Qed.

(** Insertion sort is stable: elements that are pairwise not [less] than
    each other keep their order. *)
Lemma insertion_filter (P : A → bool) a :
  (∀ y z, P y = true → P z = true → less y z = false) →
  filter P (insertion less a) = filter P a.
Proof.
  intros HP. unfold insertion.
  rewrite filter_reverse, foldl_shift_in_filter by done. simpl.
  by rewrite app_nil_r, reverse_involutive.
Qed.

Context `{!StrictWeak less}.
Local Abbreviation le := (le_of less).

Lemma shift_in_sorted x rp :
  StronglySorted (flip le) rp → StronglySorted (flip le) (shift_in less x rp).
Proof.
  induction 1 as [|y rp Hs IH Hy]; simpl.
  { repeat constructor. }
  destruct (less x y) eqn:Hxy.
  - constructor; [done|]. rewrite shift_in_perm. constructor; [|done].
    by apply less_le.
  - constructor; [by constructor|]. constructor; [done|].
    eapply Forall_impl; [done|]. intros z Hz. simpl in *.
    by trans y.
Qed.

Lemma foldl_shift_in_sorted a rp :
  StronglySorted (flip le) rp →
  StronglySorted (flip le) (foldl (λ rp x, shift_in less x rp) rp a).
Proof.
  revert rp. induction a as [|x a IH]; intros rp Hrp; simpl; [done|].
  by apply IH, shift_in_sorted.
Qed.

Lemma StronglySorted_reverse_flip (R : relation A) l :
  StronglySorted (flip R) l → StronglySorted R (reverse l).
Proof.
  induction 1 as [|x l Hs IH Hx]; [constructor|].
  rewrite reverse_cons. apply StronglySorted_app_2; [|done|repeat constructor].
  intros x1 x2 Hx1 ->%list_elem_of_singleton.
  rewrite Forall_forall in Hx. apply Hx. by apply elem_of_reverse.
Qed.

Lemma insertion_sorted a : StronglySorted le (insertion less a).
Proof.
  apply StronglySorted_reverse_flip, foldl_shift_in_sorted. constructor.
Qed.

Lemma foldl_shift_in_id a rp :
  StronglySorted le (reverse rp ++ a) →
  foldl (λ rp x, shift_in less x rp) rp a = reverse a ++ rp.
Proof.
  revert rp. induction a as [|x a IH]; intros rp Hs; simpl; [done|].
  assert (shift_in less x rp = x :: rp) as ->.
  { destruct rp as [|y rp]; simpl; [done|].
    assert (le y x) as Hyx.
    { eapply (StronglySorted_app_1_elem_of _ _ _ y x Hs).
      - rewrite reverse_cons. set_solver.
      - set_solver. }
    unfold le_of in Hyx. by rewrite Hyx. }
  rewrite IH.
  - by rewrite reverse_cons, <-app_assoc.
  - by rewrite reverse_cons, <-app_assoc.
Qed.

(** Already sorted input is left as it is. *)
Lemma insertion_id a : StronglySorted le a → insertion less a = a.
Proof.
  intros Hs. unfold insertion. rewrite foldl_shift_in_id by done.
  by rewrite app_nil_r, reverse_involutive.
Qed.
End insertion.

(** ** Heapsort: the result is a permutation *)

Section heapsort_perm.
Context {A : Type} (less : A → A → bool).
Implicit Types a : list A.

Lemma sift_S fuel a tmp i n :
  sift less (S fuel) a tmp i n =
    if 2 * i + 1 <? n then
      let j := larger_child less a (2 * i + 1) n in
      match a !! j with
      | Some c =>
          if less tmp c then sift less fuel (<[i:=c]> a) tmp j n
          else <[i:=tmp]> a
      | None => <[i:=tmp]> a
      end
    else <[i:=tmp]> a.
Proof. done. Qed.

Lemma larger_child_cases a j n :
  larger_child less a j n = j ∨
  (larger_child less a j n = j + 1 ∧ j + 1 < n).
Proof.
  unfold larger_child. destruct (a !! j), (a !! (j + 1)); auto.
  destruct (j + 1 <? n) eqn:Hn; simpl; auto.
  destruct (less _ _); auto. right. split; [done|]. by apply Nat.ltb_lt.
Qed.

Lemma sift_length fuel a tmp i n : length (sift less fuel a tmp i n) = length a.
Proof.
  revert a i. induction fuel as [|fuel IH]; intros a i.
  { apply length_insert. }
  rewrite sift_S. cbv zeta.
  repeat case_match; rewrite ?IH, ?length_insert; done.
Qed.

Lemma sift_perm fuel a tmp i n :
  i < length a → sift less fuel a tmp i n ≡ₚ <[i:=tmp]> a.
Proof.
  revert a i. induction fuel as [|fuel IH]; intros a i Hi; [simpl; reflexivity|].
  rewrite sift_S. destruct (2 * i + 1 <? n); [|done].
  pose proof (larger_child_cases a (2 * i + 1) n) as Hj. cbv zeta.
  set (j := larger_child less a (2 * i + 1) n) in *.
  destruct (a !! j) as [c|] eqn:Hc; [|done].
  destruct (less tmp c); [|done].
  assert (j ≠ i) by lia.
  rewrite IH by (rewrite length_insert; eauto using lookup_lt_Some).
  assert (<[j:=tmp]> (<[i:=c]> a) = <[i:=c]> (<[j:=tmp]> (<[i:=tmp]> a)))
    as ->.
  { rewrite (list_insert_insert_ne _ i j) by done.
    by rewrite list_insert_insert_eq. }
  apply insert_insert_perm.
  - by apply list_lookup_insert_eq.
  - by rewrite list_lookup_insert_ne.
Qed.

Lemma sift_lookup_ge fuel a tmp i n k :
  i < n → n ≤ k → sift less fuel a tmp i n !! k = a !! k.
Proof.
  revert a i. induction fuel as [|fuel IH]; intros a i Hi Hk.
  { simpl. rewrite list_lookup_insert_ne; [done|lia]. }
  rewrite sift_S.
  destruct (2 * i + 1 <? n) eqn:Hlt;
    [|rewrite list_lookup_insert_ne; [done|lia]].
  apply Nat.ltb_lt in Hlt.
  pose proof (larger_child_cases a (2 * i + 1) n) as Hj. cbv zeta.
  set (j := larger_child less a (2 * i + 1) n) in *.
  destruct (a !! j) as [c|] eqn:Hc;
    [|rewrite list_lookup_insert_ne; [done|lia]].
  destruct (less tmp c); [|rewrite list_lookup_insert_ne; [done|lia]].
  rewrite IH by lia. rewrite list_lookup_insert_ne; [done|lia].
Qed.

Lemma heapify_length l n a : length (heapify less l n a) = length a.
Proof.
  revert a. induction l as [|l IH]; intros a; simpl; [done|].
  rewrite IH. destruct (a !! l); [|done]. by rewrite sift_length.
Qed.

Lemma heapify_perm l n a : heapify less l n a ≡ₚ a.
Proof.
  revert a. induction l as [|l IH]; intros a; simpl; [done|].
  rewrite IH. destruct (a !! l) as [tmp|] eqn:Hl; [|done].
  rewrite sift_perm by eauto using lookup_lt_Some.
  by rewrite list_insert_id.
Qed.

Lemma extract_length n a : length (extract less n a) = length a.
Proof.
  revert a. induction n as [|n IH]; intros a; simpl; [done|].
  destruct n; [done|].
  destruct (a !! S n), (a !! 0); try done.
  by rewrite IH, sift_length, length_insert.
Qed.

Lemma extract_perm n a : extract less n a ≡ₚ a.
Proof.
  revert a. induction n as [|n IH]; intros a; simpl; [done|].
  destruct n; [done|].
  destruct (a !! S n) as [tmp|] eqn:Hn, (a !! 0) as [top|] eqn:H0; try done.
  rewrite IH.
  rewrite sift_perm by (rewrite length_insert; eauto using lookup_lt_Some).
  by apply insert_insert_perm.
Qed.

Lemma aheapsort_perm a : aheapsort less a ≡ₚ a.
Proof. unfold aheapsort. by rewrite extract_perm, heapify_perm. Qed.

Lemma aheapsort_length a : length (aheapsort less a) = length a.
Proof. unfold aheapsort. by rewrite extract_length, heapify_length. Qed.
End heapsort_perm.

(** ** Heapsort: the result is sorted *)

Section heapsort_sorted.
Context {A : Type} (less : A → A → bool) `{!StrictWeak less}.
Implicit Types a : list A.
Local Abbreviation le := (le_of less).

Lemma larger_child_le a j n c x y :
  (c = j ∨ c = j + 1) → c < n →
  a !! c = Some x → a !! larger_child less a j n = Some y → le x y.
Proof.
  unfold larger_child. intros Hc Hn Hx.
  destruct (a !! j) as [xj|] eqn:Hj, (a !! (j + 1)) as [xj1|] eqn:Hj1.
  - destruct (j + 1 <? n) eqn:Hlt; simpl.
    + destruct (less xj xj1) eqn:Hless; intros Hy.
      * destruct Hc as [-> | ->]; simplify_eq; [by apply less_le|done].
      * destruct Hc as [-> | ->]; simplify_eq; done.
    + apply Nat.ltb_ge in Hlt. intros Hy.
      destruct Hc as [-> | ->]; [|lia]. by simplify_eq.
  - intros Hy. destruct Hc as [-> | ->]; simplify_eq. done.
  - intros Hy. destruct Hc as [-> | ->]; simplify_eq.
  - intros Hy. destruct Hc as [-> | ->]; simplify_eq.
Qed.

Lemma sift_heap fuel a tmp i n lo :
  n ≤ length a → i < n → lo ≤ i → n - i ≤ fuel →
  (∀ c x y, 0 < c → c < n → lo ≤ parent c → c ≠ i → parent c ≠ i →
     a !! c = Some x → a !! parent c = Some y → le x y) →
  (∀ c x y, 0 < i → lo ≤ parent i → 0 < c → parent c = i → c < n →
     a !! c = Some x → a !! parent i = Some y → le x y) →
  (∀ y, 0 < i → lo ≤ parent i → a !! parent i = Some y → le tmp y) →
  heap_from less lo n (sift less fuel a tmp i n).
Proof.
  revert a i. induction fuel as [|fuel IH]; intros a i Hn Hi Hlo Hfuel H1 H2 H3;
    [lia|].
  rewrite sift_S.
  assert (∀ b, (∀ c x, 0 < c → parent c = i → c < n → b !! c = Some x → le x tmp) →
               (∀ k, k ≠ i → b !! k = a !! k) → b !! i = Some tmp →
               heap_from less lo n b) as Hplace.
  { intros b Hch Hb Hbi c x y Hc0 Hcn Hcl Hx Hy.
    destruct (decide (c = i)) as [->|Hci].
    - rewrite Hb in Hy by (unfold parent; lia). simplify_eq. by apply H3.
    - destruct (decide (parent c = i)) as [Hpi|Hpi].
      + rewrite Hpi in Hy. simplify_eq. by eapply Hch.
      + rewrite Hb in Hx, Hy by done. by eapply (H1 c). }
  assert (<[i:=tmp]> a !! i = Some tmp) as Hii
    by (apply list_lookup_insert_eq; lia).
  destruct (2 * i + 1 <? n) eqn:Hlt.
  2:{ apply Nat.ltb_ge in Hlt. apply Hplace; [|intros; by apply list_lookup_insert_ne|done].
      intros c x ? Hp ?. unfold parent in Hp. lia. }
  apply Nat.ltb_lt in Hlt. cbv zeta.
  pose proof (larger_child_cases less a (2 * i + 1) n) as Hj.
  pose proof (larger_child_le a (2 * i + 1) n) as Hjle.
  set (j := larger_child less a (2 * i + 1) n) in *.
  assert (j < n ∧ i < j ∧ parent j = i) as (Hjn & Hij & Hpj)
    by (unfold parent; lia).
  destruct (a !! j) as [cj|] eqn:Hcj.
  2:{ apply lookup_ge_None in Hcj. lia. }
  assert (∀ c x, 0 < c → parent c = i → c < n → a !! c = Some x → le x cj)
    as Hsib.
  { intros c x ? Hp ? Hx. eapply (Hjle c); [|done..]. unfold parent in Hp. lia. }
  destruct (less tmp cj) eqn:Hless.
  - apply IH.
    + by rewrite length_insert.
    + done.
    + lia.
    + lia.
    + intros c x y Hc0 Hcn Hcl Hcj' Hpcj Hx Hy.
      destruct (decide (c = i)) as [->|Hci].
      * rewrite list_lookup_insert_eq in Hx by lia.
        rewrite list_lookup_insert_ne in Hy by (unfold parent; lia).
        simplify_eq. eapply (H2 j); eauto with lia.
      * rewrite list_lookup_insert_ne in Hx by done.
        destruct (decide (parent c = i)) as [Hpi|Hpi].
        -- rewrite Hpi, list_lookup_insert_eq in Hy by lia. simplify_eq.
           by eapply Hsib.
        -- rewrite list_lookup_insert_ne in Hy by done. by eapply (H1 c).
    + intros c x y _ _ Hc0 Hpc Hcn Hx Hy.
      rewrite Hpj, list_lookup_insert_eq in Hy by lia.
      rewrite list_lookup_insert_ne in Hx by (unfold parent in *; lia).
      simplify_eq.
      eapply (H1 c);
        [lia|lia|lia|unfold parent in *; lia|lia|done|by rewrite Hpc].
    + intros y _ _. rewrite Hpj, list_lookup_insert_eq by lia.
      intros ?; simplify_eq. by apply less_le.
  - apply Hplace; [|intros; by apply list_lookup_insert_ne|done].
    intros c x Hc0 Hp Hcn Hx.
    rewrite list_lookup_insert_ne in Hx by (unfold parent in *; lia).
    trans cj; [by eapply Hsib|done].
Qed.

Lemma heapify_heap l n a :
  n ≤ length a → l ≤ n → heap_from less l n a → heap_from less 0 n (heapify less l n a).
Proof.
  revert a. induction l as [|l IH]; intros a Hn Hl Hh; simpl; [done|].
  destruct (a !! l) as [tmp|] eqn:Htmp.
  2:{ apply lookup_ge_None in Htmp. lia. }
  apply IH; [by rewrite sift_length|lia|].
  apply sift_heap; try done; try lia.
  - intros c x y ??? ? ? Hx Hy. eapply (Hh c); eauto. lia.
  - intros c x y ? Hp. unfold parent in Hp. lia.
  - intros y ? Hp. unfold parent in Hp. lia.
Qed.

Lemma heap_from_top n a k x t :
  heap_from less 0 n a → n ≤ length a → k < n →
  a !! k = Some x → a !! 0 = Some t → le x t.
Proof.
  intros Hh Hn. revert x. induction (lt_wf k) as [k _ IH]; intros x Hk Hx Ht.
  destruct (decide (k = 0)) as [->|Hk0].
  { simplify_eq. reflexivity. }
  assert (parent k < k) as Hp by (unfold parent; lia).
  destruct (lookup_lt_is_Some_2 a (parent k)) as [y Hy]; [lia|].
  trans y.
  - eapply (Hh k); eauto with lia.
  - eapply (IH (parent k)); eauto with lia.
Qed.

Lemma extract_sorted n a :
  n ≤ length a → heap_from less 0 n a →
  StronglySorted le (drop n a) →
  (∀ x y, x ∈ take n a → y ∈ drop n a → le x y) →
  StronglySorted le (extract less n a).
Proof.
  revert a. induction n as [|n IH]; intros a Hn Hh Hs Hle; simpl; [done|].
  destruct n as [|n].
  { rewrite <-(take_drop 1 a). apply StronglySorted_app_2; [done| |done].
    destruct a as [|x [|]]; simpl; repeat constructor. }
  destruct (a !! S n) as [tmp|] eqn:Htmp.
  2:{ apply lookup_ge_None in Htmp. lia. }
  destruct (a !! 0) as [top|] eqn:Htop.
  2:{ apply lookup_ge_None in Htop. lia. }
  set (a1 := <[S n:=top]> a).
  set (r := sift less (S n) a1 tmp 0 (S n)).
  assert (length a1 = length a) as Hlen1 by apply length_insert.
  assert (length r = length a) as Hlenr by (unfold r; by rewrite sift_length).
  assert (drop (S n) r = top :: drop (S (S n)) a) as Hdrop.
  { apply list_eq. intros k. rewrite lookup_drop. unfold r.
    rewrite sift_lookup_ge by lia. unfold a1.
    destruct k as [|k]; simpl.
    - rewrite Nat.add_0_r. apply list_lookup_insert_eq. lia.
    - rewrite list_lookup_insert_ne by lia. rewrite lookup_drop.
      f_equal. lia. }
  assert (∀ x, x ∈ take (S n) r → x ∈ take (S (S n)) a) as Htake.
  { assert (take (S n) r ≡ₚ take (S n) (<[0:=tmp]> a1)) as Hperm.
    { apply (Permutation_app_inv_r (drop (S n) r)).
      rewrite take_drop.
      assert (drop (S n) r = drop (S n) (<[0:=tmp]> a1)) as ->.
      { apply list_eq. intros k. rewrite !lookup_drop.
        unfold r. rewrite sift_lookup_ge by lia.
        rewrite list_lookup_insert_ne by lia. done. }
      rewrite take_drop. unfold r. apply sift_perm. lia. }
    intros x Hx. rewrite Hperm in Hx.
    apply list_elem_of_lookup in Hx as [k Hk].
    apply lookup_take_Some in Hk as [Hk Hkn].
    apply list_elem_of_lookup.
    destruct (decide (k = 0)) as [->|Hk0].
    - rewrite list_lookup_insert_eq in Hk by lia. simplify_eq.
      exists (S n). rewrite lookup_take_lt by lia. done.
    - rewrite list_lookup_insert_ne in Hk by done. unfold a1 in Hk.
      rewrite list_lookup_insert_ne in Hk by lia.
      exists k. rewrite lookup_take_lt by lia. done. }
  assert (∀ x, x ∈ take (S (S n)) a → le x top) as Hmax.
  { intros x [k Hk]%list_elem_of_lookup.
    apply lookup_take_Some in Hk as [Hk Hkn].
    by eapply (heap_from_top (S (S n)) a k). }
  apply IH.
  - lia.
  - apply sift_heap; try lia.
    intros c x y ??? ? ? Hx Hy. unfold a1 in Hx, Hy.
    rewrite list_lookup_insert_ne in Hx, Hy by (unfold parent; lia).
    eapply (Hh c); eauto with lia.
  - fold a1. fold r. rewrite Hdrop. constructor; [done|].
    apply Forall_forall. intros y Hy. apply Hle; [|done].
    apply list_elem_of_lookup. exists 0. by rewrite lookup_take_lt by lia.
  - fold a1. fold r. rewrite Hdrop. intros x y Hx [->|Hy]%elem_of_cons.
    + by apply Hmax, Htake.
    + by apply Hle; [apply Htake|].
Qed.

Lemma aheapsort_sorted a : StronglySorted le (aheapsort less a).
Proof.
  unfold aheapsort. apply extract_sorted.
  - by rewrite heapify_length.
  - apply heapify_heap; [done|lia|].
    intros c x y ?? Hp. unfold parent in Hp. lia.
  - rewrite drop_ge by (by rewrite heapify_length). constructor.
  - rewrite drop_ge by (by rewrite heapify_length). set_solver.
Qed.
End heapsort_sorted.

(** ** The partition of quicksort *)

Section run.
Context {A : Type} (p : A → bool).
Implicit Types l : list A.

Lemma run_lt l k : k < run p l → ∃ x, l !! k = Some x ∧ p x = true.
Proof.
  revert k. induction l as [|x l IH]; intros k; simpl; [lia|].
  destruct (p x) eqn:Hx; [|lia].
  destruct k as [|k]; [eauto|]. intros ?. apply IH. lia.
Qed.

Lemma run_stop l x : l !! run p l = Some x → p x = false.
Proof.
  induction l as [|y l IH]; simpl; [done|].
  destruct (p y) eqn:Hy; simpl; [done|]. by intros [= <-].
Qed.

Lemma run_le l k x : l !! k = Some x → p x = false → run p l ≤ k.
Proof.
  intros Hk Hx. destruct (decide (run p l ≤ k)) as [|Hn]; [done|].
  destruct (run_lt l k) as (y & Hy & Hp); [lia|]. congruence.
Qed.
End run.

Section partition.
Context {A : Type} (less : A → A → bool).
Implicit Types a : list A.

Lemma swap_if_less_perm i j a : swap_if_less less i j a ≡ₚ a.
Proof.
  unfold swap_if_less. repeat case_match; try done. apply swap_perm.
Qed.

Lemma swap_if_less_length i j a :
  length (swap_if_less less i j a) = length a.
Proof.
  unfold swap_if_less. repeat case_match; try done. apply swap_length.
Qed.

Lemma partition_loop_perm fuel vp a pi pj :
  (partition_loop less fuel vp a pi pj).1 ≡ₚ a.
Proof.
  revert a pi pj. induction fuel as [|fuel IH]; intros a pi pj; simpl; [done|].
  case_match; simpl; [done|]. by rewrite IH, swap_perm.
Qed.

Lemma partition_perm a : (partition less a).1 ≡ₚ a.
Proof.
  unfold partition. cbv zeta. case_match eqn:Hvp; simpl.
  - destruct (partition_loop _ _ _ _ _ _) as [a' pi] eqn:Hloop; simpl.
    match type of Hloop with
    | partition_loop _ ?f ?v ?b ?i ?j = _ =>
        pose proof (partition_loop_perm f v b i j) as Hp
    end.
    rewrite Hloop in Hp. simpl in Hp.
    by rewrite swap_perm, Hp, swap_perm, !swap_if_less_perm.
  - by rewrite !swap_if_less_perm.
Qed.

Context `{!StrictWeak less}.
Local Abbreviation le := (le_of less).

Lemma scan_up_spec vp a pi k0 x0 (pi' := scan_up less vp a pi) :
  pi < k0 → a !! k0 = Some x0 → less x0 vp = false →
  pi < pi' ∧ pi' ≤ k0 ∧
  (∃ y, a !! pi' = Some y ∧ less y vp = false) ∧
  (∀ k x, pi < k → k < pi' → a !! k = Some x → less x vp = true).
Proof.
  intros Hk0 Hx0 Hless. unfold scan_up in pi'.
  set (r := run (λ x, less x vp) (drop (S pi) a)) in *.
  assert (r ≤ k0 - S pi) as Hr.
  { eapply (run_le _ _ _ x0); [|done]. rewrite lookup_drop.
    by replace (S pi + (k0 - S pi)) with k0 by lia. }
  split_and!; [lia|lia| |].
  - destruct (lookup_lt_is_Some_2 a pi') as [y Hy].
    { apply lookup_lt_Some in Hx0. lia. }
    exists y. split; [done|].
    apply (run_stop (λ x, less x vp) (drop (S pi) a)).
    by rewrite lookup_drop.
  - intros k x Hk1 Hk2 Hx.
    destruct (run_lt (λ x, less x vp) (drop (S pi) a) (k - S pi))
      as (y & Hy & Hp); [lia|].
    rewrite lookup_drop in Hy.
    replace (S pi + (k - S pi)) with k in Hy by lia. congruence.
Qed.

Lemma scan_down_spec vp a pj k0 x0 (pj' := scan_down less vp a pj) :
  pj ≤ length a → k0 < pj → a !! k0 = Some x0 → less vp x0 = false →
  k0 ≤ pj' ∧ pj' < pj ∧
  (∃ y, a !! pj' = Some y ∧ less vp y = false) ∧
  (∀ k x, pj' < k → k < pj → a !! k = Some x → less vp x = true).
Proof.
  intros Hpj Hk0 Hx0 Hless. unfold scan_down in pj'.
  set (r := run (λ x, less vp x) (reverse (take pj a))) in *.
  assert (length (take pj a) = pj) as Hlen by (rewrite length_take; lia).
  assert (∀ k, k < pj → reverse (take pj a) !! k = a !! (pj - 1 - k)) as Hrev.
  { intros k Hk. rewrite reverse_lookup by lia. rewrite Hlen.
    rewrite lookup_take_lt by lia. f_equal. lia. }
  assert (r ≤ pj - 1 - k0) as Hr.
  { eapply (run_le _ _ _ x0); [|done]. rewrite Hrev by lia.
    by replace (pj - 1 - (pj - 1 - k0)) with k0 by lia. }
  split_and!; [lia|lia| |].
  - destruct (lookup_lt_is_Some_2 a pj') as [y Hy]; [lia|].
    exists y. split; [done|].
    apply (run_stop (λ x, less vp x) (reverse (take pj a))).
    rewrite Hrev by lia. done.
  - intros k x Hk1 Hk2 Hx.
    destruct (run_lt (λ x, less vp x) (reverse (take pj a)) (pj - 1 - k))
      as (y & Hy & Hp); [lia|].
    rewrite Hrev in Hy by lia.
    replace (pj - 1 - (pj - 1 - k)) with k in Hy by lia. congruence.
Qed.

Lemma partition_loop_spec fuel vp a pi pj a' pi' :
  pi < pj → pj < length a → pj - pi ≤ fuel →
  (∀ k x, k ≤ pi → a !! k = Some x → less vp x = false) →
  (∀ k x, pj ≤ k → a !! k = Some x → less x vp = false) →
  partition_loop less fuel vp a pi pj = (a', pi') →
  length a' = length a ∧ pi < pi' ∧ pi' ≤ pj ∧
  (∀ k x, k < pi' → a' !! k = Some x → less vp x = false) ∧
  (∀ k x, pi' ≤ k → a' !! k = Some x → less x vp = false) ∧
  (∀ k, pj ≤ k → a' !! k = a !! k).
Proof.
  revert a pi pj. induction fuel as [|fuel IH];
    intros a pi pj Hlt Hpj Hfuel Hlo Hhi; [lia|]. simpl.
  destruct (lookup_lt_is_Some_2 a pj Hpj) as [xj Hxj].
  destruct (lookup_lt_is_Some_2 a pi) as [xi Hxi]; [lia|].
  destruct (scan_up_spec vp a pi pj xj) as (Hu1 & Hu2 & (yu & Hyu & Hu3) & Hu4);
    [done|done|by eapply Hhi|].
  destruct (scan_down_spec vp a pj pi xi) as (Hd1 & Hd2 & (yd & Hyd & Hd3) & Hd4);
    [lia|done|done|by eapply Hlo|].
  set (i' := scan_up less vp a pi) in *.
  set (j' := scan_down less vp a pj) in *.
  assert (∀ k x, k < i' → a !! k = Some x → less vp x = false) as Hlo'.
  { intros k x Hk Hx. destruct (decide (k ≤ pi)); [by eapply Hlo|].
    eapply less_asym; [done|]. eapply Hu4; [| |done]; lia. }
  assert (∀ k x, j' < k → a !! k = Some x → less x vp = false) as Hhi'.
  { intros k x Hk Hx. destruct (decide (pj ≤ k)); [by eapply Hhi|].
    eapply less_asym; [done|]. eapply Hd4; [| |done]; lia. }
  destruct (j' <=? i') eqn:Hcmp.
  - apply Nat.leb_le in Hcmp. intros [= <- <-].
    split_and!; [done|lia|lia|done| |done].
    intros k x Hk Hx. destruct (decide (k = i')) as [->|]; [congruence|].
    eapply Hhi'; [|done]. lia.
  - apply Nat.leb_gt in Hcmp. intros Hloop.
    apply IH in Hloop as (Hlen & H1 & H2 & H3 & H4 & H5).
    + rewrite swap_length in Hlen. split_and!; [done|lia|lia|done|done|].
      intros k Hk. rewrite H5 by lia. rewrite swap_lookup_other; [done|lia|lia].
    + done.
    + rewrite swap_length. lia.
    + lia.
    + intros k x Hk. rewrite swap_lookup by lia.
      repeat case_decide; subst; intros Hx; try lia.
      * congruence.
      * eapply Hlo'; [|done]. lia.
    + intros k x Hk. rewrite swap_lookup by lia.
      repeat case_decide; subst; intros Hx; try lia.
      * congruence.
      * eapply Hhi'; [|done]. lia.
Qed.

Lemma swap_if_less_spec i j a x y (b := swap_if_less less i j a) :
  i ≠ j → a !! i = Some x → a !! j = Some y →
  ∃ x' y', b !! i = Some x' ∧ b !! j = Some y' ∧
    le x x' ∧ le y x' ∧ le y' x ∧ le y' y ∧
    (∀ k, k ≠ i → k ≠ j → b !! k = a !! k).
Proof.
  intros Hij Hx Hy. unfold b, swap_if_less. rewrite Hx, Hy.
  destruct (less x y) eqn:Hless.
  - exists y, x. rewrite !swap_lookup by eauto using lookup_lt_Some.
    rewrite decide_True by done. rewrite decide_False by done.
    rewrite decide_True by done.
    split_and!; try done; try reflexivity; try (by apply less_le).
    intros k ??. by apply swap_lookup_other.
  - exists x, y. split_and!; try done; reflexivity.
Qed.

Lemma partition_spec a a' pi :
  3 ≤ length a → partition less a = (a', pi) →
  0 < pi ∧ pi < length a - 1 ∧ length a' = length a ∧
  ∃ p, a' !! pi = Some p ∧
    Forall (λ x, le x p) (take pi a') ∧ Forall (le p) (drop (S pi) a').
Proof.
  intros Hlen. unfold partition.
  set (pr := length a - 1). set (pm := pr / 2).
  assert (0 < pm ∧ pm < pr ∧ pr < length a) as (Hpm0 & Hpm & Hpr) by lia.
  destruct (lookup_lt_is_Some_2 a 0) as [x0 Hx0]; [lia|].
  destruct (lookup_lt_is_Some_2 a pm) as [xm Hxm]; [lia|].
  destruct (swap_if_less_spec pm 0 a xm x0)
    as (m1 & z1 & Hm1 & Hz1 & ? & ? & ? & ? & Ho1); [lia|done|done|].
  set (a1 := swap_if_less less pm 0 a) in *.
  assert (length a1 = length a) as Hl1 by apply swap_if_less_length.
  destruct (lookup_lt_is_Some_2 a1 pr) as [r1 Hr1]; [lia|].
  destruct (swap_if_less_spec pr pm a1 r1 m1)
    as (r2 & m2 & Hr2 & Hm2 & ? & ? & ? & ? & Ho2); [lia|done|done|].
  set (a2 := swap_if_less less pr pm a1) in *.
  assert (length a2 = length a) as Hl2
    by (unfold a2; by rewrite swap_if_less_length).
  assert (a2 !! 0 = Some z1) as Hz2 by (rewrite Ho2 by lia; done).
  destruct (swap_if_less_spec pm 0 a2 m2 z1)
    as (m3 & z3 & Hm3 & Hz3 & ? & ? & ? & ? & Ho3); [lia|done|done|].
  set (a3 := swap_if_less less pm 0 a2) in *.
  assert (length a3 = length a) as Hl3
    by (unfold a3; by rewrite swap_if_less_length).
  assert (a3 !! pr = Some r2) as Hr3 by (rewrite Ho3 by lia; done).
  rewrite Hm3.
  assert (le z3 m3) as Hzm by (by trans z1).
  assert (le m3 r2) as Hmr.
  { assert (le z1 r2) by (trans m1; [by trans xm|done]).
    assert (le m2 r2) by (by trans m1).
    unfold a3, swap_if_less in Hm3. rewrite Hm2, Hz2 in Hm3.
    destruct (less m2 z1).
    - rewrite swap_lookup in Hm3 by lia. rewrite decide_True in Hm3 by done.
      by simplify_eq.
    - by simplify_eq. }
  set (a4 := swap pm (pr - 1) a3).
  assert (length a4 = length a) as Hl4 by (unfold a4; by rewrite swap_length).
  destruct (partition_loop less (length a4) m3 a4 0 (pr - 1)) as [a5 i5] eqn:Hloop.
  intros [= <- <-].
  apply partition_loop_spec in Hloop as (Hl5 & Q1 & Q2 & Q3 & Q4 & Q5);
    [|lia|lia|lia| |].
  - assert (a5 !! (pr - 1) = Some m3) as Hpiv.
    { rewrite Q5 by lia. unfold a4. rewrite swap_lookup by lia.
      case_decide; [congruence|]. by rewrite decide_True. }
    rewrite swap_length. split_and!; [lia|lia|lia|].
    exists m3. split; [|split].
    + rewrite swap_lookup by lia. by rewrite decide_True.
    + apply Forall_forall. intros x [k Hk]%list_elem_of_lookup.
      apply lookup_take_Some in Hk as [Hk Hki].
      rewrite swap_lookup_other in Hk by lia. by eapply Q3.
    + apply Forall_forall. intros x [k Hk]%list_elem_of_lookup.
      rewrite lookup_drop in Hk. rewrite swap_lookup in Hk by lia.
      rewrite decide_False in Hk by lia. case_decide.
      * eapply Q4; [|done]. lia.
      * eapply Q4; [|done]. lia.
  - intros k x Hk. assert (k = 0) as -> by lia.
    unfold a4. rewrite swap_lookup_other by lia. by intros ?; simplify_eq.
  - intros k x Hk Hx. assert (k < length a4) by eauto using lookup_lt_Some.
    assert (k = pr - 1 ∨ k = pr) as [->| ->] by lia.
    + unfold a4 in Hx. rewrite swap_lookup in Hx by lia.
      case_decide as Hd; [rewrite Hd in Hx|rewrite decide_True in Hx by done];
        simplify_eq; apply less_irrefl.
    + unfold a4 in Hx. rewrite swap_lookup_other in Hx by lia.
      by simplify_eq.
Qed.
End partition.

(** ** Quicksort *)

Section quicksort.
Context {A : Type} (less : A → A → bool).
Implicit Types a : list A.

Lemma quicksort_range_S fuel popped cdepth a :
  quicksort_range less (S fuel) popped cdepth a =
    if popped && (cdepth <? 0)%Z then aheapsort less a
    else if SMALL_QUICKSORT <? length a - 1 then
      let '(a', pi) := partition less a in
      let cdepth' := (cdepth - 1)%Z in
      let smaller_left := pi <? length a - 1 - pi in
      quicksort_range less fuel (negb smaller_left) cdepth' (take pi a')
      ++ take 1 (drop pi a')
      ++ quicksort_range less fuel smaller_left cdepth' (drop (S pi) a')
    else insertion less a.
Proof. done. Qed.

Lemma take_pivot_drop a pi : take pi a ++ take 1 (drop pi a) ++ drop (S pi) a = a.
Proof.
  rewrite <-(take_drop pi a) at 4. f_equal.
  rewrite <-(take_drop 1 (drop pi a)) at 2. f_equal.
  by rewrite drop_drop, Nat.add_1_r.
Qed.

Lemma quicksort_range_perm fuel popped cdepth a :
  quicksort_range less fuel popped cdepth a ≡ₚ a.
Proof.
  revert popped cdepth a. induction fuel as [|fuel IH]; intros popped cdepth a;
    [done|].
  rewrite quicksort_range_S.
  destruct (popped && _); [apply aheapsort_perm|].
  destruct (SMALL_QUICKSORT <? _); [|apply insertion_perm].
  pose proof (partition_perm less a) as Hp.
  destruct (partition less a) as [a' pi]; simpl in *.
  by rewrite !IH, take_pivot_drop.
Qed.

Lemma aquicksort_perm a : aquicksort less a ≡ₚ a.
Proof. apply quicksort_range_perm. Qed.

Lemma aquicksort_length a : length (aquicksort less a) = length a.
Proof. apply Permutation_length, aquicksort_perm. Qed.

(** Up to seventeen elements the routine is plain insertion sort. *)
Lemma aquicksort_small a :
  length a ≤ S SMALL_QUICKSORT → aquicksort less a = insertion less a.
Proof.
  intros Hlen. unfold aquicksort.
  destruct a as [|x a]; [done|].
  remember (x :: a) as b eqn:Hb. assert (0 < length b) by (subst; simpl; lia).
  destruct (length b) as [|n] eqn:Hn; [lia|].
  rewrite quicksort_range_S.
  assert ((npy_get_msb (S n) * 2 <? 0)%Z = false) as ->.
  { apply Z.ltb_ge. unfold npy_get_msb.
    pose proof (Z.log2_nonneg (Z.of_nat (S n))). lia. }
  simpl andb. rewrite Hn.
  assert (Nat.ltb SMALL_QUICKSORT (S n - 1) = false) as ->; [|done].
  apply Nat.ltb_ge. lia.
Qed.

Context `{!StrictWeak less}.
Local Abbreviation le := (le_of less).

Lemma quicksort_range_sorted fuel popped cdepth a :
  length a ≤ fuel →
  StronglySorted le (quicksort_range less fuel popped cdepth a).
Proof.
  revert popped cdepth a. induction fuel as [|fuel IH];
    intros popped cdepth a Hlen.
  { destruct a; [constructor|simpl in Hlen; lia]. }
  rewrite quicksort_range_S.
  destruct (popped && _); [by apply aheapsort_sorted|].
  destruct (SMALL_QUICKSORT <? _) eqn:Hsmall; [|by apply insertion_sorted].
  apply Nat.ltb_lt in Hsmall. unfold SMALL_QUICKSORT in Hsmall.
  destruct (partition less a) as [a' pi] eqn:Hpart.
  apply partition_spec in Hpart as (Hpi0 & Hpi & Hlen' & p & Hp & Hl & Hr);
    [|done|lia].
  cbv zeta.
  assert (take 1 (drop pi a') = [p]) as ->.
  { rewrite <-(take_drop_middle a' pi p Hp) at 1.
    rewrite drop_app_length'; [done|].
    rewrite length_take. lia. }
  apply StronglySorted_app_2; [| |apply StronglySorted_app_2].
  - intros x y Hx Hy. rewrite quicksort_range_perm in Hx.
    rewrite Forall_forall in Hl. specialize (Hl x Hx). simpl in Hl.
    apply elem_of_app in Hy as [->%list_elem_of_singleton|Hy]; [done|].
    rewrite quicksort_range_perm in Hy.
    rewrite Forall_forall in Hr. specialize (Hr y Hy). by trans p.
  - apply IH. rewrite length_take. lia.
  - intros x y ->%list_elem_of_singleton Hy.
    rewrite quicksort_range_perm in Hy.
    rewrite Forall_forall in Hr. by apply Hr.
  - repeat constructor.
  - apply IH. rewrite length_drop. lia.
Qed.

Lemma aquicksort_sorted a : StronglySorted le (aquicksort less a).
Proof. by apply quicksort_range_sorted. Qed.
End quicksort.

(** * The order on cells *)

Section orders.
Lemma strict_weak_of_leb {A} (leb : A → A → bool) :
  (∀ x y, leb x y = true ∨ leb y x = true) →
  (∀ x y z, leb x y = true → leb y z = true → leb x z = true) →
  StrictWeak (λ x y, negb (leb y x)).
Proof.
  intros Htot Htrans. split.
  - intros x. by destruct (Htot x x) as [-> | ->].
  - intros x y z Hxy Hyz. apply negb_true_iff in Hxy, Hyz.
    apply negb_true_iff. destruct (leb z x) eqn:Hzx; [|done].
    destruct (Htot x y) as [Hxy'|Hyx]; [|congruence].
    by rewrite (Htrans z x y Hzx Hxy') in Hyz.
  - intros x y z Hxy Hyz. apply negb_false_iff in Hxy, Hyz.
    apply negb_false_iff. by eapply Htrans.
Qed.

Lemma strict_weak_pullback {A B} (less : B → B → bool) (f : A → B) :
  StrictWeak less → StrictWeak (λ x y, less (f x) (f y)).
Proof.
  intros [Hi Ht Hn]. split; intros; eauto.
Qed.

Lemma num_leb_total x y : num_leb x y = true ∨ num_leb y x = true.
Proof.
  destruct x as [|p|], y as [|q|]; simpl; auto.
  rewrite !Qle_bool_iff. destruct (Qlt_le_dec p q); auto using Qlt_le_weak.
Qed.

Lemma num_leb_trans x y z :
  num_leb x y = true → num_leb y z = true → num_leb x z = true.
Proof.
  destruct x as [|p|], y as [|q|], z as [|r|]; simpl; try done.
  rewrite !Qle_bool_iff. apply Qle_trans.
Qed.

Lemma string_leb_total s t : String.leb s t = true ∨ String.leb t s = true.
Proof.
  destruct (String.le_total s t) as [Hle|Hle];
    [left|right]; by apply Is_true_true.
Qed.

Lemma string_leb_trans s t u :
  String.leb s t = true → String.leb t u = true → String.leb s u = true.
Proof.
  intros H1%Is_true_true H2%Is_true_true. apply Is_true_true.
  change (String.le s u). by trans t.
Qed.

Lemma cell_leb_total a b : cell_leb a b = true ∨ cell_leb b a = true.
Proof.
  destruct a, b; simpl; auto using num_leb_total, string_leb_total.
Qed.

Lemma cell_leb_trans a b c :
  cell_leb a b = true → cell_leb b c = true → cell_leb a c = true.
Proof.
  destruct a, b, c; simpl; try done;
    eauto using num_leb_trans, string_leb_trans.
Qed.

Lemma cell_leb_refl a : cell_leb a a = true.
Proof. by destruct (cell_leb_total a a). Qed.

Global Instance cell_lt_strict_weak : StrictWeak cell_lt.
Proof.
  apply (strict_weak_of_leb cell_leb);
    [apply cell_leb_total|apply cell_leb_trans].
Qed.

Global Instance cell_le_trans : Transitive cell_le.
Proof. intros a b c. apply cell_leb_trans. Qed.

Lemma le_of_cell_lt a b : le_of cell_lt a b ↔ cell_le a b.
Proof. unfold le_of, cell_lt, cell_le. by rewrite negb_false_iff. Qed.

Lemma cell_eqv_lt a b : cell_eqv a b = true → cell_lt a b = false.
Proof.
  unfold cell_eqv, cell_lt. intros [_ ->]%andb_true_iff. done.
Qed.

Lemma cell_eqv_trans a b c :
  cell_eqv a b = true → cell_eqv b c = true → cell_eqv a c = true.
Proof.
  unfold cell_eqv. rewrite !andb_true_iff. intros [??] [??].
  eauto using cell_leb_trans.
Qed.

Lemma cell_eqv_sym a b : cell_eqv a b = cell_eqv b a.
Proof. unfold cell_eqv. apply andb_comm. Qed.
End orders.

(** * argsort *)

Section argsort.
Implicit Types v : list cell.

Global Instance key_less_strict_weak v : StrictWeak (key_less v).
Proof. apply (strict_weak_pullback cell_lt (v !!!.)), _. Qed.

Lemma argsort_eq v : argsort v = aquicksort (key_less v) (seq 0 (length v)).
Proof. done. Qed.

Lemma argsort_perm v : argsort v ≡ₚ seq 0 (length v).
Proof. apply aquicksort_perm. Qed.

Lemma argsort_length v : length (argsort v) = length v.
Proof. by rewrite argsort_perm, length_seq. Qed.

Lemma argsort_lt v i : i ∈ argsort v → i < length v.
Proof. rewrite argsort_perm, elem_of_seq. lia. Qed.

Lemma argsort_sorted v :
  StronglySorted cell_le ((v !!!.) <$> argsort v).
Proof.
  apply (StronglySorted_fmap (v !!!.) (le_of (key_less v)) cell_le).
  - intros i j Hij. by apply le_of_cell_lt.
  - apply aquicksort_sorted, _.
Qed.

Lemma argsort_small v :
  length v ≤ 17 → argsort v = insertion (key_less v) (seq 0 (length v)).
Proof.
  intros Hlen. rewrite argsort_eq. apply aquicksort_small.
  by rewrite length_seq.
Qed.

(** Short arrays are sorted stably: positions whose keys are the same keep
    their order. *)
Lemma argsort_small_stable v (P : nat → bool) :
  length v ≤ 17 →
  (∀ i j, P i = true → P j = true → cell_eqv (v !!! i) (v !!! j) = true) →
  filter P (argsort v) = filter P (seq 0 (length v)).
Proof.
  intros Hlen HP. rewrite argsort_small by done.
  apply insertion_filter. intros i j Hi Hj. by apply cell_eqv_lt, HP.
Qed.

Lemma StronglySorted_seq (R : relation nat) s n :
  (∀ i j, i < j → R i j) → StronglySorted R (seq s n).
Proof.
  intros HR. revert s. induction n as [|n IH]; intros s; simpl; constructor.
  - apply IH.
  - apply Forall_forall. intros j Hj%elem_of_seq. apply HR. lia.
Qed.

Lemma seq_sorted_keys v :
  StronglySorted cell_le v →
  StronglySorted (le_of (key_less v)) (seq 0 (length v)).
Proof.
  intros Hs.
  assert (∀ i j x y, i < j → v !! i = Some x → v !! j = Some y → cell_le x y)
    as Hle.
  { clear -Hs. induction Hs as [|z v Hs IH Hz]; intros i j x y Hij Hx Hy;
      [done|].
    destruct j as [|j]; [lia|]. simpl in Hy.
    destruct i as [|i]; simpl in Hx.
    - simplify_eq. rewrite Forall_forall in Hz.
      eapply Hz, list_elem_of_lookup_2, Hy.
    - eapply (IH i j); [lia|done..]. }
  apply StronglySorted_seq.
  clear -Hle. intros i j Hij. apply le_of_cell_lt.
  destruct (v !! j) as [y|] eqn:Hy.
  - destruct (lookup_lt_is_Some_2 v i) as [x Hx].
    { apply lookup_lt_Some in Hy. lia. }
    rewrite (list_lookup_total_correct _ _ _ Hx).
    rewrite (list_lookup_total_correct _ _ _ Hy). by eapply Hle.
  - rewrite (list_lookup_total_alt v j), Hy. simpl.
    unfold cell_le. by destruct (v !!! i).
Qed.

(** A short array that is already sorted is left as it is. *)
Lemma argsort_small_id v :
  length v ≤ 17 → StronglySorted cell_le v → argsort v = seq 0 (length v).
Proof.
  intros Hlen Hs. rewrite argsort_small by done.
  apply insertion_id; [apply _|]. by apply seq_sorted_keys.
Qed.

(** So is a sorted array of any length whose keys are all different. *)
Lemma argsort_distinct_id v :
  StronglySorted cell_le v →
  (∀ i j x y, i < j → v !! i = Some x → v !! j = Some y →
     cell_eqv x y = false) →
  argsort v = seq 0 (length v).
Proof.
  intros Hs Hne.
  apply (StronglySorted_unique_strong (le_of (key_less v))).
  - intros i j Hi%argsort_lt Hj%elem_of_seq Hij Hji.
    apply le_of_cell_lt in Hij, Hji.
    destruct (lookup_lt_is_Some_2 v i Hi) as [x Hx].
    destruct (lookup_lt_is_Some_2 v j) as [y Hy]; [lia|].
    rewrite (list_lookup_total_correct _ _ _ Hx) in Hij, Hji.
    rewrite (list_lookup_total_correct _ _ _ Hy) in Hij, Hji.
    destruct (Nat.lt_trichotomy i j) as [Hlt|[->|Hlt]]; [|done|].
    + specialize (Hne i j x y Hlt Hx Hy). unfold cell_eqv, cell_le in *.
      by rewrite Hij, Hji in Hne.
    + specialize (Hne j i y x Hlt Hy Hx). unfold cell_eqv, cell_le in *.
      by rewrite Hij, Hji in Hne.
  - apply aquicksort_sorted, _.
  - by apply seq_sorted_keys.
  - apply argsort_perm.
Qed.
End argsort.

(** * Reindexing a list *)

Section take_rows.
Context {A : Type} `{!Inhabited A}.
Implicit Types l : list A.

Lemma lookup_total_seq l : (l !!!.) <$> seq 0 (length l) = l.
Proof.
  apply list_eq. intros i. rewrite list_lookup_fmap.
  destruct (decide (i < length l)) as [Hi|Hi].
  - rewrite lookup_seq_lt by done. simpl.
    destruct (lookup_lt_is_Some_2 l i Hi) as [x Hx].
    by rewrite (list_lookup_total_correct _ _ _ Hx).
  - rewrite lookup_seq_ge by lia. simpl. symmetry.
    apply lookup_ge_None. lia.
Qed.

Lemma reindex_perm l idx :
  idx ≡ₚ seq 0 (length l) → (l !!!.) <$> idx ≡ₚ l.
Proof. intros ->. by rewrite lookup_total_seq. Qed.

Lemma filter_fmap_bool {B} (f : B → A) (Q : A → bool) (k : list B) :
  filter Q (f <$> k) = f <$> filter (λ i, Q (f i)) k.
Proof.
  induction k as [|x k IH]; [done|]. csimpl.
  rewrite !filter_cons, IH. by destruct (decide (Q (f x))).
Qed.

Lemma reindex_filter l idx (Q : A → bool) :
  filter (λ i, Q (l !!! i)) idx = filter (λ i, Q (l !!! i)) (seq 0 (length l)) →
  filter Q ((l !!!.) <$> idx) = filter Q l.
Proof.
  intros Hidx.
  trans (filter Q ((l !!!.) <$> seq 0 (length l)));
    [|by rewrite lookup_total_seq].
  rewrite !filter_fmap_bool. f_equal. exact Hidx.
Qed.
End take_rows.

(** * The cleaner, row by row *)

Section frames.
Context `{PyBuiltins}.
Implicit Types df : DataFrame.

Lemma cell_at_insert c v r : cell_at c (<[c:=v]> r) = v.
Proof. unfold cell_at. by rewrite lookup_insert_eq. Qed.

Lemma cell_at_insert_ne c c' v r : c ≠ c' → cell_at c (<[c':=v]> r) = cell_at c r.
Proof. intros. unfold cell_at. by rewrite lookup_insert_ne. Qed.

Lemma to_numeric1_idem c : to_numeric1 (to_numeric1 c) = to_numeric1 c.
Proof. destruct c as [x|s|]; simpl; [done| |done]. by destruct (Parse.floatify s). Qed.

Lemma to_numeric1_notna c :
  notna (to_numeric1 c) = true → ∃ x, to_numeric1 c = CNum x.
Proof.
  destruct c as [x|s|]; simpl; [by eauto| |done].
  destruct (Parse.floatify s); simpl; [by eauto|done].
Qed.

Lemma getitem_Ok df c :
  c ∈ columns df → getitem df c = Ok (cell_at c ∘ snd <$> rows df).
Proof. intros. unfold getitem. by rewrite decide_True. Qed.

Lemma getitem_Raise df c : c ∉ columns df → getitem df c = Raise (KeyError c).
Proof. intros. unfold getitem. by rewrite decide_False. Qed.

Lemma setitem_map df c (g : cell → cell) :
  c ∈ columns df →
  setitem df c (g <$> (cell_at c ∘ snd <$> rows df)) =
    {| columns := columns df;
       rows := (λ r, (r.1, <[c := g (cell_at c r.2)]> r.2)) <$> rows df |}.
Proof.
  intros Hc. unfold setitem. rewrite decide_True by done. f_equal.
  rewrite <-list_fmap_compose, zip_with_fmap_r, zip_with_diag. done.
Qed.

Lemma nargsort_notna (items : Series) :
  Forall (λ c, notna c = true) items → nargsort items true = argsort items.
Proof.
  intros Hall. unfold nargsort.
  assert (∀ i, i ∈ seq 0 (length items) → notna (items !!! i) = true) as Hi.
  { intros i [_ Hi]%elem_of_seq. rewrite Forall_forall in Hall. apply Hall.
    apply list_elem_of_lookup_total_2. lia. }
  assert (filter (λ i, notna (items !!! i) = true) (seq 0 (length items))
          = seq 0 (length items)) as ->.
  { induction (seq 0 (length items)) as [|i l IH]; [done|].
    rewrite filter_cons_True by (apply Hi; left).
    f_equal. apply IH. intros j Hj. apply Hi. by right. }
  assert (filter (λ i, isna (items !!! i) = true) (seq 0 (length items)) = [])
    as ->.
  { induction (seq 0 (length items)) as [|i l IH]; [done|].
    rewrite filter_cons_False.
    - apply IH. intros j Hj. apply Hi. by right.
    - specialize (Hi i ltac:(left)). unfold notna in Hi.
      by destruct (isna _). }
  rewrite lookup_total_seq, app_nil_r.
  rewrite <-(list_fmap_id (argsort items)) at 2.
  apply list_fmap_ext. intros k i Hk%list_elem_of_lookup_2%argsort_lt.
  simpl. apply list_lookup_total_correct. by apply lookup_seq_lt.
Qed.

Lemma year_keys_lookup_total df c i :
  year_keys df c !!! i = cell_at c (rows df !!! i).2.
Proof.
  unfold year_keys. destruct (decide (i < length (rows df))) as [Hi|Hi].
  - by rewrite (list_lookup_total_fmap (cell_at c ∘ snd) (rows df) i Hi).
  - rewrite !list_lookup_total_alt.
    rewrite !(lookup_ge_None_2 _ i) by (rewrite ?length_fmap; lia). done.
Qed.

Lemma before_sort_complete df yc vc r :
  r ∈ rows (before_sort df yc vc) → complete yc vc r.2 = true.
Proof. simpl. by intros [? _]%list_elem_of_filter. Qed.

Lemma before_sort_keys_notna df yc vc :
  Forall (λ c, notna c = true) (year_keys (before_sort df yc vc) yc).
Proof.
  unfold year_keys. apply Forall_fmap, Forall_forall. intros r Hr.
  apply before_sort_complete in Hr. unfold complete in Hr. simpl.
  by apply andb_true_iff in Hr as [? _].
Qed.

Lemma bind_Ok {A B} (a : A) (k : A → result B) : Ok a ≫= k = k a.
Proof. done. Qed.

Lemma dropna_Ok df subset :
  Forall (λ c, c ∈ columns df) subset →
  dropna df subset =
    Ok {| columns := columns df;
          rows := filter (λ r, forallb (λ c, notna (cell_at c r.2)) subset = true)
                    (rows df) |}.
Proof.
  intros Hall. unfold dropna.
  assert (filter (λ c, c ∉ columns df) subset = []) as ->; [|done].
  induction Hall as [|c l Hc Hl IH]; [done|].
  rewrite filter_cons_False; [done|]. by intros Hn.
Qed.

Lemma sort_values_notna df c :
  c ∈ columns df → Forall (λ c, notna c = true) (year_keys df c) →
  sort_values df c true =
    Ok {| columns := columns df;
          rows := (rows df !!!.) <$> argsort (year_keys df c) |}.
Proof.
  intros Hc Hall. unfold sort_values. rewrite getitem_Ok by done.
  rewrite bind_Ok. fold (year_keys df c). by rewrite nargsort_notna.
Qed.

(** Lines 31-35: the three column assignments. *)
Lemma coerce_columns df yc vc :
  yc ∈ columns df → vc ∈ columns df →
  let d1 := setitem df yc (to_numeric (cell_at yc ∘ snd <$> rows df)) in
  let d2 := setitem d1 vc (to_numeric (cell_at vc ∘ snd <$> rows d1)) in
  (if decide ("Type" ∈ columns d2) then
     t ← getitem d2 "Type";
     Ok (setitem d2 "Type" (str_strip (astype_str t)))
   else Ok d2)
  = Ok {| columns := columns df;
          rows := (λ r, (r.1, coerce_row yc vc
                           (bool_decide ("Type" ∈ columns df)) r.2))
                  <$> rows df |}.
Proof.
  intros Hyc Hvc d1 d2.
  assert (d1 = {| columns := columns df;
                  rows := (λ r, (r.1, <[yc := to_numeric1 (cell_at yc r.2)]> r.2))
                          <$> rows df |}) as Hd1
    by (by apply setitem_map).
  assert (d2 = {| columns := columns df;
                  rows := (λ r, (r.1, <[vc := to_numeric1 (cell_at vc r.2)]> r.2))
                          <$> rows d1 |}) as Hd2.
  { unfold d2, to_numeric.
    rewrite (setitem_map d1 vc to_numeric1) by (by rewrite Hd1).
    by rewrite Hd1. }
  assert (columns d2 = columns df) as Hcols by (by rewrite Hd2).
  rewrite Hcols. destruct (decide ("Type" ∈ columns df)) as [Ht|Ht].
  - rewrite getitem_Ok by (by rewrite Hcols). rewrite bind_Ok.
    unfold str_strip, astype_str. rewrite <-list_fmap_compose.
    rewrite (setitem_map d2 "Type" (str_map Py.strip ∘ astype_str1))
      by (by rewrite Hcols).
    rewrite Hcols. f_equal. f_equal. rewrite Hd2, Hd1. simpl.
    rewrite <-!list_fmap_compose.
    apply list_fmap_ext. intros i [j r] _. simpl.
    unfold coerce_row. by rewrite bool_decide_eq_true_2.
  - f_equal. rewrite Hd2, Hd1. simpl. f_equal. rewrite <-!list_fmap_compose.
    apply list_fmap_ext. intros i [j r] _. simpl.
    unfold coerce_row. by rewrite bool_decide_eq_false_2.
Qed.

(** [clean_macro] is [before_sort] followed by the sort on the year. *)
Lemma clean_macro_eq df yc vc :
  yc ∈ columns df → vc ∈ columns df →
  clean_macro df yc vc =
    Ok {| columns := columns df;
          rows := (rows (before_sort df yc vc) !!!.)
                    <$> argsort (year_keys (before_sort df yc vc) yc) |}.
Proof.
  intros Hyc Hvc. unfold clean_macro, copy.
  rewrite getitem_Ok, bind_Ok by done. cbv zeta.
  assert (vc ∈ columns (setitem df yc (to_numeric (cell_at yc ∘ snd <$> rows df))))
    as Hvc1.
  { unfold to_numeric. by rewrite setitem_map. }
  rewrite (getitem_Ok _ vc Hvc1), bind_Ok.
  rewrite (coerce_columns df yc vc Hyc Hvc), bind_Ok.
  rewrite dropna_Ok by (by repeat constructor).
  rewrite bind_Ok. cbn [columns rows].
  assert ({| columns := columns df;
             rows := filter (λ r, forallb (λ c, notna (cell_at c r.2)) [yc; vc] = true)
                       ((λ r, (r.1, coerce_row yc vc
                                 (bool_decide ("Type" ∈ columns df)) r.2))
                          <$> rows df) |}
          = before_sort df yc vc) as ->.
  { unfold before_sort. f_equal. apply list_filter_iff. intros r.
    unfold complete. simpl. by rewrite andb_true_r. }
  rewrite sort_values_notna; [done|done|apply before_sort_keys_notna].
Qed.

Lemma clean_macro_Ok_inv df yc vc out :
  clean_macro df yc vc = Ok out → yc ∈ columns df ∧ vc ∈ columns df.
Proof.
  intros Hc. destruct (decide (yc ∈ columns df)) as [Hy|Hy].
  - split; [done|]. destruct (decide (vc ∈ columns df)) as [|Hv]; [done|].
    unfold clean_macro, copy in Hc. rewrite getitem_Ok, bind_Ok in Hc by done.
    cbv zeta in Hc. rewrite getitem_Raise in Hc; [done|].
    unfold to_numeric. by rewrite setitem_map.
  - unfold clean_macro, copy in Hc. by rewrite getitem_Raise in Hc.
Qed.

Lemma clean_macro_rows df yc vc out :
  clean_macro df yc vc = Ok out →
  columns out = columns df ∧
  rows out = (rows (before_sort df yc vc) !!!.)
               <$> argsort (year_keys (before_sort df yc vc) yc).
Proof.
  intros Hc. destruct (clean_macro_Ok_inv _ _ _ _ Hc) as [Hy Hv].
  rewrite clean_macro_eq in Hc by done. by simplify_eq.
Qed.

(** Sorting only reorders the rows that were kept. *)
Lemma clean_macro_perm df yc vc out :
  clean_macro df yc vc = Ok out → rows out ≡ₚ rows (before_sort df yc vc).
Proof.
  intros [_ ->]%clean_macro_rows. apply reindex_perm.
  rewrite argsort_perm. unfold year_keys. by rewrite length_fmap.
Qed.

Lemma reindex_keys df c (idx : list nat) :
  cell_at c ∘ snd <$> ((rows df !!!.) <$> idx) = (year_keys df c !!!.) <$> idx.
Proof.
  rewrite <-list_fmap_compose. apply list_fmap_ext. intros i k _. simpl.
  by rewrite year_keys_lookup_total.
Qed.

Lemma clean_macro_sorted df yc vc out :
  clean_macro df yc vc = Ok out → sorted_by yc (rows out).
Proof.
  intros [_ ->]%clean_macro_rows. unfold sorted_by.
  set (pre := before_sort df yc vc).
  pose proof (argsort_sorted (year_keys pre yc)) as Hs.
  rewrite <-reindex_keys in Hs.
  remember ((rows pre !!!.) <$> argsort (year_keys pre yc)) as l eqn:Hl.
  clear Hl. induction l as [|r l IH]; [constructor|].
  csimpl in Hs. apply StronglySorted_inv in Hs as [Hs Hr].
  constructor; [by apply IH|].
  rewrite Forall_fmap in Hr. done.
Qed.
End frames.

(** * Python text *)

Section text.
Lemma lstrip_head s :
  Py.lstrip s = EmptyString ∨
  ∃ c t, Py.lstrip s = String c t ∧ Py.isspace c = false.
Proof.
  induction s as [|c s IH]; simpl; [by left|].
  destruct (Py.isspace c) eqn:Hc; [done|]. right. eauto.
Qed.

Lemma lstrip_noop c t : Py.isspace c = false → Py.lstrip (String c t) = String c t.
Proof. intros Hc. simpl. by rewrite Hc. Qed.

Lemma rstrip_head c t :
  Py.rstrip (String c t) = EmptyString ∨ ∃ r, Py.rstrip (String c t) = String c r.
Proof.
  simpl. destruct (Py.rstrip t); [|by eauto].
  destruct (Py.isspace c); eauto.
Qed.

Lemma rstrip_idem s : Py.rstrip (Py.rstrip s) = Py.rstrip s.
Proof.
  induction s as [|c s IH]; simpl; [done|].
  destruct (Py.rstrip s) as [|c' r] eqn:Hr.
  - destruct (Py.isspace c) eqn:Hc; simpl; [done|]. by rewrite Hc.
  - simpl in *. by rewrite IH.
Qed.

Lemma strip_idem s : Py.strip (Py.strip s) = Py.strip s.
Proof.
  unfold Py.strip. destruct (lstrip_head s) as [->|(c & t & -> & Hc)]; [done|].
  destruct (rstrip_head c t) as [->|[r Hr]]; [done|].
  rewrite Hr, lstrip_noop by done. by rewrite <-Hr, rstrip_idem.
Qed.
End text.

(** * The cleaner *)

Section cleaner.
Context `{PyBuiltins}.
Implicit Types df out : DataFrame.

Lemma coerce_row_year yc vc b (r : Row) :
  yc ≠ "Type" →
  cell_at yc (coerce_row yc vc b r) = to_numeric1 (cell_at yc r).
Proof.
  intros Hy. unfold coerce_row.
  assert (cell_at yc (<[vc:=to_numeric1 (cell_at vc (<[yc:=to_numeric1 (cell_at yc r)]> r))]>
                        (<[yc:=to_numeric1 (cell_at yc r)]> r))
          = to_numeric1 (cell_at yc r)) as Hv.
  { destruct (decide (yc = vc)) as [<-|Hne].
    - by rewrite !cell_at_insert, to_numeric1_idem.
    - by rewrite cell_at_insert_ne, cell_at_insert. }
  destruct b; [|done]. by rewrite cell_at_insert_ne.
Qed.

Lemma coerce_row_value yc vc b (r : Row) :
  vc ≠ "Type" →
  cell_at vc (coerce_row yc vc b r) = to_numeric1 (cell_at vc r).
Proof.
  intros Hv. unfold coerce_row.
  assert (cell_at vc (<[vc:=to_numeric1 (cell_at vc (<[yc:=to_numeric1 (cell_at yc r)]> r))]>
                        (<[yc:=to_numeric1 (cell_at yc r)]> r))
          = to_numeric1 (cell_at vc r)) as Hc.
  { rewrite cell_at_insert. destruct (decide (vc = yc)) as [->|Hne].
    - by rewrite cell_at_insert, to_numeric1_idem.
    - by rewrite cell_at_insert_ne. }
  destruct b; [|done]. by rewrite cell_at_insert_ne.
Qed.

Lemma coerce_row_label yc vc (r : Row) :
  yc ≠ "Type" → vc ≠ "Type" →
  cell_at "Type" (coerce_row yc vc true r)
  = str_map Py.strip (astype_str1 (cell_at "Type" r)).
Proof.
  intros Hy Hv. unfold coerce_row.
  by rewrite cell_at_insert, !cell_at_insert_ne.
Qed.

(** The label column holds text after cleaning, whatever it held. *)
Lemma coerce_row_label_text yc vc (r : Row) :
  ∃ s, coerce_row yc vc true r !! "Type" = Some (CStr (Py.strip s)).
Proof.
  unfold coerce_row. rewrite lookup_insert_eq.
  destruct (astype_str1 _) as [|s|] eqn:Hs; simpl; [|by eauto|].
  - unfold astype_str1 in Hs. by repeat case_match.
  - unfold astype_str1 in Hs. by repeat case_match.
Qed.

Lemma before_sort_row df yc vc ir :
  ir ∈ rows (before_sort df yc vc) ↔
  ∃ r0, (ir.1, r0) ∈ rows df ∧
    ir.2 = coerce_row yc vc (bool_decide ("Type" ∈ columns df)) r0 ∧
    complete yc vc ir.2 = true.
Proof.
  unfold before_sort. simpl. rewrite list_elem_of_filter, list_elem_of_fmap.
  split.
  - intros (Hc & [i r0] & -> & Hin). simpl in *. eauto.
  - intros (r0 & Hin & Heq & Hc). split; [done|].
    exists (ir.1, r0). split; [|done]. destruct ir; simpl in *. by subst.
Qed.

Lemma clean_macro_row df yc vc out ir :
  clean_macro df yc vc = Ok out →
  ir ∈ rows out ↔ ir ∈ rows (before_sort df yc vc).
Proof. intros Hc. by rewrite (clean_macro_perm _ _ _ _ Hc). Qed.

Lemma clean_macro_returns df yc vc :
  yc ∈ columns df → vc ∈ columns df → ∃ out, clean_macro df yc vc = Ok out.
Proof. intros. rewrite clean_macro_eq by done. eauto. Qed.

Lemma clean_macro_drops_uncoerced df yc vc :
  yc ≠ "Type" → vc ≠ "Type" → drops_uncoerced df yc vc.
Proof.
  intros Hy Hv out ir Hc Hin.
  apply (clean_macro_row _ _ _ _ _ Hc), before_sort_row in Hin
    as (r0 & Hin & Heq & Hcomp).
  unfold complete in Hcomp. apply andb_true_iff in Hcomp as [Hcy Hcv].
  rewrite Heq, coerce_row_year in Hcy by done.
  rewrite Heq, coerce_row_value in Hcv by done.
  destruct (to_numeric1_notna _ Hcy) as [x Hx].
  destruct (to_numeric1_notna _ Hcv) as [y Hy'].
  exists r0, x, y. rewrite Heq, coerce_row_year, coerce_row_value by done.
  done.
Qed.

(** ** Stability on short tables *)

Lemma clean_macro_stable df yc vc :
  length (rows (before_sort df yc vc)) ≤ 17 → stable_clean df yc vc.
Proof.
  intros Hlen out k Hc.
  apply clean_macro_rows in Hc as [_ ->].
  set (pre := before_sort df yc vc) in *.
  set (Q := λ ir : nat * Row, cell_eqv (cell_at yc ir.2) k).
  trans (filter Q ((rows pre !!!.) <$> argsort (year_keys pre yc))).
  { apply list_filter_iff. intros ir. unfold Q. by rewrite Is_true_true. }
  trans (filter Q (rows pre)).
  2:{ apply list_filter_iff. intros ir. unfold Q. by rewrite Is_true_true. }
  apply reindex_filter.
  assert (length (year_keys pre yc) = length (rows pre)) as Hl
    by (unfold year_keys; by rewrite length_fmap).
  rewrite <-Hl.
  apply (argsort_small_stable _ (λ i, Q (rows pre !!! i))); [lia|].
  intros i j Hi Hj. unfold Q in Hi, Hj.
  rewrite !year_keys_lookup_total.
  eapply cell_eqv_trans; [done|]. by rewrite cell_eqv_sym.
Qed.

(** ** A second pass *)

Lemma coerce_row_fixed yc vc b (r : Row) x y :
  r !! yc = Some (CNum x) → r !! vc = Some (CNum y) →
  (b = true → ∃ s, r !! "Type" = Some (CStr (Py.strip s))) →
  coerce_row yc vc b r = r.
Proof.
  intros Hy Hv Ht. unfold coerce_row.
  assert (<[yc:=to_numeric1 (cell_at yc r)]> r = r) as ->.
  { apply insert_id. unfold cell_at. by rewrite Hy. }
  assert (<[vc:=to_numeric1 (cell_at vc r)]> r = r) as ->.
  { apply insert_id. unfold cell_at. by rewrite Hv. }
  destruct b; [|done]. destruct Ht as [s Hs]; [done|].
  apply insert_id. unfold cell_at. rewrite Hs. simpl.
  by rewrite strip_idem.
Qed.

Lemma coerce_row_lookup_year yc vc b (r : Row) :
  yc ≠ "Type" →
  coerce_row yc vc b r !! yc = Some (to_numeric1 (cell_at yc r)).
Proof.
  intros Hy. unfold coerce_row.
  assert ((<[vc:=to_numeric1 (cell_at vc (<[yc:=to_numeric1 (cell_at yc r)]> r))]>
             (<[yc:=to_numeric1 (cell_at yc r)]> r)) !! yc
          = Some (to_numeric1 (cell_at yc r))) as Hv.
  { destruct (decide (yc = vc)) as [<-|Hne].
    - by rewrite lookup_insert_eq, cell_at_insert, to_numeric1_idem.
    - by rewrite lookup_insert_ne, lookup_insert_eq. }
  destruct b; [|done]. by rewrite lookup_insert_ne.
Qed.

Lemma coerce_row_lookup_value yc vc b (r : Row) :
  vc ≠ "Type" →
  coerce_row yc vc b r !! vc = Some (to_numeric1 (cell_at vc r)).
Proof.
  intros Hv. unfold coerce_row.
  assert ((<[vc:=to_numeric1 (cell_at vc (<[yc:=to_numeric1 (cell_at yc r)]> r))]>
             (<[yc:=to_numeric1 (cell_at yc r)]> r)) !! vc
          = Some (to_numeric1 (cell_at vc r))) as Hc.
  { rewrite lookup_insert_eq. destruct (decide (vc = yc)) as [->|Hne].
    - by rewrite cell_at_insert, to_numeric1_idem.
    - by rewrite cell_at_insert_ne. }
  destruct b; [|done]. by rewrite lookup_insert_ne.
Qed.

(** A cleaned table goes through lines 31-36 unchanged. *)
Lemma before_sort_cleaned df yc vc out :
  yc ≠ "Type" → vc ≠ "Type" →
  clean_macro df yc vc = Ok out → before_sort out yc vc = out.
Proof.
  intros Hy Hv Hc. destruct (clean_macro_rows _ _ _ _ Hc) as [Hcols _].
  unfold before_sort. rewrite Hcols. destruct out as [cols rs].
  simpl in *. subst cols. f_equal.
  assert (∀ ir, ir ∈ rs →
            (ir.1, coerce_row yc vc (bool_decide ("Type" ∈ columns df)) ir.2) = ir
            ∧ complete yc vc ir.2 = true) as Hfix.
  { intros ir Hin.
    apply (clean_macro_row _ _ _ _ _ Hc), before_sort_row in Hin
      as (r0 & Hin & Heq & Hcomp).
    split; [|done]. destruct ir as [i r]. simpl in *. f_equal.
    unfold complete in Hcomp. apply andb_true_iff in Hcomp as [Hcy Hcv].
    rewrite Heq, coerce_row_year in Hcy by done.
    rewrite Heq, coerce_row_value in Hcv by done.
    destruct (to_numeric1_notna _ Hcy) as [x Hx].
    destruct (to_numeric1_notna _ Hcv) as [y Hy'].
    apply (coerce_row_fixed _ _ _ _ x y).
    - by rewrite Heq, coerce_row_lookup_year, Hx.
    - by rewrite Heq, coerce_row_lookup_value, Hy'.
    - intros Hb. rewrite Heq, Hb. apply coerce_row_label_text. }
  clear Hc. induction rs as [|ir rs IH]; [done|]. csimpl.
  destruct (Hfix ir) as [Heq Hcomp]; [by left|].
  rewrite Heq, filter_cons_True by done. f_equal.
  apply IH. intros ir' Hin. apply Hfix. by right.
Qed.

Lemma sorted_by_keys yc (rs : list (nat * Row)) :
  sorted_by yc rs → StronglySorted cell_le (cell_at yc ∘ snd <$> rs).
Proof.
  unfold sorted_by.
  apply (StronglySorted_fmap (cell_at yc ∘ snd)). by intros [??] [??].
Qed.

Lemma clean_macro_again df yc vc out :
  yc ≠ "Type" → vc ≠ "Type" →
  clean_macro df yc vc = Ok out →
  length (rows out) ≤ 17 ∨ distinct_years yc (rows out) →
  clean_macro out yc vc = Ok out.
Proof.
  intros Hy Hv Hc Hcase.
  destruct (clean_macro_Ok_inv _ _ _ _ Hc) as [Hyc Hvc].
  destruct (clean_macro_rows _ _ _ _ Hc) as [Hcols _].
  rewrite clean_macro_eq by (by rewrite Hcols).
  rewrite (before_sort_cleaned _ _ _ _ Hy Hv Hc).
  pose proof (sorted_by_keys _ _ (clean_macro_sorted _ _ _ _ Hc)) as Hs.
  fold (year_keys out yc) in Hs.
  assert (argsort (year_keys out yc) = seq 0 (length (rows out))) as ->.
  { replace (length (rows out)) with (length (year_keys out yc))
      by (unfold year_keys; by rewrite length_fmap).
    destruct Hcase as [Hlen|Hdist].
    - apply argsort_small_id; [|done]. unfold year_keys.
      by rewrite length_fmap.
    - apply argsort_distinct_id; [done|].
      intros i j x y Hij Hx Hy'. unfold year_keys in Hx, Hy'.
      rewrite list_lookup_fmap in Hx, Hy'.
      destruct (rows out !! i) as [ri|] eqn:Hi; [|done].
      destruct (rows out !! j) as [rj|] eqn:Hj; [|done].
      simpl in *. simplify_eq. by eapply Hdist. }
  rewrite lookup_total_seq. by destruct out.
Qed.
End cleaner.

(** * The chart *)

Section chart.
Context `{PyBuiltins}.
Implicit Types df cleaned : DataFrame.

Lemma select_filter df (f : cell → bool) c :
  select df (f <$> (cell_at c ∘ snd <$> rows df)) =
    {| columns := columns df;
       rows := filter (λ ir, f (cell_at c ir.2) = true) (rows df) |}.
Proof.
  unfold select. f_equal. rewrite <-list_fmap_compose.
  induction (rows df) as [|ir rs IH]; [done|]. csimpl.
  rewrite !filter_cons. simpl.
  destruct (decide (f (cell_at c ir.2) = true)); csimpl; by rewrite IH.
Qed.

Lemma split_hist_fcst_eq cleaned :
  split_hist_fcst cleaned =
    Ok ({| columns := columns cleaned; rows := historical_rows cleaned |},
        {| columns := if decide ("Type" ∈ columns cleaned)
                      then columns cleaned else [];
           rows := forecast_rows cleaned |}).
Proof.
  unfold split_hist_fcst, historical_rows, forecast_rows.
  destruct (decide ("Type" ∈ columns cleaned)) as [Ht|Ht].
  - rewrite getitem_Ok by done. rewrite bind_Ok. cbv zeta. rewrite bind_Ok.
    unfold str_lower.
    rewrite <-(list_fmap_compose (str_map Py.lower) (eq_str "historical")).
    rewrite <-(list_fmap_compose (str_map Py.lower) (eq_str "forecast")).
    rewrite (select_filter cleaned (eq_str "historical" ∘ str_map Py.lower)).
    rewrite (select_filter cleaned (eq_str "forecast" ∘ str_map Py.lower)).
    destruct cleaned; done.
  - by destruct cleaned.
Qed.

Lemma empty_rows df c :
  c ∈ columns df → empty df = match rows df with [] => true | _ => false end.
Proof.
  unfold empty. destruct (columns df); [|done]. by intros ?%elem_of_nil.
Qed.

Lemma iloc_last_column c (rs : list (nat * Row)) h :
  last rs = Some h → iloc_last (column_of c rs) = Ok (cell_at c h.2).
Proof.
  intros Hl. unfold iloc_last, column_of. by rewrite fmap_last, Hl.
Qed.

Lemma iloc_first_column c (f : nat * Row) fs :
  iloc_first (column_of c (f :: fs)) = Ok (cell_at c f.2).
Proof. done. Qed.

Lemma plot_hist_forecast_band_eq df yc vc title y_label c w cleaned :
  clean_macro df yc vc = Ok cleaned →
  plot_hist_forecast_band df yc vc title y_label c w =
    years ← astype_int (column_of yc (rows cleaned));
    Ok (figure_of cleaned yc vc title y_label c w years).
Proof.
  intros Hc. unfold plot_hist_forecast_band. rewrite Hc, bind_Ok.
  destruct (clean_macro_Ok_inv _ _ _ _ Hc) as [Hy Hv].
  destruct (clean_macro_rows _ _ _ _ Hc) as [Hcols _].
  rewrite <-Hcols in Hy, Hv.
  rewrite split_hist_fcst_eq, bind_Ok. cbv zeta.
  rewrite (getitem_Ok cleaned yc Hy).
  fold (column_of yc (rows cleaned)).
  set (hist := {| columns := columns cleaned; rows := historical_rows cleaned |}).
  set (fcst := {| columns := if decide ("Type" ∈ columns cleaned)
                             then columns cleaned else [];
                  rows := forecast_rows cleaned |}).
  assert (empty hist = match historical_rows cleaned with [] => true | _ => false end)
    as Heh by (by apply (empty_rows hist yc)).
  assert (empty fcst = match forecast_rows cleaned with [] => true | _ => false end)
    as Hef.
  { unfold empty, fcst, forecast_rows. simpl.
    destruct (decide ("Type" ∈ columns cleaned)); [|done].
    destruct (columns cleaned); [by apply elem_of_nil in Hy|done]. }
  assert (∀ c, c ∈ columns cleaned →
            getitem hist c = Ok (column_of c (historical_rows cleaned)))
    as Hgh by (intros; by apply (getitem_Ok hist)).
  assert (forecast_rows cleaned ≠ [] → ∀ c, c ∈ columns cleaned →
            getitem fcst c = Ok (column_of c (forecast_rows cleaned)))
    as Hgf.
  { intros Hne c' Hc'. apply (getitem_Ok fcst). unfold fcst. simpl.
    destruct (decide ("Type" ∈ columns cleaned)); [done|].
    unfold forecast_rows in Hne. by rewrite decide_False in Hne. }
  rewrite Heh, Hef. unfold figure_of, drawn.
  destruct (historical_rows cleaned) as [|h hs] eqn:Hh;
    destruct (forecast_rows cleaned) as [|f fs] eqn:Hf; cbn [negb].
  all: repeat first
    [ rewrite bind_Ok
    | rewrite Hgh by done
    | rewrite Hgf by done ].
  1-3: (destruct (astype_int _); [|done]; by rewrite !bind_Ok).
  destruct (last (h :: hs)) as [hl|] eqn:Hl.
  2:{ by apply last_None in Hl. }
  repeat first
    [ rewrite bind_Ok
    | rewrite (iloc_last_column _ _ hl Hl)
    | rewrite iloc_first_column ].
  destruct (astype_int _); [|done]. by rewrite !bind_Ok.
Qed.

Lemma astype_int_finite (s : Series) :
  Forall (λ c, ∃ q, c = CNum (Fin q)) s → ∃ years, astype_int s = Ok years.
Proof.
  unfold astype_int. induction 1 as [|c s [q ->] _ [years IH]].
  - by exists [].
  - exists (Z.quot (Qnum q) (Zpos (Qden q)) :: years).
    cbn. by rewrite IH.
Qed.

(** The chart is returned when the years of the cleaned table are finite
    numbers. *)
Lemma plot_hist_forecast_band_returns df yc vc title y_label c w cleaned :
  clean_macro df yc vc = Ok cleaned →
  Forall (λ c, ∃ q, c = CNum (Fin q)) (column_of yc (rows cleaned)) →
  ∃ years,
    plot_hist_forecast_band df yc vc title y_label c w
    = Ok (figure_of cleaned yc vc title y_label c w years).
Proof.
  intros Hc Hfin. rewrite (plot_hist_forecast_band_eq _ _ _ _ _ _ _ _ Hc).
  destruct (astype_int_finite _ Hfin) as [years ->]. by exists years.
Qed.

Lemma plot_hist_forecast_band_artists df yc vc title y_label c w cleaned fig :
  clean_macro df yc vc = Ok cleaned →
  plot_hist_forecast_band df yc vc title y_label c w = Ok fig →
  artists fig = drawn cleaned yc vc c w.
Proof.
  intros Hc. rewrite (plot_hist_forecast_band_eq _ _ _ _ _ _ _ _ Hc).
  destruct (astype_int _); [|done]. rewrite bind_Ok. by intros [= <-].
Qed.

Lemma plot_hist_forecast_band_cleans df yc vc title y_label c w fig :
  plot_hist_forecast_band df yc vc title y_label c w = Ok fig →
  ∃ cleaned, clean_macro df yc vc = Ok cleaned.
Proof.
  unfold plot_hist_forecast_band.
  destruct (clean_macro df yc vc) as [cleaned|]; [by eauto|done].
Qed.
End chart.

(** * Labels and the two partitions *)

Section partitions.
Context `{PyBuiltins}.
Implicit Types df cleaned : DataFrame.

(** A row of the input whose year and value coerce is in the cleaned
    table, with the three cells rewritten. *)
Lemma clean_macro_keeps df yc vc cleaned i (r0 : Row) :
  clean_macro df yc vc = Ok cleaned →
  yc ≠ "Type" → vc ≠ "Type" →
  (i, r0) ∈ rows df →
  notna (to_numeric1 (cell_at yc r0)) = true →
  notna (to_numeric1 (cell_at vc r0)) = true →
  (i, coerce_row yc vc (bool_decide ("Type" ∈ columns df)) r0) ∈ rows cleaned.
Proof.
  intros Hc Hy Hv Hin Hcy Hcv.
  apply (clean_macro_row _ _ _ _ _ Hc), before_sort_row.
  exists r0. simpl. split_and!; [done..|].
  unfold complete. by rewrite coerce_row_year, coerce_row_value, Hcy, Hcv.
Qed.

Lemma elem_of_historical_rows cleaned ir :
  "Type" ∈ columns cleaned →
  ir ∈ historical_rows cleaned ↔
  ir ∈ rows cleaned ∧ labelled_as "historical" ir = true.
Proof.
  intros Ht. unfold historical_rows. rewrite decide_True by done.
  rewrite list_elem_of_filter. tauto.
Qed.

Lemma elem_of_forecast_rows cleaned ir :
  "Type" ∈ columns cleaned →
  ir ∈ forecast_rows cleaned ↔
  ir ∈ rows cleaned ∧ labelled_as "forecast" ir = true.
Proof.
  intros Ht. unfold forecast_rows. rewrite decide_True by done.
  rewrite list_elem_of_filter. tauto.
Qed.

Lemma labelled_as_text text i (r : Row) s :
  cell_at "Type" r = CStr s →
  labelled_as text (i, r) = true ↔ Py.lower s = text.
Proof.
  intros Hs. unfold labelled_as. simpl. rewrite Hs. simpl.
  by rewrite bool_decide_eq_true.
Qed.

(** The common part of the two results on labels: a row of the input
    whose label cell becomes the text [t] is kept under that label and
    falls in a partition exactly when [t], in lower case, names it. *)
Lemma label_partition df yc vc i (r0 : Row) t :
  yc ∈ columns df → vc ∈ columns df → "Type" ∈ columns df →
  yc ≠ "Type" → vc ≠ "Type" →
  (i, r0) ∈ rows df →
  str_map Py.strip (astype_str1 (cell_at "Type" r0)) = CStr t →
  notna (to_numeric1 (cell_at yc r0)) = true →
  notna (to_numeric1 (cell_at vc r0)) = true →
  ∃ cleaned hist fcst,
    clean_macro df yc vc = Ok cleaned ∧
    split_hist_fcst cleaned = Ok (hist, fcst) ∧
    let r := coerce_row yc vc true r0 in
    (i, r) ∈ rows cleaned ∧
    cell_at "Type" r = CStr t ∧
    ((i, r) ∈ rows hist ↔ Py.lower t = "historical") ∧
    ((i, r) ∈ rows fcst ↔ Py.lower t = "forecast").
Proof.
  intros Hyc Hvc Ht Hy Hv Hin Hlabel Hcy Hcv.
  destruct (clean_macro_returns df yc vc Hyc Hvc) as [cleaned Hc].
  destruct (clean_macro_rows _ _ _ _ Hc) as [Hcols _].
  exists cleaned. eexists _, _.
  split; [done|]. split; [apply split_hist_fcst_eq|]. simpl.
  pose proof (clean_macro_keeps _ _ _ _ _ _ Hc Hy Hv Hin Hcy Hcv) as Hkept.
  rewrite bool_decide_eq_true_2 in Hkept by done.
  assert (cell_at "Type" (coerce_row yc vc true r0) = CStr t) as Hcell
    by (by rewrite coerce_row_label).
  assert ("Type" ∈ columns cleaned) as Ht' by (by rewrite Hcols).
  split_and!; [done|done| |].
  - rewrite elem_of_historical_rows by done.
    rewrite (labelled_as_text _ _ _ _ Hcell). tauto.
  - rewrite elem_of_forecast_rows by done.
    rewrite (labelled_as_text _ _ _ _ Hcell). tauto.
Qed.
End partitions.

(** * The loader *)

Section loader.
Implicit Types env : Env.

Lemma load_csv_missing env filename log :
  path_exists env (Path.join (BASE_DIR env) filename) = false →
  load_csv env filename log =
    (Raise StopException,
     log ++ [ Error_ ("Missing file: " +:+ Path.join (BASE_DIR env) filename);
              Write [AStr "✅ Running from:"; AStr (BASE_DIR env)];
              Write [AStr "✅ Files available:";
                     AList (listdir env (BASE_DIR env))] ]).
Proof.
  intros Hex. unfold load_csv. rewrite Hex. simpl.
  unfold mbind, App_bind, emit, st_stop. simpl.
  by rewrite <-!app_assoc.
Qed.

Lemma load_csv_present env filename log :
  path_exists env (Path.join (BASE_DIR env) filename) = true →
  load_csv env filename log =
    (read_csv env (Path.join (BASE_DIR env) filename), log).
Proof. intros Hex. unfold load_csv. by rewrite Hex. Qed.
End loader.

(** * Results *)

(** ** The cleaner *)

(** C1, as stated, at the label column taken for the year column: the one
    row of [label_as_year] has the label "Historical", which is no number,
    and [clean_macro] returns the row all the same, with the text "nan" in
    that column. *)
Lemma label_as_year_keeps_uncoerced_row :
  ¬ drops_uncoerced (H:=sample_builtins) label_as_year "Type" "Value".
Proof.
  intros Hd.
  pose (out := labelled ["Type"; "Value"] [(0, [CStr "nan"; CNum (Fin 1)])]).
  destruct (Hd out (0, list_to_map (zip ["Type"; "Value"] [CStr "nan"; CNum (Fin 1)])))
    as (r0 & x & y & Hin & Hx & _).
  - vm_compute. reflexivity.
  - apply list_elem_of_lookup. exists 0. vm_compute. reflexivity.
  - simpl in Hin. apply list_elem_of_singleton in Hin.
    injection Hin as ->. vm_compute in Hx. discriminate.
Qed.

(** C1 (amended): for every table and every pair of columns of the table
    other than the label column "Type", [clean_macro] returns a table that
    is sorted by ascending year and whose every row stems from an input row
    whose year and value cells were coerced to numbers, which it carries;
    the rows [(2021, "2.3", Historical), (2022, "bad", Historical),
    (2023, "1.1", Forecast)] come out as [(2021, 2.3, Historical),
    (2023, 1.1, Forecast)]. *)
Theorem clean_macro_sorted_and_coerced `{PyBuiltins} df year_col value_col :
  year_col ∈ columns df → value_col ∈ columns df →
  year_col ≠ "Type" → value_col ≠ "Type" →
  (∃ out, clean_macro df year_col value_col = Ok out ∧
          sorted_by year_col (rows out)) ∧
  drops_uncoerced df year_col value_col ∧
  clean_macro scenario "Year" "Value" = Ok scenario_cleaned.
Proof.
  intros Hyc Hvc Hy Hv. split_and!.
  - destruct (clean_macro_returns df year_col value_col Hyc Hvc) as [out Hc].
    exists out. split; [done|]. by eapply clean_macro_sorted.
  - by apply clean_macro_drops_uncoerced.
  - vm_compute. reflexivity.
Qed.

Lemma clean_macro_sorted_and_coerced_witness :
  "Year" ∈ columns scenario ∧ "Value" ∈ columns scenario ∧
  "Year" ≠ "Type" ∧ "Value" ≠ "Type" ∧
  (∃ out, clean_macro (H:=sample_builtins) scenario "Year" "Value" = Ok out ∧
          sorted_by "Year" (rows out)) ∧
  drops_uncoerced (H:=sample_builtins) scenario "Year" "Value" ∧
  clean_macro (H:=sample_builtins) scenario "Year" "Value" = Ok scenario_cleaned.
Proof.
  assert ("Year" ∈ columns scenario) as H1 by (by apply (bool_decide_unpack _)).
  assert ("Value" ∈ columns scenario) as H2 by (by apply (bool_decide_unpack _)).
  assert ("Year" ≠ "Type") as H3 by discriminate.
  assert ("Value" ≠ "Type") as H4 by discriminate.
  split_and!; [done..| | |];
    apply (clean_macro_sorted_and_coerced (H:=sample_builtins)
             scenario "Year" "Value" H1 H2 H3 H4).
Defined.

(** C5, as stated, at eighteen rows of one year: the rows of year 2020 do
    not come out in the order in which they came in. *)
Lemma same_year_18_reordered :
  ¬ stable_clean (H:=sample_builtins) same_year_18 "Year" "Value".
Proof.
  intros Hs.
  assert (∃ out, clean_macro (H:=sample_builtins) same_year_18 "Year" "Value"
                 = Ok out) as [out Hout].
  { vm_compute. eexists. reflexivity. }
  specialize (Hs out (CNum (Fin 2020)) Hout).
  vm_compute in Hout. injection Hout as <-.
  apply (f_equal (fmap fst)) in Hs. vm_compute in Hs. discriminate.
Qed.

(** C5 (amended): when at most 17 rows are left after the rows with an
    uncoercible year or value are dropped, the sort of [clean_macro] is
    stable: the rows of one year come out in the order in which they came
    in. *)
Theorem clean_macro_stable_upto_17 `{PyBuiltins} df year_col value_col :
  year_col ∈ columns df → value_col ∈ columns df →
  length (rows (before_sort df year_col value_col)) ≤ 17 →
  (∃ out, clean_macro df year_col value_col = Ok out) ∧
  stable_clean df year_col value_col.
Proof.
  intros Hyc Hvc Hlen. split.
  - by apply clean_macro_returns.
  - by apply clean_macro_stable.
Qed.

Lemma clean_macro_stable_upto_17_witness :
  "Year" ∈ columns tie_3 ∧ "Value" ∈ columns tie_3 ∧
  length (rows (before_sort (H:=sample_builtins) tie_3 "Year" "Value")) ≤ 17 ∧
  (∃ out, clean_macro (H:=sample_builtins) tie_3 "Year" "Value" = Ok out) ∧
  stable_clean (H:=sample_builtins) tie_3 "Year" "Value".
Proof.
  assert ("Year" ∈ columns tie_3) as H1 by (by apply (bool_decide_unpack _)).
  assert ("Value" ∈ columns tie_3) as H2 by (by apply (bool_decide_unpack _)).
  assert (length (rows (before_sort (H:=sample_builtins) tie_3 "Year" "Value")) ≤ 17)
    as H3 by (vm_compute; lia).
  split_and!; [done..| |];
    apply (clean_macro_stable_upto_17 (H:=sample_builtins)
             tie_3 "Year" "Value" H1 H2 H3).
Defined.

(** C7, as stated, at eighteen rows of one year: cleaning the cleaned table
    changes the order of its rows once more. *)
Lemma same_year_18_not_idempotent :
  (clean_macro (H:=sample_builtins) same_year_18 "Year" "Value"
     ≫= λ out, clean_macro (H:=sample_builtins) out "Year" "Value")
  ≠ clean_macro (H:=sample_builtins) same_year_18 "Year" "Value".
Proof.
  intros Heq.
  apply (f_equal (λ r, match r with
                       | Ok d => fst <$> rows d
                       | Raise _ => []
                       end)) in Heq.
  vm_compute in Heq. discriminate.
Qed.

(** C7 (amended): [clean_macro] applied to its own result returns it
    unchanged, for year and value columns other than the label column,
    whenever the cleaned table has at most 17 rows or no year twice. *)
Theorem clean_macro_idempotent_short_or_distinct `{PyBuiltins}
    df year_col value_col :
  year_col ≠ "Type" → value_col ≠ "Type" →
  (∀ out, clean_macro df year_col value_col = Ok out →
     length (rows out) ≤ 17 ∨ distinct_years year_col (rows out)) →
  (clean_macro df year_col value_col
     ≫= λ out, clean_macro out year_col value_col)
  = clean_macro df year_col value_col.
Proof.
  intros Hy Hv Hcase.
  destruct (clean_macro df year_col value_col) as [out|e] eqn:Hc; [|done].
  rewrite bind_Ok. apply (clean_macro_again df); [done..|]. by apply Hcase.
Qed.

Lemma clean_macro_idempotent_short_or_distinct_witness :
  "Year" ≠ "Type" ∧ "Value" ≠ "Type" ∧
  (∀ out, clean_macro (H:=sample_builtins) tie_3 "Year" "Value" = Ok out →
     length (rows out) ≤ 17 ∨ distinct_years "Year" (rows out)) ∧
  (clean_macro (H:=sample_builtins) tie_3 "Year" "Value"
     ≫= λ out, clean_macro (H:=sample_builtins) out "Year" "Value")
  = clean_macro (H:=sample_builtins) tie_3 "Year" "Value".
Proof.
  assert ("Year" ≠ "Type") as H1 by discriminate.
  assert ("Value" ≠ "Type") as H2 by discriminate.
  assert (∀ out, clean_macro (H:=sample_builtins) tie_3 "Year" "Value" = Ok out →
            length (rows out) ≤ 17 ∨ distinct_years "Year" (rows out)) as H3.
  { intros out Hout. left. vm_compute in Hout. injection Hout as <-.
    simpl. lia. }
  split_and!; [done..|].
  apply (clean_macro_idempotent_short_or_distinct (H:=sample_builtins)
           tie_3 "Year" "Value" H1 H2 H3).
Defined.

(** ** Labels *)

(** C3: over a table with a "Type" column, every row of the cleaned table
    has a text for label and is among the historical rows exactly when the
    label in lower case is "historical", among the forecast rows exactly
    when it is "forecast", and so in neither with any other label; with the
    year and the value in columns other than "Type", a row of the input
    whose year and value coerce and whose label is the text [s] is in the
    cleaned table under the label [strip s], so that it is classified by
    [lower (strip s)], and [" Forecast "] counts as forecast. *)
Theorem labels_partition_insensitive `{PyBuiltins} df year_col value_col :
  year_col ∈ columns df → value_col ∈ columns df → "Type" ∈ columns df →
  ∃ cleaned hist fcst,
    clean_macro df year_col value_col = Ok cleaned ∧
    split_hist_fcst cleaned = Ok (hist, fcst) ∧
    (∀ ir, ir ∈ rows cleaned →
       ∃ t, cell_at "Type" (ir.2) = CStr t ∧
            (ir ∈ rows hist ↔ Py.lower t = "historical") ∧
            (ir ∈ rows fcst ↔ Py.lower t = "forecast")) ∧
    (year_col ≠ "Type" → value_col ≠ "Type" →
     ∀ i (r0 : Row) s,
       (i, r0) ∈ rows df → cell_at "Type" r0 = CStr s →
       notna (to_numeric1 (cell_at year_col r0)) = true →
       notna (to_numeric1 (cell_at value_col r0)) = true →
       let r := coerce_row year_col value_col true r0 in
       (i, r) ∈ rows cleaned ∧
       cell_at "Type" r = CStr (Py.strip s) ∧
       ((i, r) ∈ rows hist ↔ Py.lower (Py.strip s) = "historical") ∧
       ((i, r) ∈ rows fcst ↔ Py.lower (Py.strip s) = "forecast") ∧
       (Py.lower (Py.strip s) ≠ "historical" →
        Py.lower (Py.strip s) ≠ "forecast" →
        ((i, r) ∉ rows hist) ∧ ((i, r) ∉ rows fcst))) ∧
    Py.lower (Py.strip " Forecast ") = "forecast".
Proof.
  intros Hyc Hvc Ht.
  destruct (clean_macro_returns df year_col value_col Hyc Hvc) as [cleaned Hc].
  destruct (clean_macro_rows _ _ _ _ Hc) as [Hcols _].
  assert ("Type" ∈ columns cleaned) as Ht' by (by rewrite Hcols).
  exists cleaned. eexists _, _.
  split; [done|]. split; [apply split_hist_fcst_eq|]. cbn [rows].
  assert (∀ ir, ir ∈ rows cleaned →
            ∃ t, cell_at "Type" (ir.2) = CStr t ∧
                 (ir ∈ historical_rows cleaned ↔ Py.lower t = "historical") ∧
                 (ir ∈ forecast_rows cleaned ↔ Py.lower t = "forecast")) as Hall.
  { intros [i r] Hir.
    assert (∃ t, cell_at "Type" r = CStr t) as [t Hcell].
    { pose proof Hir as Hir'.
      apply (clean_macro_row _ _ _ _ _ Hc), before_sort_row in Hir'
        as (r1 & _ & Heq & _).
      rewrite bool_decide_eq_true_2 in Heq by done.
      destruct (coerce_row_label_text year_col value_col r1) as [s Hs].
      exists (Py.strip s). unfold cell_at. cbn [snd] in Heq. by rewrite Heq, Hs. }
    exists t. split; [done|]. split.
    - rewrite elem_of_historical_rows by done.
      rewrite (labelled_as_text _ _ _ _ Hcell). tauto.
    - rewrite elem_of_forecast_rows by done.
      rewrite (labelled_as_text _ _ _ _ Hcell). tauto. }
  split_and!; [done| |done].
  intros Hy Hv i r0 s Hin Hs Hcy Hcv. simpl.
  pose proof (clean_macro_keeps _ _ _ _ _ _ Hc Hy Hv Hin Hcy Hcv) as Hkept.
  rewrite bool_decide_eq_true_2 in Hkept by done.
  assert (cell_at "Type" (coerce_row year_col value_col true r0)
          = CStr (Py.strip s)) as Hcell
    by (by rewrite coerce_row_label, Hs).
  destruct (Hall _ Hkept) as (t & Ht0 & Hh & Hf). cbn [snd] in Ht0.
  rewrite Hcell in Ht0. injection Ht0 as <-.
  split_and!; [done..|]. intros Hnh Hnf. tauto.
Qed.

Lemma labels_partition_insensitive_witness :
  "Year" ∈ columns spaced_labels ∧ "Value" ∈ columns spaced_labels ∧
  "Type" ∈ columns spaced_labels ∧
  ∃ cleaned hist fcst,
    clean_macro (H:=sample_builtins) spaced_labels "Year" "Value" = Ok cleaned ∧
    split_hist_fcst cleaned = Ok (hist, fcst) ∧
    let r := coerce_row (H:=sample_builtins) "Year" "Value" true
               spaced_labels_row in
    (1, r) ∈ rows cleaned ∧
    cell_at "Type" r = CStr "Forecast" ∧
    (1, r) ∈ rows fcst ∧ ((1, r) ∉ rows hist).
Proof.
  assert ("Year" ∈ columns spaced_labels) as H1 by (by apply (bool_decide_unpack _)).
  assert ("Value" ∈ columns spaced_labels) as H2 by (by apply (bool_decide_unpack _)).
  assert ("Type" ∈ columns spaced_labels) as H3 by (by apply (bool_decide_unpack _)).
  split_and!; [done..|].
  destruct (labels_partition_insensitive (H:=sample_builtins)
              spaced_labels "Year" "Value" H1 H2 H3)
    as (cleaned & hist & fcst & Hc & Hsplit & _ & Hrow & _).
  exists cleaned, hist, fcst. split; [done|]. split; [done|].
  destruct (Hrow ltac:(discriminate) ltac:(discriminate)
              1 spaced_labels_row " Forecast ")
    as (Hkept & Hcell & Hh & Hf & _).
  - apply list_elem_of_lookup. exists 1. vm_compute. reflexivity.
  - vm_compute. reflexivity.
  - vm_compute. reflexivity.
  - vm_compute. reflexivity.
  - simpl. split_and!; [done|done| |].
    + apply Hf. vm_compute. reflexivity.
    + rewrite Hh. vm_compute. discriminate.
Defined.

(** C10: with a "Type" column, every label of the cleaned table is a text;
    a row without label whose year and value coerce is in the cleaned
    table under the label "nan" and is neither among the historical nor
    among the forecast rows. *)
Theorem missing_label_is_nan_text `{PyBuiltins} df year_col value_col i (r0 : Row) :
  year_col ∈ columns df → value_col ∈ columns df → "Type" ∈ columns df →
  (i, r0) ∈ rows df → cell_at "Type" r0 = CNaN →
  notna (to_numeric1 (cell_at year_col r0)) = true →
  notna (to_numeric1 (cell_at value_col r0)) = true →
  ∃ cleaned hist fcst,
    clean_macro df year_col value_col = Ok cleaned ∧
    split_hist_fcst cleaned = Ok (hist, fcst) ∧
    (∀ ir, ir ∈ rows cleaned → ∃ s, cell_at "Type" (ir.2) = CStr s) ∧
    let r := coerce_row year_col value_col true r0 in
    (i, r) ∈ rows cleaned ∧
    cell_at "Type" r = CStr "nan" ∧
    ((i, r) ∉ rows hist) ∧ ((i, r) ∉ rows fcst).
Proof.
  intros Hyc Hvc Ht Hin Hnan Hcy Hcv.
  assert (year_col ≠ "Type") as Hy.
  { intros ->. by rewrite Hnan in Hcy. }
  assert (value_col ≠ "Type") as Hv.
  { intros ->. by rewrite Hnan in Hcv. }
  destruct (label_partition df year_col value_col i r0 "nan")
    as (cleaned & hist & fcst & Hc & Hsplit & Hkept & Hcell & Hh & Hf);
    [done..|by rewrite Hnan|done|done|].
  exists cleaned, hist, fcst. simpl in *.
  split_and!; [done|done| |done|done| |].
  - intros ir Hir.
    apply (clean_macro_row _ _ _ _ _ Hc), before_sort_row in Hir
      as (r1 & _ & Heq & _).
    rewrite bool_decide_eq_true_2 in Heq by done.
    destruct (coerce_row_label_text year_col value_col r1) as [s Hs].
    exists (Py.strip s). unfold cell_at. by rewrite Heq, Hs.
  - rewrite Hh. vm_compute. discriminate.
  - rewrite Hf. vm_compute. discriminate.
Qed.

Lemma missing_label_is_nan_text_witness :
  "Year" ∈ columns missing_label ∧ "Value" ∈ columns missing_label ∧
  "Type" ∈ columns missing_label ∧
  (1, missing_label_row) ∈ rows missing_label ∧
  cell_at "Type" missing_label_row = CNaN ∧
  notna (to_numeric1 (cell_at "Year" missing_label_row)) = true ∧
  notna (to_numeric1 (cell_at "Value" missing_label_row)) = true ∧
  ∃ cleaned hist fcst,
    clean_macro (H:=sample_builtins) missing_label "Year" "Value" = Ok cleaned ∧
    split_hist_fcst cleaned = Ok (hist, fcst) ∧
    (∀ ir, ir ∈ rows cleaned → ∃ s, cell_at "Type" (ir.2) = CStr s) ∧
    let r := coerce_row (H:=sample_builtins) "Year" "Value" true missing_label_row in
    (1, r) ∈ rows cleaned ∧
    cell_at "Type" r = CStr "nan" ∧
    ((1, r) ∉ rows hist) ∧ ((1, r) ∉ rows fcst).
Proof.
  assert ("Year" ∈ columns missing_label) as H1 by (by apply (bool_decide_unpack _)).
  assert ("Value" ∈ columns missing_label) as H2 by (by apply (bool_decide_unpack _)).
  assert ("Type" ∈ columns missing_label) as H3 by (by apply (bool_decide_unpack _)).
  assert ((1, missing_label_row) ∈ rows missing_label) as H4.
  { apply list_elem_of_lookup. exists 1. vm_compute. reflexivity. }
  assert (cell_at "Type" missing_label_row = CNaN) as H5
    by (vm_compute; reflexivity).
  assert (notna (to_numeric1 (cell_at "Year" missing_label_row)) = true) as H6
    by (vm_compute; reflexivity).
  assert (notna (to_numeric1 (cell_at "Value" missing_label_row)) = true) as H7
    by (vm_compute; reflexivity).
  split_and!; [done..|].
  apply (missing_label_is_nan_text (H:=sample_builtins)
           missing_label "Year" "Value" 1 missing_label_row
           H1 H2 H3 H4 H5 H6 H7).
Defined.

(** ** The scorecard *)

Lemma filter_swap_last {A} (P : A → Prop) `{!∀ x, Decision (P x)} (a b c d : A) :
  ¬ (P c ∧ P d) → filter P [a; b; d; c] = filter P [a; b; c; d].
Proof.
  intros Hcd. rewrite !filter_cons, !filter_nil.
  destruct (decide (P a)), (decide (P b)), (decide (P c)), (decide (P d));
    tauto || done.
Qed.

(** C4: the scorecard is the literal table of four sectors in descending
    order of their overall score; sectors with the same score stay in the
    order of the literal table, so the first two lines are Healthcare & Life
    Sciences and then Aerospace & Défense, both at 8.5. *)
Theorem scorecard_sorted_ties_in_order :
  ∃ sc, scorecard = Ok sc ∧
    columns sc = columns scorecard_literal ∧
    rows sc =
      [ (0, sector "Healthcare & Life Sciences (Health 2030)" 9 9 7 8.5);
        (1, sector ("Aerospace & D" +:+ String "233" "fense") 8 8 9 8.5);
        (3, sector "Agri-Food Tech" 8 8 7 7.8);
        (2, sector "Luxury & High-End Tourism" 6 7 9 7.5) ] ∧
    rows sc ≡ₚ rows scorecard_literal ∧
    column_of "Overall" (rows sc) =
      [CNum (Fin 8.5); CNum (Fin 8.5); CNum (Fin 7.8); CNum (Fin 7.5)] ∧
    StronglySorted (λ a b, cell_le b a) (column_of "Overall" (rows sc)) ∧
    ∀ k, filter (λ ir, cell_eqv (cell_at "Overall" (ir.2)) k = true) (rows sc)
         = filter (λ ir, cell_eqv (cell_at "Overall" (ir.2)) k = true)
             (rows scorecard_literal).
Proof.
  exists {| columns := columns scorecard_literal;
            rows :=
              [ (0, sector "Healthcare & Life Sciences (Health 2030)" 9 9 7 8.5);
                (1, sector ("Aerospace & D" +:+ String "233" "fense") 8 8 9 8.5);
                (3, sector "Agri-Food Tech" 8 8 7 7.8);
                (2, sector "Luxury & High-End Tourism" 6 7 9 7.5) ] |}.
  split; [vm_compute; reflexivity|].
  split; [reflexivity|]. split; [reflexivity|].
  split.
  { cbn [rows scorecard_literal]. do 2 f_equiv. apply Permutation_swap. }
  split; [vm_compute; reflexivity|].
  split.
  { match goal with
    | |- StronglySorted _ ?l =>
        assert (l = [CNum (Fin 8.5); CNum (Fin 8.5); CNum (Fin 7.8); CNum (Fin 7.5)])
          as -> by (vm_compute; reflexivity)
    end.
    repeat (apply SSorted_cons; [|repeat constructor]); constructor. }
  intros k. cbn [rows scorecard_literal].
  apply (filter_swap_last
           (λ ir : nat * Row, cell_eqv (cell_at "Overall" (ir.2)) k = true)).
  intros [H2 H3]. cbn [snd] in H2, H3.
  rewrite cell_eqv_sym in H3.
  pose proof (cell_eqv_trans _ _ _ H2 H3) as Habs.
  vm_compute in Habs. discriminate.
Qed.

(** ** The loader *)

(** C2: when the file is not in the directory of the script, [load_csv]
    reports the path it looked for, the directory and what the directory
    holds, which is not nothing since the script is there, and stops the
    script, whatever was to follow; when the file is there, [load_csv]
    returns the table read from it and reports nothing. *)
Theorem load_csv_missing_or_parsed env filename log :
  Path.basename (script_path env) ∈ listdir env (BASE_DIR env) →
  let path := Path.join (BASE_DIR env) filename in
  let report :=
    [ Error_ ("Missing file: " +:+ path);
      Write [AStr "✅ Running from:"; AStr (BASE_DIR env)];
      Write [AStr "✅ Files available:"; AList (listdir env (BASE_DIR env))] ] in
  (path_exists env path = false →
     load_csv env filename log = (Raise StopException, log ++ report) ∧
     listdir env (BASE_DIR env) ≠ [] ∧
     ∀ B (k : DataFrame → App B),
       (load_csv env filename ≫= k) log = (Raise StopException, log ++ report)) ∧
  (path_exists env path = true →
     load_csv env filename log = (read_csv env path, log)).
Proof.
  intros Hscript path report. split.
  - intros Hex. pose proof (load_csv_missing env filename log Hex) as Hl.
    split_and!; [done| |].
    + intros Hnil. rewrite Hnil in Hscript. by apply elem_of_nil in Hscript.
    + intros B k. unfold mbind, App_bind. by rewrite Hl.
  - apply load_csv_present.
Qed.

Lemma load_csv_missing_or_parsed_witness :
  Path.basename (script_path sample_env)
    ∈ listdir sample_env (BASE_DIR sample_env) ∧
  load_csv sample_env "france_lpi.csv" [] =
    (Raise StopException,
     [ Error_ "Missing file: /srv/app/france_lpi.csv";
       Write [AStr "✅ Running from:"; AStr "/srv/app"];
       Write [AStr "✅ Files available:"; AList ["app.py"; "france_gdp.csv"]] ]) ∧
  load_csv sample_env "france_gdp.csv" [] = (Ok scenario, []).
Proof.
  assert (Path.basename (script_path sample_env)
            ∈ listdir sample_env (BASE_DIR sample_env)) as H1
    by (by apply (bool_decide_unpack _)).
  destruct (load_csv_missing_or_parsed sample_env "france_lpi.csv" [] H1)
    as [Hmiss _].
  destruct (load_csv_missing_or_parsed sample_env "france_gdp.csv" [] H1)
    as [_ Hthere].
  split_and!; [done| |].
  - apply Hmiss. vm_compute. reflexivity.
  - apply Hthere. vm_compute. reflexivity.
Defined.

(** A page whose first data file is missing ends after the three lines of
    the report: nothing of the page below the caption is shown. *)
Lemma main_stops_without_gdp `{PyBuiltins} env ctl :
  path_exists env (Path.join (BASE_DIR env) "france_gdp.csv") = false →
  ∃ shown, main env ctl [] = (Raise StopException, shown) ∧ length shown = 6.
Proof.
  intros Hex. unfold main.
  unfold mbind at 1, App_bind at 1. cbn [emit app].
  unfold mbind at 1, App_bind at 1. cbn [emit app].
  unfold mbind at 1, App_bind at 1. cbn [emit app].
  unfold mbind at 1, App_bind at 1.
  rewrite (load_csv_missing _ _ _ Hex). eexists. split; [reflexivity|done].
Qed.

(** ** The chart *)

(** C6: when nothing is left after cleaning, [plot_hist_forecast_band]
    returns a figure, and the figure shows the band and the dashed line at
    its centre and nothing else: no historical and no forecast line. *)
Theorem empty_series_chart `{PyBuiltins}
    df year_col value_col title y_label band_center band_width cleaned :
  clean_macro df year_col value_col = Ok cleaned →
  rows cleaned = [] →
  ∃ fig,
    plot_hist_forecast_band df year_col value_col title y_label
      band_center band_width = Ok fig ∧
    artists fig =
      [ HSpan (band_center - band_width / 2) (band_center + band_width / 2)
          band_props;
        HLine band_center center_props ] ∧
    xticks fig = Some [].
Proof.
  intros Hc Hnil.
  rewrite (plot_hist_forecast_band_eq _ _ _ _ _ _ _ _ Hc), Hnil.
  eexists. split; [reflexivity|]. split; [|done].
  cbn [artists figure_of]. unfold drawn, historical_rows, forecast_rows.
  rewrite Hnil. by destruct (decide _).
Qed.

Lemma empty_series_chart_witness :
  clean_macro (H:=sample_builtins) nothing_usable "Year" "Value"
    = Ok {| columns := ["Year"; "Value"; "Type"]; rows := [] |} ∧
  ∃ fig,
    plot_hist_forecast_band (H:=sample_builtins) nothing_usable "Year" "Value"
      "GDP growth" "%" 0.5 1.2 = Ok fig ∧
    artists fig =
      [ HSpan (0.5 - 1.2 / 2) (0.5 + 1.2 / 2) band_props;
        HLine 0.5 center_props ] ∧
    xticks fig = Some [].
Proof.
  assert (clean_macro (H:=sample_builtins) nothing_usable "Year" "Value"
          = Ok {| columns := ["Year"; "Value"; "Type"]; rows := [] |}) as H1
    by (vm_compute; reflexivity).
  split; [done|].
  apply (empty_series_chart (H:=sample_builtins) nothing_usable "Year" "Value"
           "GDP growth" "%" 0.5 1.2 _ H1 eq_refl).
Defined.

(** C8: the figure that [plot_hist_forecast_band] returns, and it returns
    one whenever the cleaned years are finite numbers, shows first the band
    from [band_center - band_width / 2] to [band_center + band_width / 2];
    the lower bound is at most the upper one when the width is not
    negative. *)
Theorem band_bounds `{PyBuiltins}
    df year_col value_col title y_label band_center band_width cleaned :
  clean_macro df year_col value_col = Ok cleaned →
  (Forall (λ c, ∃ q, c = CNum (Fin q)) (column_of year_col (rows cleaned)) →
   ∃ fig, plot_hist_forecast_band df year_col value_col title y_label
            band_center band_width = Ok fig) ∧
  (∀ fig,
     plot_hist_forecast_band df year_col value_col title y_label
       band_center band_width = Ok fig →
     ∃ rest,
       artists fig =
         HSpan (band_center - band_width / 2) (band_center + band_width / 2)
           band_props
         :: HLine band_center center_props :: rest) ∧
  (0 <= band_width →
   band_center - band_width / 2 <= band_center + band_width / 2)%Q.
Proof.
  intros Hc. split_and!.
  - intros Hfin.
    destruct (plot_hist_forecast_band_returns df year_col value_col title y_label
                band_center band_width cleaned Hc Hfin) as [years Hp].
    by eexists.
  - intros fig Hp.
    rewrite (plot_hist_forecast_band_artists _ _ _ _ _ _ _ _ _ Hc Hp).
    unfold drawn. eexists. reflexivity.
  - intros Hw.
    assert (0 <= band_width / 2)%Q as Hhalf.
    { apply Qle_shift_div_l; [reflexivity|]. by rewrite Qmult_0_l. }
    revert Hhalf. generalize (band_width / 2)%Q. intros half Hhalf. lra.
Qed.

Lemma band_bounds_witness :
  clean_macro (H:=sample_builtins) scenario "Year" "Value" = Ok scenario_cleaned ∧
  (Forall (λ c, ∃ q, c = CNum (Fin q)) (column_of "Year" (rows scenario_cleaned)) →
   ∃ fig, plot_hist_forecast_band (H:=sample_builtins) scenario "Year" "Value"
            "GDP growth" "%" 0.5 1.2 = Ok fig) ∧
  (∀ fig,
     plot_hist_forecast_band (H:=sample_builtins) scenario "Year" "Value"
       "GDP growth" "%" 0.5 1.2 = Ok fig →
     ∃ rest,
       artists fig =
         HSpan (0.5 - 1.2 / 2) (0.5 + 1.2 / 2) band_props
         :: HLine 0.5 center_props :: rest) ∧
  (0 <= 1.2 → 0.5 - 1.2 / 2 <= 0.5 + 1.2 / 2)%Q.
Proof.
  assert (clean_macro (H:=sample_builtins) scenario "Year" "Value"
          = Ok scenario_cleaned) as H1 by (vm_compute; reflexivity).
  split; [done|].
  apply (band_bounds (H:=sample_builtins) scenario "Year" "Value"
           "GDP growth" "%" 0.5 1.2 scenario_cleaned H1).
Defined.

(** C9: the figure that [plot_hist_forecast_band] returns, and it returns
    one whenever the cleaned years are finite numbers, has one connector,
    from the last historical row to the first forecast row of the cleaned
    table, when there are rows of both kinds, and no connector when there
    are none of one kind. *)
Theorem connector_between_partitions `{PyBuiltins}
    df year_col value_col title y_label band_center band_width cleaned :
  clean_macro df year_col value_col = Ok cleaned →
  split_hist_fcst cleaned =
    Ok ({| columns := columns cleaned; rows := historical_rows cleaned |},
        {| columns := if decide ("Type" ∈ columns cleaned)
                      then columns cleaned else [];
           rows := forecast_rows cleaned |}) ∧
  (Forall (λ c, ∃ q, c = CNum (Fin q)) (column_of year_col (rows cleaned)) →
   ∃ fig, plot_hist_forecast_band df year_col value_col title y_label
            band_center band_width = Ok fig) ∧
  (∀ fig,
     plot_hist_forecast_band df year_col value_col title y_label
       band_center band_width = Ok fig →
     filter (λ a, is_connector a = true) (artists fig) =
       match last (historical_rows cleaned), forecast_rows cleaned with
       | Some h, f :: _ => [connector year_col value_col h f]
       | _, _ => []
       end).
Proof.
  intros Hc. split_and!.
  - apply split_hist_fcst_eq.
  - intros Hfin.
    destruct (plot_hist_forecast_band_returns df year_col value_col title y_label
                band_center band_width cleaned Hc Hfin) as [years Hp].
    by eexists.
  - intros fig Hp.
    rewrite (plot_hist_forecast_band_artists _ _ _ _ _ _ _ _ _ Hc Hp).
    unfold drawn.
    destruct (historical_rows cleaned) as [|h hs] eqn:Hh;
      destruct (forecast_rows cleaned) as [|f fs] eqn:Hf.
    4: destruct (last (h :: hs)) as [hl|] eqn:Hl;
         [|by apply last_None in Hl].
    all: cbn [app last]; unfold connector.
    all: repeat first
      [ rewrite filter_nil
      | rewrite filter_cons_True by (vm_compute; reflexivity)
      | rewrite filter_cons_False by (vm_compute; intros ?; discriminate) ].
    all: try reflexivity.
    by destruct (last (h :: hs)).
Qed.

Lemma connector_between_partitions_witness :
  clean_macro (H:=sample_builtins) scenario "Year" "Value" = Ok scenario_cleaned ∧
  ∃ fig,
    plot_hist_forecast_band (H:=sample_builtins) scenario "Year" "Value"
      "GDP growth" "%" 0.5 1.2 = Ok fig ∧
    filter (λ a, is_connector a = true) (artists fig) =
      [connector "Year" "Value" scenario_historical scenario_forecast].
Proof.
  assert (clean_macro (H:=sample_builtins) scenario "Year" "Value"
          = Ok scenario_cleaned) as H1 by (vm_compute; reflexivity).
  split; [done|].
  destruct (connector_between_partitions (H:=sample_builtins) scenario
              "Year" "Value" "GDP growth" "%" 0.5 1.2 scenario_cleaned H1)
    as (_ & Hret & Hconn).
  destruct Hret as [fig Hfig].
  { repeat constructor; eexists; vm_compute; reflexivity. }
  exists fig. split; [done|].
  rewrite (Hconn fig Hfig). vm_compute. reflexivity.
Defined.

(** * Further results on the cleaner *)

Section cleaner_more.
Context `{PyBuiltins}.
Implicit Types df out : DataFrame.

Lemma clean_macro_no_year df yc vc :
  yc ∉ columns df → clean_macro df yc vc = Raise (KeyError yc).
Proof. intros Hy. unfold clean_macro, copy. by rewrite getitem_Raise. Qed.

Lemma clean_macro_no_value df yc vc :
  yc ∈ columns df → vc ∉ columns df →
  clean_macro df yc vc = Raise (KeyError vc).
Proof.
  intros Hy Hv. unfold clean_macro, copy.
  rewrite getitem_Ok, bind_Ok by done. cbv zeta.
  rewrite getitem_Raise; [done|]. unfold to_numeric. by rewrite setitem_map.
Qed.

Lemma filter_fmap_labels {A} (P : nat * A → Prop) `{!∀ x, Decision (P x)}
    (g : nat * A → A) (l : list (nat * A)) :
  sublist (filter P ((λ r, (r.1, g r)) <$> l)).*1 l.*1.
Proof.
  induction l as [|[i r] l IH]; [done|].
  rewrite fmap_cons, filter_cons.
  destruct (decide (P ((i, r).1, g (i, r)))); rewrite ?fmap_cons.
  - by apply sublist_skip.
  - by apply sublist_cons.
Qed.

Lemma filter_fmap_length {A B} (P : B → Prop) (Q : A → Prop)
    `{!∀ x, Decision (P x)} `{!∀ x, Decision (Q x)} (f : A → B) (l : list A) :
  (∀ x, P (f x) ↔ Q x) →
  length (filter P (f <$> l)) = length (filter Q l).
Proof.
  intros HPQ. induction l as [|x l IH]; [done|].
  rewrite fmap_cons, !filter_cons.
  destruct (decide (P (f x))) as [HP|HP], (decide (Q x)) as [HQ|HQ];
    cbn [length]; rewrite ?IH; try done; by apply HPQ in HP || apply HPQ in HQ.
Qed.

Lemma before_sort_labels df yc vc :
  sublist (rows (before_sort df yc vc)).*1 (rows df).*1.
Proof.
  unfold before_sort. cbn [rows].
  apply (filter_fmap_labels
           (λ r : nat * Row, complete yc vc r.2 = true)
           (λ r, coerce_row yc vc (bool_decide ("Type" ∈ columns df)) r.2)).
Qed.

Lemma complete_coerce_row yc vc b (r : Row) :
  yc ≠ "Type" → vc ≠ "Type" →
  complete yc vc (coerce_row yc vc b r) = usable yc vc r.
Proof.
  intros Hy Hv. unfold complete, usable.
  by rewrite coerce_row_year, coerce_row_value.
Qed.

Lemma before_sort_length df yc vc :
  yc ≠ "Type" → vc ≠ "Type" →
  length (rows (before_sort df yc vc))
  = length (filter (λ ir, usable yc vc ir.2 = true) (rows df)).
Proof.
  intros Hy Hv. unfold before_sort. cbn [rows].
  apply filter_fmap_length. intros [i r]. cbn [fst snd].
  by rewrite complete_coerce_row.
Qed.

Lemma coerce_row_lookup_other yc vc b (r : Row) c :
  c ≠ yc → c ≠ vc → (b = true → c ≠ "Type") →
  coerce_row yc vc b r !! c = r !! c.
Proof.
  intros Hy Hv Ht. unfold coerce_row. destruct b.
  - rewrite !lookup_insert_ne; [done|by apply not_eq_sym..|].
    apply not_eq_sym. by apply Ht.
  - by rewrite !lookup_insert_ne by by apply not_eq_sym.
Qed.

Lemma strip_trimmed s : trimmed (Py.strip s).
Proof.
  unfold trimmed, Py.strip. split; [|apply rstrip_idem].
  destruct (lstrip_head s) as [->|(c & t & -> & Hc)]; [done|].
  destruct (rstrip_head c t) as [->|[r ->]]; [done|].
  by apply lstrip_noop.
Qed.
End cleaner_more.

(** X1: [clean_macro] returns a table exactly when the table has both the
    year and the value column; without the year column it raises
    [KeyError] on the year column, with the year but without the value
    column it raises [KeyError] on the value column.  Nothing else makes it
    fail. *)
Theorem clean_macro_fails_on_missing_column_only `{PyBuiltins}
    df year_col value_col :
  ((∃ out, clean_macro df year_col value_col = Ok out)
   ↔ year_col ∈ columns df ∧ value_col ∈ columns df) ∧
  (year_col ∉ columns df →
   clean_macro df year_col value_col = Raise (KeyError year_col)) ∧
  (year_col ∈ columns df → value_col ∉ columns df →
   clean_macro df year_col value_col = Raise (KeyError value_col)).
Proof.
  split_and!.
  - split.
    + intros [out Hc]. by eapply clean_macro_Ok_inv.
    + intros [Hy Hv]. by apply clean_macro_returns.
  - apply clean_macro_no_year.
  - apply clean_macro_no_value.
Qed.

Lemma clean_macro_fails_on_missing_column_only_witness :
  (∃ out, clean_macro (H:=sample_builtins) scenario "Year" "Value" = Ok out) ∧
  clean_macro (H:=sample_builtins) no_value_column "Date" "Value"
    = Raise (KeyError "Date") ∧
  clean_macro (H:=sample_builtins) no_value_column "Year" "Value"
    = Raise (KeyError "Value").
Proof.
  destruct (clean_macro_fails_on_missing_column_only (H:=sample_builtins)
              scenario "Year" "Value") as (Hret & _ & _).
  destruct (clean_macro_fails_on_missing_column_only (H:=sample_builtins)
              no_value_column "Date" "Value") as (_ & Hyear & _).
  destruct (clean_macro_fails_on_missing_column_only (H:=sample_builtins)
              no_value_column "Year" "Value") as (_ & _ & Hvalue).
  split_and!.
  - apply Hret. split; by apply (bool_decide_unpack _).
  - apply Hyear. by apply (bool_decide_unpack _).
  - apply Hvalue; by apply (bool_decide_unpack _).
Defined.

(** X2: the table that [clean_macro] returns has the columns of the input,
    in the same order; its index labels are, up to their order, a
    selection of the input's index labels, so there are never more rows
    than in the input and no label comes out twice that went in once. *)
Theorem clean_macro_keeps_columns_and_labels `{PyBuiltins}
    df year_col value_col out :
  clean_macro df year_col value_col = Ok out →
  columns out = columns df ∧
  (∃ kept, sublist kept (rows df).*1 ∧ (rows out).*1 ≡ₚ kept) ∧
  length (rows out) ≤ length (rows df) ∧
  (NoDup (rows df).*1 → NoDup (rows out).*1).
Proof.
  intros Hc. pose proof (clean_macro_perm _ _ _ _ Hc) as Hp.
  pose proof (before_sort_labels df year_col value_col) as Hs.
  destruct (clean_macro_rows _ _ _ _ Hc) as [Hcols _].
  split_and!; [done| | |].
  - exists (rows (before_sort df year_col value_col)).*1.
    split; [done|]. by rewrite Hp.
  - rewrite Hp. apply sublist_length in Hs. by rewrite !length_fmap in Hs.
  - intros Hnd. rewrite Hp. by eapply sublist_NoDup.
Qed.

Lemma clean_macro_keeps_columns_and_labels_witness :
  clean_macro (H:=sample_builtins) scenario "Year" "Value" = Ok scenario_cleaned ∧
  columns scenario_cleaned = columns scenario ∧
  (∃ kept, sublist kept (rows scenario).*1 ∧ (rows scenario_cleaned).*1 ≡ₚ kept) ∧
  length (rows scenario_cleaned) ≤ length (rows scenario) ∧
  (NoDup (rows scenario).*1 → NoDup (rows scenario_cleaned).*1).
Proof.
  assert (clean_macro (H:=sample_builtins) scenario "Year" "Value"
          = Ok scenario_cleaned) as H1 by (vm_compute; reflexivity).
  split; [done|].
  apply (clean_macro_keeps_columns_and_labels (H:=sample_builtins)
           scenario "Year" "Value" scenario_cleaned H1).
Defined.

(** X3: with the year and the value in columns other than "Type",
    [clean_macro] loses no usable row: every row of the input whose year
    and value can be coerced is in the result, under its index label and
    with the two numbers, and the result has as many rows as the input has
    usable ones. *)
Theorem clean_macro_keeps_every_usable_row `{PyBuiltins}
    df year_col value_col out :
  year_col ≠ "Type" → value_col ≠ "Type" →
  clean_macro df year_col value_col = Ok out →
  (∀ i (r0 : Row), (i, r0) ∈ rows df → usable year_col value_col r0 = true →
     ∃ r : Row, (i, r) ∈ rows out ∧
       cell_at year_col r = to_numeric1 (cell_at year_col r0) ∧
       cell_at value_col r = to_numeric1 (cell_at value_col r0)) ∧
  length (rows out)
  = length (filter (λ ir, usable year_col value_col ir.2 = true) (rows df)).
Proof.
  intros Hy Hv Hc. split.
  - intros i r0 Hin Hu. unfold usable in Hu.
    apply andb_true_iff in Hu as [Huy Huv].
    exists (coerce_row year_col value_col (bool_decide ("Type" ∈ columns df)) r0).
    split; [by eapply clean_macro_keeps|].
    by rewrite coerce_row_year, coerce_row_value.
  - rewrite (clean_macro_perm _ _ _ _ Hc). by apply before_sort_length.
Qed.

Lemma clean_macro_keeps_every_usable_row_witness :
  "Year" ≠ "Type" ∧ "Value" ≠ "Type" ∧
  clean_macro (H:=sample_builtins) scenario "Year" "Value" = Ok scenario_cleaned ∧
  (∀ i (r0 : Row), (i, r0) ∈ rows scenario →
     usable (H:=sample_builtins) "Year" "Value" r0 = true →
     ∃ r : Row, (i, r) ∈ rows scenario_cleaned ∧
       cell_at "Year" r = to_numeric1 (cell_at "Year" r0) ∧
       cell_at "Value" r = to_numeric1 (cell_at "Value" r0)) ∧
  length (rows scenario_cleaned)
  = length (filter (λ ir, usable (H:=sample_builtins) "Year" "Value" ir.2 = true)
              (rows scenario)).
Proof.
  assert ("Year" ≠ "Type") as H1 by discriminate.
  assert ("Value" ≠ "Type") as H2 by discriminate.
  assert (clean_macro (H:=sample_builtins) scenario "Year" "Value"
          = Ok scenario_cleaned) as H3 by (vm_compute; reflexivity).
  split_and!; [done..| |];
    apply (clean_macro_keeps_every_usable_row (H:=sample_builtins)
             scenario "Year" "Value" scenario_cleaned H1 H2 H3).
Defined.

(** X4: [clean_macro] rewrites the year column, the value column and, when
    the table has one, the "Type" column, and nothing else: every row of
    the result agrees in all other columns with the input row of the same
    index label. *)
Theorem clean_macro_leaves_other_columns `{PyBuiltins}
    df year_col value_col out :
  clean_macro df year_col value_col = Ok out →
  ∀ i (r : Row), (i, r) ∈ rows out →
    ∃ r0 : Row, (i, r0) ∈ rows df ∧
      ∀ c, c ≠ year_col → c ≠ value_col →
           (c ≠ "Type" ∨ "Type" ∉ columns df) → r !! c = r0 !! c.
Proof.
  intros Hc i r Hin.
  apply (clean_macro_row _ _ _ _ _ Hc), before_sort_row in Hin
    as (r0 & Hin & Heq & _).
  cbn [fst snd] in Hin, Heq. exists r0. split; [done|].
  intros c Hy Hv Ht. rewrite Heq. apply coerce_row_lookup_other; [done..|].
  intros Hb%bool_decide_eq_true. by destruct Ht.
Qed.

Lemma clean_macro_leaves_other_columns_witness :
  clean_macro (H:=sample_builtins) unlabelled "Year" "Value"
  = Ok (labelled ["Year"; "Value"; "Note"]
          [ (1, [CNum (Fin 2021); CNum (Fin 2.3); CNaN]);
            (0, [CNum (Fin 2023); CNum (Fin 1.1); CStr " kept as is "]) ]) ∧
  ∀ i (r : Row),
    (i, r) ∈ rows (labelled ["Year"; "Value"; "Note"]
                     [ (1, [CNum (Fin 2021); CNum (Fin 2.3); CNaN]);
                       (0, [CNum (Fin 2023); CNum (Fin 1.1); CStr " kept as is "]) ]) →
    ∃ r0 : Row, (i, r0) ∈ rows unlabelled ∧
      ∀ c, c ≠ "Year" → c ≠ "Value" →
           (c ≠ "Type" ∨ "Type" ∉ columns unlabelled) → r !! c = r0 !! c.
Proof.
  assert (clean_macro (H:=sample_builtins) unlabelled "Year" "Value"
          = Ok (labelled ["Year"; "Value"; "Note"]
                  [ (1, [CNum (Fin 2021); CNum (Fin 2.3); CNaN]);
                    (0, [CNum (Fin 2023); CNum (Fin 1.1); CStr " kept as is "]) ]))
    as H1 by (vm_compute; reflexivity).
  split; [done|].
  apply (clean_macro_leaves_other_columns (H:=sample_builtins)
           unlabelled "Year" "Value" _ H1).
Defined.

(** X5: over a table with a "Type" column, every label of the table that
    [clean_macro] returns is a text without white space at its beginning
    or at its end, whatever the year and value columns are. *)
Theorem clean_macro_labels_trimmed `{PyBuiltins} df year_col value_col out :
  "Type" ∈ columns df →
  clean_macro df year_col value_col = Ok out →
  ∀ ir, ir ∈ rows out → ∃ t, cell_at "Type" (ir.2) = CStr t ∧ trimmed t.
Proof.
  intros Ht Hc ir Hin.
  apply (clean_macro_row _ _ _ _ _ Hc), before_sort_row in Hin
    as (r0 & _ & Heq & _).
  rewrite bool_decide_eq_true_2 in Heq by done.
  destruct (coerce_row_label_text year_col value_col r0) as [s Hs].
  exists (Py.strip s). split; [|apply strip_trimmed].
  unfold cell_at. by rewrite Heq, Hs.
Qed.

Lemma clean_macro_labels_trimmed_witness :
  "Type" ∈ columns spaced_labels ∧
  (∃ out, clean_macro (H:=sample_builtins) spaced_labels "Year" "Value" = Ok out ∧
     ∀ ir, ir ∈ rows out → ∃ t, cell_at "Type" (ir.2) = CStr t ∧ trimmed t).
Proof.
  assert ("Type" ∈ columns spaced_labels) as H1 by (by apply (bool_decide_unpack _)).
  split; [done|].
  assert (∃ out, clean_macro (H:=sample_builtins) spaced_labels "Year" "Value"
                 = Ok out) as [out H2] by (vm_compute; eexists; reflexivity).
  exists out. split; [done|].
  apply (clean_macro_labels_trimmed (H:=sample_builtins)
           spaced_labels "Year" "Value" out H1 H2).
Defined.

(** * Further results on the charts *)

Section years.
Context `{PyBuiltins}.
Implicit Types df cleaned : DataFrame.

(** [astype(int)] on a column of numbers: the fractions are cut off, and
    an infinite number makes it fail. *)
Lemma astype_int_numbers (s : Series) :
  Forall (λ c, ∃ x, c = CNum x) s →
  astype_int s = if forallb finite_cell s then Ok (year_of <$> s)
                 else Raise IntCastingNaNError.
Proof.
  unfold astype_int. induction 1 as [|c s [x ->] _ IH]; [done|].
  cbn [mapM forallb]. destruct x as [|q|]; [done| |done].
  cbn [astype_int1 finite_cell andb]. rewrite bind_Ok, IH.
  by destruct (forallb finite_cell s).
Qed.




Lemma StronglySorted_filter {A} (R : relation A) (P : A → Prop)
    `{!∀ x, Decision (P x)} (l : list A) :
  StronglySorted R l → StronglySorted R (filter P l).
Proof.
  induction 1 as [|x l Hs IH Hx]; [constructor|].
  rewrite filter_cons. destruct (decide (P x)); [|done].
  constructor; [done|]. rewrite Forall_forall in Hx |- *.
  intros y [_ Hy]%list_elem_of_filter. by apply Hx.
Qed.

Lemma sorted_by_column yc (rs : list (nat * Row)) :
  sorted_by yc rs → StronglySorted cell_le (column_of yc rs).
Proof.
  unfold sorted_by, column_of. induction 1 as [|r rs Hs IH Hr]; [constructor|].
  csimpl. constructor; [done|]. by rewrite Forall_fmap.
Qed.

Lemma cleaned_years_numbers df yc vc cleaned :
  yc ≠ "Type" → vc ≠ "Type" → clean_macro df yc vc = Ok cleaned →
  Forall (λ c, ∃ x, c = CNum x) (column_of yc (rows cleaned)).
Proof.
  intros Hy Hv Hc. unfold column_of. rewrite Forall_fmap, Forall_forall.
  intros ir Hin.
  destruct (clean_macro_drops_uncoerced df yc vc Hy Hv cleaned ir Hc Hin)
    as (r0 & x & y & _ & _ & _ & Hx & _).
  exists x. done.
Qed.

(** The chart of a table whose years are numbers. *)
Lemma plot_hist_forecast_band_numbers df yc vc title y_label c w cleaned :
  yc ≠ "Type" → vc ≠ "Type" → clean_macro df yc vc = Ok cleaned →
  plot_hist_forecast_band df yc vc title y_label c w =
    if forallb finite_cell (column_of yc (rows cleaned))
    then Ok (figure_of cleaned yc vc title y_label c w
               (year_of <$> column_of yc (rows cleaned)))
    else Raise IntCastingNaNError.
Proof.
  intros Hy Hv Hc. rewrite (plot_hist_forecast_band_eq _ _ _ _ _ _ _ _ Hc).
  rewrite astype_int_numbers by by eapply cleaned_years_numbers.
  by destruct (forallb _ _).
Qed.

Lemma plot_hist_forecast_band_no_clean df yc vc title y_label c w e :
  clean_macro df yc vc = Raise e →
  plot_hist_forecast_band df yc vc title y_label c w = Raise e.
Proof. intros Hc. unfold plot_hist_forecast_band. by rewrite Hc. Qed.
End years.

(** X6: [plot_hist_forecast_band] fails in these ways and no other, for
    year and value columns other than "Type": with [KeyError] on the first
    of the year and the value column that the table lacks, as the cleaner
    does, and with [IntCastingNaNError] when a year of the cleaned table
    is infinite; otherwise it returns a figure. *)
Theorem plot_hist_forecast_band_failures `{PyBuiltins}
    df year_col value_col title y_label band_center band_width :
  (year_col ∉ columns df →
   plot_hist_forecast_band df year_col value_col title y_label
     band_center band_width = Raise (KeyError year_col)) ∧
  (year_col ∈ columns df → value_col ∉ columns df →
   plot_hist_forecast_band df year_col value_col title y_label
     band_center band_width = Raise (KeyError value_col)) ∧
  (year_col ≠ "Type" → value_col ≠ "Type" →
   ∀ cleaned, clean_macro df year_col value_col = Ok cleaned →
     if forallb finite_cell (column_of year_col (rows cleaned))
     then ∃ fig, plot_hist_forecast_band df year_col value_col title y_label
                   band_center band_width = Ok fig
     else plot_hist_forecast_band df year_col value_col title y_label
            band_center band_width = Raise IntCastingNaNError).
Proof.
  split_and!.
  - intros Hy. by apply plot_hist_forecast_band_no_clean, clean_macro_no_year.
  - intros Hy Hv.
    by apply plot_hist_forecast_band_no_clean, clean_macro_no_value.
  - intros Hy Hv cleaned Hc.
    rewrite (plot_hist_forecast_band_numbers _ _ _ _ _ _ _ _ Hy Hv Hc).
    destruct (forallb _ _); [by eexists|done].
Qed.

Lemma plot_hist_forecast_band_failures_witness :
  plot_hist_forecast_band (H:=sample_builtins) no_value_column "Date" "Value"
    "GDP growth" "%" 0.5 1.2 = Raise (KeyError "Date") ∧
  plot_hist_forecast_band (H:=sample_builtins) no_value_column "Year" "Value"
    "GDP growth" "%" 0.5 1.2 = Raise (KeyError "Value") ∧
  plot_hist_forecast_band (H:=sample_builtins) endless_year "Year" "Value"
    "GDP growth" "%" 0.5 1.2 = Raise IntCastingNaNError ∧
  ∃ fig, plot_hist_forecast_band (H:=sample_builtins) scenario "Year" "Value"
           "GDP growth" "%" 0.5 1.2 = Ok fig.
Proof.
  destruct (plot_hist_forecast_band_failures (H:=sample_builtins)
              no_value_column "Date" "Value" "GDP growth" "%" 0.5 1.2)
    as (Hyear & _ & _).
  destruct (plot_hist_forecast_band_failures (H:=sample_builtins)
              no_value_column "Year" "Value" "GDP growth" "%" 0.5 1.2)
    as (_ & Hvalue & _).
  destruct (plot_hist_forecast_band_failures (H:=sample_builtins)
              endless_year "Year" "Value" "GDP growth" "%" 0.5 1.2)
    as (_ & _ & Hinf).
  destruct (plot_hist_forecast_band_failures (H:=sample_builtins)
              scenario "Year" "Value" "GDP growth" "%" 0.5 1.2)
    as (_ & _ & Hfin).
  assert ("Year" ≠ "Type") as H1 by discriminate.
  assert ("Value" ≠ "Type") as H2 by discriminate.
  split_and!.
  - apply Hyear. by apply (bool_decide_unpack _).
  - apply Hvalue; by apply (bool_decide_unpack _).
  - assert (∃ cleaned, clean_macro (H:=sample_builtins) endless_year "Year" "Value"
                       = Ok cleaned ∧
                       forallb finite_cell (column_of "Year" (rows cleaned)) = false)
      as (cleaned & Hc & Hf) by (vm_compute; eexists; split; reflexivity).
    specialize (Hinf H1 H2 cleaned Hc). rewrite Hf in Hinf. exact Hinf.
  - assert (∃ cleaned, clean_macro (H:=sample_builtins) scenario "Year" "Value"
                       = Ok cleaned ∧
                       forallb finite_cell (column_of "Year" (rows cleaned)) = true)
      as (cleaned & Hc & Hf) by (vm_compute; eexists; split; reflexivity).
    specialize (Hfin H1 H2 cleaned Hc). rewrite Hf in Hfin. exact Hfin.
Defined.



(** X8: over a table without "Type" column, the figure shows the band, the
    line at its centre and, when the cleaned table has rows, one line
    through all of them, drawn as the historical one; no forecast line and
    no connector. *)
Theorem plot_without_type_column `{PyBuiltins}
    df year_col value_col title y_label band_center band_width cleaned fig :
  "Type" ∉ columns df →
  clean_macro df year_col value_col = Ok cleaned →
  plot_hist_forecast_band df year_col value_col title y_label
    band_center band_width = Ok fig →
  artists fig =
    HSpan (band_center - band_width / 2) (band_center + band_width / 2)
      band_props
    :: HLine band_center center_props
    :: match rows cleaned with
       | [] => []
       | _ :: _ =>
           [Line (column_of year_col (rows cleaned))
              (column_of value_col (rows cleaned)) historical_props]
       end.
Proof.
  intros Ht Hc Hp.
  rewrite (plot_hist_forecast_band_artists _ _ _ _ _ _ _ _ _ Hc Hp).
  destruct (clean_macro_rows _ _ _ _ Hc) as [Hcols _].
  unfold drawn, historical_rows, forecast_rows.
  rewrite !decide_False by (by rewrite Hcols). cbn [app].
  destruct (rows cleaned); [done|]. by rewrite app_nil_r.
Qed.

Lemma plot_without_type_column_witness :
  ∃ cleaned fig,
    clean_macro (H:=sample_builtins) unlabelled "Year" "Value" = Ok cleaned ∧
    plot_hist_forecast_band (H:=sample_builtins) unlabelled "Year" "Value"
      "Trend" "%" 0.5 1.2 = Ok fig ∧
    artists fig =
      [ HSpan (0.5 - 1.2 / 2) (0.5 + 1.2 / 2) band_props;
        HLine 0.5 center_props;
        Line [CNum (Fin 2021); CNum (Fin 2023)]
             [CNum (Fin 2.3); CNum (Fin 1.1)] historical_props ].
Proof.
  assert (∃ cleaned fig,
    clean_macro (H:=sample_builtins) unlabelled "Year" "Value" = Ok cleaned ∧
    plot_hist_forecast_band (H:=sample_builtins) unlabelled "Year" "Value"
      "Trend" "%" 0.5 1.2 = Ok fig ∧
    match rows cleaned with
    | [] => []
    | _ :: _ => [Line (column_of "Year" (rows cleaned))
                   (column_of "Value" (rows cleaned)) historical_props]
    end = [Line [CNum (Fin 2021); CNum (Fin 2023)]
             [CNum (Fin 2.3); CNum (Fin 1.1)] historical_props])
    as (cleaned & fig & Hc & Hp & Hline).
  { vm_compute. eexists _, _. split_and!; reflexivity. }
  exists cleaned, fig. split; [exact Hc|]. split; [exact Hp|].
  rewrite (plot_without_type_column (H:=sample_builtins) unlabelled
             "Year" "Value" "Trend" "%" 0.5 1.2 cleaned fig
             ltac:(by apply (bool_decide_unpack _)) Hc Hp).
  rewrite Hline. reflexivity.
Defined.

(** X9: every line of the figure other than the connector runs forward in
    time: it goes through some of the rows of the cleaned table in their
    order, its years ascend, and it has as many values as years. *)
Theorem plot_lines_run_forward `{PyBuiltins}
    df year_col value_col title y_label band_center band_width cleaned fig :
  clean_macro df year_col value_col = Ok cleaned →
  plot_hist_forecast_band df year_col value_col title y_label
    band_center band_width = Ok fig →
  ∀ xs ys p, Line xs ys p ∈ artists fig → p ≠ connector_props →
    (∃ part, sublist part (rows cleaned) ∧
       xs = column_of year_col part ∧ ys = column_of value_col part) ∧
    length xs = length ys ∧
    StronglySorted cell_le xs.
Proof.
  intros Hc Hp xs ys p Hin Hne.
  rewrite (plot_hist_forecast_band_artists _ _ _ _ _ _ _ _ _ Hc Hp) in Hin.
  pose proof (clean_macro_sorted _ _ _ _ Hc) as Hsorted.
  assert (sublist (historical_rows cleaned) (rows cleaned)) as Hsh.
  { unfold historical_rows. destruct (decide _); [apply sublist_filter|done]. }
  assert (sublist (forecast_rows cleaned) (rows cleaned)) as Hsf.
  { unfold forecast_rows. destruct (decide _);
      [apply sublist_filter|apply sublist_nil_l]. }
  assert (sorted_by year_col (historical_rows cleaned)) as Hh.
  { unfold historical_rows. destruct (decide _); [|done].
    by apply StronglySorted_filter. }
  assert (sorted_by year_col (forecast_rows cleaned)) as Hf.
  { unfold forecast_rows. destruct (decide _); [|constructor].
    by apply StronglySorted_filter. }
  assert (∀ part, sublist part (rows cleaned) → sorted_by year_col part →
            xs = column_of year_col part → ys = column_of value_col part →
            (∃ part, sublist part (rows cleaned) ∧
               xs = column_of year_col part ∧ ys = column_of value_col part) ∧
            length xs = length ys ∧ StronglySorted cell_le xs) as Hpart.
  { intros part Hsub Hs -> ->. split; [by eauto|]. split.
    - unfold column_of. by rewrite !length_fmap.
    - by apply sorted_by_column. }
  unfold drawn in Hin. cbv zeta in Hin.
  rewrite !elem_of_app in Hin.
  destruct Hin as [Hin|[Hin|Hin]].
  { rewrite !elem_of_cons, elem_of_nil in Hin. by destruct Hin as [|[|]]. }
  - destruct (historical_rows cleaned) as [|h hs] eqn:Ehist;
      [by apply elem_of_nil in Hin|].
    apply list_elem_of_singleton in Hin. injection Hin as -> -> _.
    by apply (Hpart (h :: hs)).
  - destruct (forecast_rows cleaned) as [|f fs] eqn:Efcst;
      [by apply elem_of_nil in Hin|].
    apply elem_of_cons in Hin as [Hin|Hin].
    + injection Hin as -> -> _. by apply (Hpart (f :: fs)).
    + destruct (last (historical_rows cleaned));
        [|by apply elem_of_nil in Hin].
      apply list_elem_of_singleton in Hin. unfold connector in Hin.
      injection Hin as _ _ ->. done.
Qed.

Lemma plot_lines_run_forward_witness :
  ∃ cleaned fig,
    clean_macro (H:=sample_builtins) scenario "Year" "Value" = Ok cleaned ∧
    plot_hist_forecast_band (H:=sample_builtins) scenario "Year" "Value"
      "GDP growth" "%" 0.5 1.2 = Ok fig ∧
    ∀ xs ys p, Line xs ys p ∈ artists fig → p ≠ connector_props →
      length xs = length ys ∧ StronglySorted cell_le xs.
Proof.
  assert (∃ cleaned fig,
    clean_macro (H:=sample_builtins) scenario "Year" "Value" = Ok cleaned ∧
    plot_hist_forecast_band (H:=sample_builtins) scenario "Year" "Value"
      "GDP growth" "%" 0.5 1.2 = Ok fig)
    as (cleaned & fig & Hc & Hp).
  { vm_compute. eexists _, _. split; reflexivity. }
  exists cleaned, fig. split; [exact Hc|]. split; [exact Hp|].
  intros xs ys p Hin Hne.
  destruct (plot_lines_run_forward (H:=sample_builtins) scenario
              "Year" "Value" "GDP growth" "%" 0.5 1.2 cleaned fig Hc Hp
              xs ys p Hin Hne) as (_ & Hlen & Hsorted).
  exact (conj Hlen Hsorted).
Defined.

(** * Further results on the loader and the page *)

(** ** Paths *)

Section paths.
Implicit Types d f h : string.

Lemma string_app_nil_r d : d +:+ EmptyString = d.
Proof.
  induction d as [|c d IH]; [done|].
  change (String c d +:+ EmptyString) with (String c (d +:+ EmptyString)).
  by rewrite IH.
Qed.

Lemma cut_slash_free f :
  slash_free f = true → Path.cut f = (EmptyString, f).
Proof.
  induction f as [|c f IH]; [done|]. cbn [slash_free Path.cut].
  intros [Hc Hf]%andb_true_iff. rewrite IH by done.
  by destruct (Path.is_sep c).
Qed.

Lemma cut_app_slash d f :
  slash_free f = true →
  Path.cut (d +:+ String "/" f) = (d +:+ "/", f).
Proof.
  intros Hf. induction d as [|c d IH].
  - change (Path.cut (String "/" f) = ("/", f)).
    cbn [Path.cut]. by rewrite cut_slash_free.
  - change (String c d +:+ String "/" f) with (String c (d +:+ String "/" f)).
    cbn [Path.cut]. rewrite IH. by destruct d.
Qed.

Lemma cut_all_sep_app d f :
  Path.all_sep d = true → slash_free f = true →
  Path.cut (d +:+ f) = (d, f).
Proof.
  intros Hd Hf. induction d as [|c d IH]; [by apply cut_slash_free|].
  cbn [Path.all_sep] in Hd. apply andb_true_iff in Hd as [Hc Hd].
  change (String c d +:+ f) with (String c (d +:+ f)).
  cbn [Path.cut]. rewrite IH by done. destruct d; [|done].
  by rewrite Hc.
Qed.

Lemma all_sep_app_slash d : Path.all_sep (d +:+ "/") = Path.all_sep d.
Proof.
  induction d as [|c d IH]; [done|].
  change (String c d +:+ "/") with (String c (d +:+ "/")).
  cbn [Path.all_sep]. by rewrite IH.
Qed.

Lemma rstrip_sep_app_slash d :
  Path.rstrip_sep (d +:+ "/") = Path.rstrip_sep d.
Proof.
  induction d as [|c d IH]; [done|].
  change (String c d +:+ "/") with (String c (d +:+ "/")).
  cbn [Path.rstrip_sep]. by rewrite IH.
Qed.

Lemma rstrip_sep_idem d :
  Path.rstrip_sep (Path.rstrip_sep d) = Path.rstrip_sep d.
Proof.
  induction d as [|c d IH]; [done|]. cbn [Path.rstrip_sep].
  destruct (Path.rstrip_sep d) as [|c' r] eqn:Hr.
  - destruct (Path.is_sep c) eqn:Hc; cbn; [done|]. by rewrite Hc.
  - cbn [Path.rstrip_sep] in *. by rewrite IH.
Qed.

Lemma rstrip_sep_all_sep d :
  Path.all_sep d = true → Path.rstrip_sep d = EmptyString.
Proof.
  induction d as [|c d IH]; [done|]. cbn.
  intros [Hc Hd]%andb_true_iff. by rewrite IH, Hc.
Qed.

Lemma rstrip_sep_ends d : Path.ends_with_sep (Path.rstrip_sep d) = false.
Proof.
  induction d as [|c d IH]; [done|]. cbn [Path.rstrip_sep].
  destruct (Path.rstrip_sep d) as [|c' r] eqn:Hr.
  - destruct (Path.is_sep c) eqn:Hc; [done|]. cbn. by rewrite Hc.
  - done.
Qed.

Lemma all_sep_ends d :
  Path.all_sep d = true → d ≠ EmptyString → Path.ends_with_sep d = true.
Proof.
  induction d as [|c d IH]; [done|]. cbn [Path.all_sep].
  intros [Hc Hd]%andb_true_iff _. destruct d as [|c' d]; [done|].
  by apply IH.
Qed.

(** A directory as [posixpath.dirname] returns it: slashes only, or
    without slash at the end. *)
Lemma dirname_shape p :
  Path.all_sep (Path.dirname p) = true ∨
  (Path.dirname p ≠ EmptyString ∧
   Path.all_sep (Path.dirname p) = false ∧
   Path.ends_with_sep (Path.dirname p) = false ∧
   Path.rstrip_sep (Path.dirname p) = Path.dirname p).
Proof.
  unfold Path.dirname, Path.split. destruct (Path.cut p) as [h t].
  cbn [fst]. destruct (Path.all_sep h) eqn:Hh; [by left|]. right.
  assert (Path.all_sep (Path.rstrip_sep h) = false) as Hns.
  { destruct (Path.all_sep (Path.rstrip_sep h)) eqn:Ha; [|done].
    apply rstrip_sep_all_sep in Ha. rewrite rstrip_sep_idem in Ha.
    clear -Hh Ha. exfalso. induction h as [|c h IH]; [done|].
    cbn in Hh, Ha. destruct (Path.rstrip_sep h); [|done].
    destruct (Path.is_sep c); [|done]. by apply IH. }
  split_and!; [|done|apply rstrip_sep_ends|apply rstrip_sep_idem].
  intros Heq. by rewrite Heq in Hns.
Qed.

(** Joining a directory as [dirname] returns it with a plain file name
    and splitting again gives the two back. *)
Lemma split_join_dirname p f :
  slash_free f = true →
  Path.split (Path.join (Path.dirname p) f) = (Path.dirname p, f).
Proof.
  intros Hf. set (d := Path.dirname p).
  destruct (dirname_shape p) as [Hall|(Hne & Hall & Hend & Hstrip)];
    fold d in Hall |- *.
  - assert (Path.join d f = d +:+ f) as ->.
    { unfold Path.join. destruct f as [|c f].
      - rewrite string_app_nil_r. destruct d as [|c d]; [done|].
        by rewrite all_sep_ends.
      - cbn [slash_free] in Hf. apply andb_true_iff in Hf as [Hc _].
        apply negb_true_iff in Hc. rewrite Hc.
        destruct d as [|c' d]; [done|]. by rewrite all_sep_ends. }
    unfold Path.split. rewrite cut_all_sep_app by done. by rewrite Hall.
  - fold d in Hne, Hend, Hstrip.
    assert (Path.join d f = d +:+ String "/" f) as ->.
    { unfold Path.join. rewrite Hend.
      rewrite bool_decide_eq_false_2 by done. destruct f as [|c f]; [done|].
      cbn [slash_free] in Hf. apply andb_true_iff in Hf as [Hc _].
      apply negb_true_iff in Hc. by rewrite Hc. }
    unfold Path.split. rewrite cut_app_slash by done.
    by rewrite all_sep_app_slash, Hall, rstrip_sep_app_slash, Hstrip.
Qed.
End paths.

(** ** Steps of the page *)

Section steps.
Context `{PyBuiltins}.
Implicit Types env : Env.
Implicit Types log : list event.

Lemma bind_emit {B} e (k : unit → App B) log :
  (emit e ≫= k) log = k () (log ++ [e]).
Proof. done. Qed.

Lemma bind_lift {A B} (r : result A) (k : A → App B) log :
  (lift r ≫= k) log =
    match r with Ok a => k a log | Raise e => (Raise e, log) end.
Proof. by destruct r. Qed.

Lemma bind_slider {B} l lo hi v st cur (k : Q → App B) log :
  (slider l lo hi v st cur ≫= k) log
  = k cur (log ++ [SidebarSlider l lo hi v st]).
Proof. done. Qed.

Lemma load_csv_eq env filename log :
  load_csv env filename log =
    let path := Path.join (BASE_DIR env) filename in
    if path_exists env path then (read_csv env path, log)
    else (Raise StopException, log ++ missing_report env path).
Proof.
  cbv zeta. destruct (path_exists env _) eqn:Hex.
  - by apply load_csv_present.
  - by apply load_csv_missing.
Qed.

Lemma bind_load_csv {B} env filename (k : DataFrame → App B) log :
  (load_csv env filename ≫= k) log =
    let path := Path.join (BASE_DIR env) filename in
    if path_exists env path then
      match read_csv env path with
      | Ok df => k df log
      | Raise e => (Raise e, log)
      end
    else (Raise StopException, log ++ missing_report env path).
Proof.
  unfold mbind, App_bind. rewrite load_csv_eq. cbv zeta.
  destruct (path_exists env _); [|done]. by destruct (read_csv env _).
Qed.
End steps.

(** X10: [load_csv] looks for a plain file name in the folder of the
    script and nowhere else: the path it tests, reports and reads has
    [BASE_DIR] for directory and the name for last component.  A name that
    begins with a slash is taken as it is, whatever the folder of the
    script. *)
Theorem load_csv_where_it_looks env filename :
  let path := Path.join (BASE_DIR env) filename in
  (∀ log, load_csv env filename log =
     if path_exists env path then (read_csv env path, log)
     else (Raise StopException, log ++ missing_report env path)) ∧
  (slash_free filename = true →
   Path.dirname path = BASE_DIR env ∧ Path.basename path = filename) ∧
  (∀ rest, filename = String "/" rest → path = filename).
Proof.
  cbv zeta. split_and!.
  - intros log. apply load_csv_eq.
  - intros Hf. unfold Path.dirname at 1, Path.basename, BASE_DIR.
    by rewrite split_join_dirname.
  - by intros rest ->.
Qed.

Lemma load_csv_where_it_looks_witness :
  slash_free "france_gdp.csv" = true ∧
  Path.join (BASE_DIR sample_env) "france_gdp.csv" = "/srv/app/france_gdp.csv" ∧
  Path.dirname (Path.join (BASE_DIR sample_env) "france_gdp.csv")
    = BASE_DIR sample_env ∧
  Path.basename (Path.join (BASE_DIR sample_env) "france_gdp.csv")
    = "france_gdp.csv" ∧
  Path.join (BASE_DIR sample_env) "/etc/passwd" = "/etc/passwd".
Proof.
  assert (slash_free "france_gdp.csv" = true) as H1 by reflexivity.
  destruct (load_csv_where_it_looks sample_env "france_gdp.csv")
    as (_ & Hin & _).
  destruct (load_csv_where_it_looks sample_env "/etc/passwd")
    as (_ & _ & Habs).
  destruct (Hin H1) as [Hd Hb].
  split; [exact H1|]. split; [reflexivity|]. split; [exact Hd|].
  split; [exact Hb|]. exact (Habs "etc/passwd" eq_refl).
Defined.

(** ** The two charts of the second tab *)

Section competitiveness.
Context `{PyBuiltins}.

Lemma cleaned_columns df yc vc cleaned :
  clean_macro df yc vc = Ok cleaned →
  yc ∈ columns cleaned ∧ vc ∈ columns cleaned.
Proof.
  intros Hc. destruct (clean_macro_Ok_inv _ _ _ _ Hc) as [Hy Hv].
  destruct (clean_macro_rows _ _ _ _ Hc) as [-> _]. done.
Qed.

Lemma lpi_chart_eq lpi lpi_clean :
  clean_macro lpi "Year" "LPI_Score" = Ok lpi_clean →
  lpi_chart lpi_clean =
    if forallb finite_cell (column_of "Year" (rows lpi_clean))
    then Ok {| figsize := (8.2, 4.2)%Q;
               artists :=
                 [Bar (year_of <$> column_of "Year" (rows lpi_clean))
                    (column_of "LPI_Score" (rows lpi_clean))];
               title_ := Some "France – LPI Trend";
               xlabel := Some "Year"; ylabel := Some "LPI Score";
               xticks := None; grid := Some (true, "y", 0.25%Q);
               legend := None |}
    else Raise IntCastingNaNError.
Proof.
  intros Hc. destruct (cleaned_columns _ _ _ _ Hc) as [Hy Hv].
  unfold lpi_chart. cbv zeta. rewrite (getitem_Ok _ _ Hy), bind_Ok.
  fold (column_of "Year" (rows lpi_clean)).
  rewrite astype_int_numbers
    by by apply (cleaned_years_numbers lpi "Year" "LPI_Score").
  destruct (forallb _ _); [|done].
  by rewrite bind_Ok, (getitem_Ok _ _ Hv), bind_Ok.
Qed.

Lemma ftth_chart_eq ftth ftth_clean :
  clean_macro ftth "Year" "FTTH_Penetration_Percent" = Ok ftth_clean →
  ftth_chart ftth_clean =
    if forallb finite_cell (column_of "Year" (rows ftth_clean))
    then Ok {| figsize := (8.2, 4.2)%Q;
               artists :=
                 [Line (as_series (year_of <$> column_of "Year" (rows ftth_clean)))
                    (column_of "FTTH_Penetration_Percent" (rows ftth_clean))
                    {| marker := Some "o"; linewidth := Some 2%Q;
                       linestyle := None; label := None; alpha := None |}];
               title_ := Some "France – FTTH Trend";
               xlabel := Some "Year"; ylabel := Some "%";
               xticks := None; grid := Some (true, "y", 0.25%Q);
               legend := None |}
    else Raise IntCastingNaNError.
Proof.
  intros Hc. destruct (cleaned_columns _ _ _ _ Hc) as [Hy Hv].
  unfold ftth_chart. cbv zeta. rewrite (getitem_Ok _ _ Hy), bind_Ok.
  fold (column_of "Year" (rows ftth_clean)).
  rewrite astype_int_numbers
    by by apply (cleaned_years_numbers ftth "Year" "FTTH_Penetration_Percent").
  destruct (forallb _ _); [|done].
  by rewrite bind_Ok, (getitem_Ok _ _ Hv), bind_Ok.
Qed.

End competitiveness.



(** * Further results on the page *)

Section page.
Context `{PyBuiltins}.
Implicit Types env : Env.
Implicit Types log : list event.

Lemma quiet_emit e : is_error e = false → quiet (emit e).
Proof.
  intros He log Hlog. unfold emit. cbn [snd].
  apply Forall_app. split; [done|]. by constructor.
Qed.

Lemma quiet_lift {A} (r : result A) : quiet (lift r).
Proof. by intros log Hlog. Qed.

Lemma quiet_bind {A B} (m : App A) (k : A → App B) :
  quiet m → (∀ a, quiet (k a)) → quiet (m ≫= k).
Proof.
  intros Hm Hk log Hlog. unfold mbind, App_bind.
  specialize (Hm log Hlog). destruct (m log) as [[a|e] log']; cbn [snd] in *.
  - by apply Hk.
  - done.
Qed.

Lemma quiet_slider l lo hi v st cur : quiet (slider l lo hi v st cur).
Proof.
  unfold slider. apply quiet_bind; [by apply quiet_emit|].
  by intros [] log Hlog.
Qed.

Lemma quiet_load_csv env filename :
  path_exists env (Path.join (BASE_DIR env) filename) = true →
  quiet (load_csv env filename).
Proof.
  intros Hex log Hlog. by rewrite (load_csv_present _ _ _ Hex).
Qed.

Lemma all_present_lookup env i f :
  all_present env → data_files !! i = Some f →
  path_exists env (Path.join (BASE_DIR env) f) = true.
Proof.
  intros Hall Hi. unfold all_present in Hall.
  rewrite Forall_lookup in Hall. by apply (Hall i).
Qed.
End page.

Ltac quiet_step :=
  first
    [ apply quiet_emit; reflexivity
    | apply quiet_lift
    | apply quiet_slider
    | apply quiet_load_csv; assumption ].

Ltac page_forward H :=
  first
    [ rewrite bind_emit in H
    | rewrite bind_slider in H
    | rewrite bind_load_csv in H; cbv zeta in H;
      let E := fresh "Hex" in
      let R := fresh "Hread" in
      match type of H with
      | (if ?b then _ else _) = _ =>
          destruct b eqn:E; [|discriminate H]
      end;
      match type of H with
      | match ?r with Ok _ => _ | Raise _ => _ end = _ =>
          destruct r as [?df|?e] eqn:R; [|discriminate H]
      end
    | rewrite bind_lift in H;
      let E := fresh "Hstep" in
      match type of H with
      | match ?r with Ok _ => _ | Raise _ => _ end = _ =>
          destruct r as [?a|?e] eqn:E; [|discriminate H]
      end ];
  cbv beta in H.

(** X12: when a data file is missing and the data files before it, in the
    order gdp, inflation, unemployment, lpi, ftth, are there and can be
    read, the page consists of its title lines and the report on that file,
    and the script stops there: no sidebar, no tab and no chart. *)
Theorem main_stops_at_first_missing_file `{PyBuiltins} env ctl k name :
  data_files !! k = Some name →
  (∀ j f, j < k → data_files !! j = Some f →
     path_exists env (Path.join (BASE_DIR env) f) = true ∧
     ∃ df, read_csv env (Path.join (BASE_DIR env) f) = Ok df) →
  path_exists env (Path.join (BASE_DIR env) name) = false →
  main env ctl [] =
    (Raise StopException,
     page_head ++ missing_report env (Path.join (BASE_DIR env) name)).
Proof.
  intros Hk Hbefore Hmiss.
  assert (∀ j f, j < k → data_files !! j = Some f →
            ∀ B (rest : DataFrame → App B) log,
              ∃ df, (load_csv env f ≫= rest) log = rest df log) as Hload.
  { intros j f Hj Hf B rest log.
    destruct (Hbefore j f Hj Hf) as (Hex & df & Hread).
    exists df. rewrite bind_load_csv. cbv zeta. by rewrite Hex, Hread. }
  assert (∀ B (rest : DataFrame → App B) log,
            (load_csv env name ≫= rest) log
            = (Raise StopException,
               log ++ missing_report env (Path.join (BASE_DIR env) name)))
    as Hstop.
  { intros B rest log. rewrite bind_load_csv. cbv zeta. by rewrite Hmiss. }
  unfold main. rewrite !bind_emit. cbv beta.
  destruct k as [|[|[|[|[|k]]]]]; cbn in Hk; try done;
    injection Hk as <-;
    repeat
      (match goal with
       | |- (load_csv env "france_gdp.csv" ≫= ?rest) ?log = _ =>
           destruct (Hload 0 "france_gdp.csv" ltac:(lia) eq_refl _ rest log)
             as [gdp ->]
       | |- (load_csv env "france_inflation.csv" ≫= ?rest) ?log = _ =>
           destruct (Hload 1 "france_inflation.csv" ltac:(lia) eq_refl _ rest log)
             as [inflation ->]
       | |- (load_csv env "france_unemployment.csv" ≫= ?rest) ?log = _ =>
           destruct (Hload 2 "france_unemployment.csv" ltac:(lia) eq_refl _ rest log)
             as [unemp ->]
       | |- (load_csv env "france_lpi.csv" ≫= ?rest) ?log = _ =>
           destruct (Hload 3 "france_lpi.csv" ltac:(lia) eq_refl _ rest log)
             as [lpi ->]
       end; cbv beta);
    by rewrite Hstop.
Qed.

Lemma main_stops_at_first_missing_file_witness :
  main (H:=sample_builtins) sample_env default_controls [] =
    (Raise StopException,
     page_head
     ++ [ Error_ "Missing file: /srv/app/france_inflation.csv";
          Write [AStr "✅ Running from:"; AStr "/srv/app"];
          Write [AStr "✅ Files available:"; AList ["app.py"; "france_gdp.csv"]] ]).
Proof.
  apply (main_stops_at_first_missing_file (H:=sample_builtins)
           sample_env default_controls 1 "france_inflation.csv" eq_refl).
  - intros j f Hj Hf. destruct j as [|j]; [|lia].
    injection Hf as <-. split; [reflexivity|].
    exists scenario. reflexivity.
  - reflexivity.
Defined.

(** X13: when the five data files are in the folder of the script, the
    page shows no error box, whatever else goes wrong with the files: a file
    that cannot be parsed, a missing column or an infinite year end the run
    with an exception, but [st.error] is called for a missing file only. *)
Theorem main_shows_error_for_missing_file_only `{PyBuiltins} env ctl :
  all_present env → no_error_shown (main env ctl []).2.
Proof.
  intros Hall.
  pose proof (all_present_lookup env 0 _ Hall eq_refl) as H0.
  pose proof (all_present_lookup env 1 _ Hall eq_refl) as H1.
  pose proof (all_present_lookup env 2 _ Hall eq_refl) as H2.
  pose proof (all_present_lookup env 3 _ Hall eq_refl) as H3.
  pose proof (all_present_lookup env 4 _ Hall eq_refl) as H4.
  assert (quiet (main env ctl)) as Hq.
  { unfold main.
    repeat (apply quiet_bind; [quiet_step|intros ?]).
    quiet_step. }
  apply Hq. constructor.
Qed.

Lemma main_shows_error_for_missing_file_only_witness :
  all_present page_env ∧
  no_error_shown (main (H:=sample_builtins) page_env default_controls []).2.
Proof.
  assert (all_present page_env) as H1.
  { unfold all_present. repeat constructor. }
  split; [exact H1|].
  apply (main_shows_error_for_missing_file_only (H:=sample_builtins)
           page_env default_controls H1).
Defined.

(** X14: a run of the page that comes to its end has shown five figures,
    in this order: the charts of the GDP, the inflation and the
    unemployment file, each built by [plot_hist_forecast_band] from the
    table read from that file, with its own title and with the band that
    its own two sliders give, then the LPI and the FTTH chart; the six
    sliders are shown in the order of the script. *)
Theorem main_draws_five_charts `{PyBuiltins} env ctl log :
  main env ctl [] = (Ok (), log) →
  ∃ gdp inflation unemp f1 f2 f3 f4 f5,
    read_csv env (Path.join (BASE_DIR env) "france_gdp.csv") = Ok gdp ∧
    read_csv env (Path.join (BASE_DIR env) "france_inflation.csv") = Ok inflation ∧
    read_csv env (Path.join (BASE_DIR env) "france_unemployment.csv") = Ok unemp ∧
    figures log = [f1; f2; f3; f4; f5] ∧
    plot_hist_forecast_band gdp "Year" "GDP_Growth_Percent"
      "GDP Growth (Historical vs Forecast to 2030)" "%"
      (at_gdp_center ctl) (at_gdp_width ctl) = Ok f1 ∧
    plot_hist_forecast_band inflation "Year" "Inflation_HICP_Percent"
      "Inflation (HICP) (Historical vs Forecast to 2030)" "%"
      (at_inf_center ctl) (at_inf_width ctl) = Ok f2 ∧
    plot_hist_forecast_band unemp "Year" "Unemployment_Rate_Percent"
      "Unemployment Rate (Historical vs Forecast to 2030)" "%"
      (at_un_center ctl) (at_un_width ctl) = Ok f3 ∧
    head (artists f1) =
      Some (HSpan (at_gdp_center ctl - at_gdp_width ctl / 2)
              (at_gdp_center ctl + at_gdp_width ctl / 2) band_props) ∧
    head (artists f2) =
      Some (HSpan (at_inf_center ctl - at_inf_width ctl / 2)
              (at_inf_center ctl + at_inf_width ctl / 2) band_props) ∧
    head (artists f3) =
      Some (HSpan (at_un_center ctl - at_un_width ctl / 2)
              (at_un_center ctl + at_un_width ctl / 2) band_props) ∧
    title_ f4 = Some "France – LPI Trend" ∧
    title_ f5 = Some "France – FTTH Trend" ∧
    omap slider_shown log =
      [ "GDP band center (%)"; "GDP band width (%)";
        "Inflation band center (%)"; "Inflation band width (%)";
        "Unemployment band center (%)"; "Unemployment band width (%)" ].
Proof.
  intros Hmain. unfold main in Hmain.
  repeat page_forward Hmain.
  unfold emit in Hmain. injection Hmain as <-.
  assert (∀ tbl yc vc title y_label c w fig,
            plot_hist_forecast_band tbl yc vc title y_label c w = Ok fig →
            head (artists fig) = Some (HSpan (c - w / 2) (c + w / 2) band_props))
    as Hband.
  { intros tbl yc vc title y_label c w fig Hp.
    destruct (plot_hist_forecast_band_cleans _ _ _ _ _ _ _ _ Hp) as [cleaned Hc].
    by rewrite (plot_hist_forecast_band_artists _ _ _ _ _ _ _ _ _ Hc Hp). }
  assert (∀ lpi lpi_clean fig,
            clean_macro lpi "Year" "LPI_Score" = Ok lpi_clean →
            lpi_chart lpi_clean = Ok fig →
            title_ fig = Some "France – LPI Trend") as Hlpi.
  { intros lpi lpi_clean fig Hc. rewrite (lpi_chart_eq _ _ Hc).
    destruct (forallb _ _); [|done]. by intros [= <-]. }
  assert (∀ ftth ftth_clean fig,
            clean_macro ftth "Year" "FTTH_Penetration_Percent" = Ok ftth_clean →
            ftth_chart ftth_clean = Ok fig →
            title_ fig = Some "France – FTTH Trend") as Hftth.
  { intros ftth ftth_clean fig Hc. rewrite (ftth_chart_eq _ _ Hc).
    destruct (forallb _ _); [|done]. by intros [= <-]. }
  exists df, df0, df1, a, a0, a1, a3, a5.
  split; [reflexivity|]. split; [reflexivity|]. split; [reflexivity|].
  split; [reflexivity|].
  split; [exact Hstep|]. split; [exact Hstep0|]. split; [exact Hstep1|].
  split; [exact (Hband _ _ _ _ _ _ _ _ Hstep)|].
  split; [exact (Hband _ _ _ _ _ _ _ _ Hstep0)|].
  split; [exact (Hband _ _ _ _ _ _ _ _ Hstep1)|].
  split; [exact (Hlpi _ _ _ Hstep2 Hstep3)|].
  split; [exact (Hftth _ _ _ Hstep4 Hstep5)|].
  reflexivity.
Qed.

Lemma main_draws_five_charts_witness :
  ∃ log,
    main (H:=sample_builtins) page_env default_controls [] = (Ok (), log) ∧
    length (figures log) = 5 ∧
    length (omap slider_shown log) = 6.
Proof.
  assert (∃ log, main (H:=sample_builtins) page_env default_controls []
                 = (Ok (), log)) as [log Hmain].
  { vm_compute. eexists. reflexivity. }
  exists log. split; [exact Hmain|].
  destruct (main_draws_five_charts (H:=sample_builtins)
              page_env default_controls log Hmain)
    as (gdp & inflation & unemp & f1 & f2 & f3 & f4 & f5 & _ & _ & _ & Hfigs
        & _ & _ & _ & _ & _ & _ & _ & _ & Hsliders).
  rewrite Hfigs, Hsliders. split; reflexivity.
Defined.

